(** * Polymarket NO-token bot: opportunity discovery and order execution

    A shallow embedding of the Python services of the bot
    (src/services/polymarket_service.py, monitor_service.py,
    telegram_service.py and src/utils/settings_store.py) together with the
    properties of the pipeline that the specification states.

    Conventions of the embedding:
    - a decoded JSON document is a value of [json]; a Python [dict] is an
      association list read from the front, a Python [float] is a binary64
      primitive float, a Python [int] is a [Z];
    - a raised exception is the [Raise] result of [res]; [try/except
      Exception] is [catch];
    - network and SDK calls are answered by an environment that may depend on
      every call made so far, and every call is appended to a log;
    - strings are sequences of 8-bit characters. *)

From Stdlib Require Import ZArith List String Ascii Bool Lia Floats.
From Stdlib Require Import DecimalString.
From Stdlib Require DecimalZ DecimalPos.
From stdpp Require Import gmap.
Import ListNotations.

Local Open Scope string_scope.
Local Open Scope Z_scope.
Local Set Warnings "-register-all".

(* ===================================================================== *)
(** * Python values *)
(* ===================================================================== *)

Module Py.

(** What [json.loads] and [Response.json] produce. *)
Inductive json : Type :=
| JNull
| JBool (b : bool)
| JInt (z : Z)
| JFloat (f : float)
| JStr (s : string)
| JList (l : list json)
| JDict (d : list (string * json)).

Definition dict : Type := list (string * json).

(** Outcome of an expression that may raise. *)
Inductive res (A : Type) : Type :=
| Ok (a : A)
| Raise.
Arguments Ok {A} a.
Arguments Raise {A}.

Definition rbind {A B} (r : res A) (k : A -> res B) : res B :=
  match r with
  | Ok a => k a
  | Raise => Raise
  end.

Definition of_option {A} (o : option A) : res A :=
  match o with
  | Some a => Ok a
  | None => Raise
  end.

(** ** Characters and strings *)

(** [str.isspace] on the 8-bit range: TAB..CR, FS..US, space, NEL, NBSP. *)
Definition is_space (c : ascii) : bool :=
  let n := N_of_ascii c in
  ((9 <=? n) && (n <=? 13) || (28 <=? n) && (n <=? 32)
   || (n =? 133) || (n =? 160))%N.

Definition is_digit (c : ascii) : bool :=
  let n := N_of_ascii c in ((48 <=? n) && (n <=? 57))%N.

Definition lower_char (c : ascii) : ascii :=
  let n := N_of_ascii c in
  if ((65 <=? n) && (n <=? 90))%N then ascii_of_N (n + 32) else c.

Definition upper_char (c : ascii) : ascii :=
  let n := N_of_ascii c in
  if ((97 <=? n) && (n <=? 122))%N then ascii_of_N (n - 32) else c.

Fixpoint drop_spaces (l : list ascii) : list ascii :=
  match l with
  | c :: l' => if is_space c then drop_spaces l' else l
  | [] => []
  end.

(** [s.strip()] *)
Definition strip (s : string) : string :=
  string_of_list_ascii
    (rev (drop_spaces (rev (drop_spaces (list_ascii_of_string s))))).

(** [s.lower()], [s.upper()]: letters outside ASCII are left alone, which
    cannot change a comparison with an ASCII literal. *)
Definition lower (s : string) : string :=
  string_of_list_ascii (map lower_char (list_ascii_of_string s)).

Definition upper (s : string) : string :=
  string_of_list_ascii (map upper_char (list_ascii_of_string s)).

(** [c in s] for a one-character [c]. *)
Fixpoint contains_char (c : ascii) (s : string) : bool :=
  match s with
  | EmptyString => false
  | String a s' => Ascii.eqb a c || contains_char c s'
  end.

(** [s.endswith(c)] for a one-character [c]. *)
Fixpoint ends_with_char (c : ascii) (s : string) : bool :=
  match s with
  | EmptyString => false
  | String a EmptyString => Ascii.eqb a c
  | String _ s' => ends_with_char c s'
  end.

(** [s[:-1]] *)
Fixpoint drop_last (s : string) : string :=
  match s with
  | EmptyString => EmptyString
  | String _ EmptyString => EmptyString
  | String a s' => String a (drop_last s')
  end.

(** [s.replace(c, r)] for a one-character [c]. *)
Fixpoint replace_char (c : ascii) (r : string) (s : string) : string :=
  match s with
  | EmptyString => EmptyString
  | String a s' =>
      if Ascii.eqb a c then String.append r (replace_char c r s')
      else String a (replace_char c r s')
  end.

(** The characters of a string, as Python iterates it. *)
Definition chars (s : string) : list json :=
  map (fun c => JStr (String c EmptyString)) (list_ascii_of_string s).

(** ** Truth value, [or], [dict.get] *)

Definition truthy (j : json) : bool :=
  match j with
  | JNull => false
  | JBool b => b
  | JInt z => negb (z =? 0)
  | JFloat f => negb (f =? 0)%float
  | JStr s => negb (s =? "")%string
  | JList l => match l with [] => false | _ => true end
  | JDict d => match d with [] => false | _ => true end
  end.

(** [a or b] *)
Definition por (a b : json) : json := if truthy a then a else b.

(** [x is False], [x is True], [x is None] *)
Definition is_False (j : json) : bool :=
  match j with JBool false => true | _ => false end.
Definition is_True (j : json) : bool :=
  match j with JBool true => true | _ => false end.
Definition is_None (j : json) : bool :=
  match j with JNull => true | _ => false end.

Fixpoint lookup (d : dict) (k : string) : option json :=
  match d with
  | [] => None
  | (k', v) :: d' => if (k' =? k)%string then Some v else lookup d' k
  end.

(** [d.get(k)] and [d.get(k, dflt)] *)
Definition get (d : dict) (k : string) : json :=
  match lookup d k with Some v => v | None => JNull end.
Definition get_or (d : dict) (k : string) (dflt : json) : json :=
  match lookup d k with Some v => v | None => dflt end.

(** [d[k] = v] *)
Fixpoint set (d : dict) (k : string) (v : json) : dict :=
  match d with
  | [] => [(k, v)]
  | (k', v') :: d' =>
      if (k' =? k)%string then (k, v) :: d' else (k', v') :: set d' k v
  end.

(** [{**d, **e}] *)
Definition merge (d e : dict) : dict :=
  fold_left (fun acc kv => set acc (fst kv) (snd kv)) e d.

Lemma lookup_set_same d k v : lookup (set d k v) k = Some v.
Proof.
  induction d as [|[k0 v0] d IH]; simpl.
  - rewrite String.eqb_refl. reflexivity.
  - destruct (String.eqb_spec k0 k) as [->|N]; simpl.
    + rewrite String.eqb_refl. reflexivity.
    + rewrite (proj2 (String.eqb_neq k0 k) N). exact IH.
Qed.

Lemma lookup_set_other d k v k' :
  k <> k' -> lookup (set d k v) k' = lookup d k'.
Proof.
  intros N. induction d as [|[k0 v0] d IH]; simpl.
  - rewrite (proj2 (String.eqb_neq k k') N). reflexivity.
  - destruct (String.eqb_spec k0 k) as [->|N0]; simpl.
    + rewrite (proj2 (String.eqb_neq k k') N). reflexivity.
    + destruct (k0 =? k')%string; [reflexivity|exact IH].
Qed.

(** [x.get]: only a dict has the method (AttributeError otherwise). *)
Definition as_dict (j : json) : res dict :=
  match j with JDict d => Ok d | _ => Raise end.

(** [for x in j]: lists give their items, strings their characters, dicts
    their keys; anything else is not iterable (TypeError). *)
Definition iter (j : json) : res (list json) :=
  match j with
  | JList l => Ok l
  | JStr s => Ok (chars s)
  | JDict d => Ok (map (fun kv => JStr (fst kv)) d)
  | _ => Raise
  end.

(** [len(j)] *)
Definition len (j : json) : res nat :=
  match j with
  | JList l => Ok (List.length l)
  | JStr s => Ok (String.length s)
  | JDict d => Ok (List.length d)
  | _ => Raise
  end.

(** [j[i]] for an index [i >= 0]: IndexError past the end, KeyError on a
    dict (its keys are strings), TypeError otherwise. *)
Definition item (j : json) (i : nat) : res json :=
  match j with
  | JList l => of_option (nth_error l i)
  | JStr s => of_option (nth_error (chars s) i)
  | _ => Raise
  end.

(** ** Numbers *)

(** [float(z)] for an int: the nearest binary64, ties to even;
    OverflowError when that is out of range. *)
Definition float_of_Z (z : Z) : res float :=
  match binary_normalize prec emax z 0 false with
  | S754_infinity _ => Raise
  | sf => Ok (SF2Prim sf)
  end.

(** [int(f)] for a float: truncation toward zero; ValueError on NaN,
    OverflowError on an infinity. *)
Definition Z_of_float (f : float) : res Z :=
  match Prim2SF f with
  | S754_zero _ => Ok 0
  | S754_finite s m e =>
      let a := match e with
               | Zneg p => Z.pos m / 2 ^ Z.pos p
               | _ => Z.pos m * 2 ^ e
               end in
      Ok (if s then - a else a)
  | _ => Raise
  end.

(** [str(z)] for an int. *)
Definition Z_to_string (z : Z) : string :=
  NilZero.string_of_int (Z.to_int z).

(** ** Timestamps *)

(** A [datetime]: the wall-clock reading in microseconds since the epoch
    and, for an aware value, the UTC offset of its [tzinfo] in microseconds. *)
Record datetime : Type := {
  wall : Z;
  tzinfo : option Z;
}.

(** [datetime.now(tz)] at the instant [now] (microseconds, UTC). *)
Definition datetime_now (now : Z) (offset : Z) : datetime :=
  {| wall := now + offset; tzinfo := Some offset |}.

(** [d.replace(tzinfo=timezone.utc)] *)
Definition replace_utc (d : datetime) : datetime :=
  {| wall := wall d; tzinfo := Some 0 |}.

(** [a < b]: aware values compare as instants, naive ones as readings,
    and mixing the two is a TypeError. *)
Definition datetime_lt (a b : datetime) : res bool :=
  match tzinfo a, tzinfo b with
  | Some oa, Some ob => Ok (wall a - oa <? wall b - ob)
  | None, None => Ok (wall a <? wall b)
  | _, _ => Raise
  end.

(** What the embedding takes from the Python runtime without defining it:
    the parsers of number literals, the text of a value that is not a
    string, and the ISO-8601 parser. *)
Class Runtime : Type := {
  float_of_str : string -> option float;
  int_of_str : string -> option Z;
  repr : json -> string;
  fromisoformat : string -> option datetime;
}.

Section WithRuntime.
Context {rt : Runtime}.

(** [float(j)] *)
Definition to_float (j : json) : res float :=
  match j with
  | JFloat f => Ok f
  | JInt z => float_of_Z z
  | JBool b => Ok (if b then 1 else 0)%float
  | JStr s => of_option (float_of_str s)
  | _ => Raise
  end.

(** [int(j)] *)
Definition to_int (j : json) : res Z :=
  match j with
  | JInt z => Ok z
  | JBool b => Ok (if b then 1 else 0)
  | JFloat f => Z_of_float f
  | JStr s => of_option (int_of_str s)
  | _ => Raise
  end.

(** [str(j)] *)
Definition str (j : json) : string :=
  match j with
  | JStr s => s
  | _ => repr j
  end.

End WithRuntime.

(** [isinstance(j, (int, float))]: [bool] is a subclass of [int]. *)
Definition is_number (j : json) : bool :=
  match j with
  | JInt _ | JFloat _ | JBool _ => true
  | _ => false
  end.

(** [j > 0] for a number. *)
Definition gt_zero (j : json) : bool :=
  match j with
  | JInt z => 0 <? z
  | JBool b => b
  | JFloat f => (0 <? f)%float
  | _ => false
  end.

End Py.

Notation "'let?' x ':=' c 'in' k" := (Py.rbind c (fun x => k))
  (at level 10, x name, c at level 100, k at level 200).

(* ===================================================================== *)
(** * Facts about binary64 comparison and rounding *)
(* ===================================================================== *)

Module FloatFacts.

Lemma shr_1_nonneg mrs : 0 <= shr_m mrs -> 0 <= shr_m (shr_1 mrs).
Proof.
  destruct mrs as [m r s]; simpl.
  destruct m as [|p|p]; [simpl; lia| |lia].
  intros _. destruct p; simpl; lia.
Qed.

Lemma iter_shr_1_nonneg p : forall mrs,
  0 <= shr_m mrs -> 0 <= shr_m (SpecFloat.iter_pos shr_1 p mrs).
Proof.
  induction p as [p IH|p IH|]; intros mrs H; simpl.
  - apply IH, IH, shr_1_nonneg, H.
  - apply IH, IH, H.
  - apply shr_1_nonneg, H.
Qed.

Lemma shr_fexp_nonneg pr em m e l :
  0 <= m -> 0 <= shr_m (fst (shr_fexp pr em m e l)).
Proof.
  intros H. unfold shr_fexp, shr.
  assert (H0 : 0 <= shr_m (shr_record_of_loc m l)).
  { destruct l as [|[]]; simpl; exact H. }
  destruct (fexp pr em (Zdigits2 m + e) - e); simpl; auto.
  apply iter_shr_1_nonneg, H0.
Qed.

Lemma round_nearest_even_nonneg m l : 0 <= m -> 0 <= round_nearest_even m l.
Proof.
  intros H. destruct l as [|[]]; simpl; try lia.
  destruct (Z.even m); lia.
Qed.

(** Rounding a non-negative mantissa never produces NaN. *)
Lemma binary_round_aux_not_nan pr em sx m e l :
  0 <= m -> binary_round_aux pr em sx m e l <> S754_nan.
Proof.
  intros H. unfold binary_round_aux.
  pose proof (shr_fexp_nonneg pr em m e l H) as H1.
  destruct (shr_fexp pr em m e l) as [mrs' e']. simpl in H1.
  pose proof (shr_fexp_nonneg pr em _ e' loc_Exact
                (round_nearest_even_nonneg _ (loc_of_shr_record mrs') H1)) as H2.
  destruct (shr_fexp pr em
              (round_nearest_even (shr_m mrs') (loc_of_shr_record mrs'))
              e' loc_Exact) as [mrs'' e'']. simpl in H2.
  destruct (shr_m mrs''); try lia; try discriminate.
  destruct (e'' <=? em - pr); discriminate.
Qed.

Lemma binary_round_not_nan pr em sx m e : binary_round pr em sx m e <> S754_nan.
Proof.
  unfold binary_round. destruct (shl_align m e _) as [mz ez].
  apply binary_round_aux_not_nan. lia.
Qed.

Lemma binary_normalize_not_nan pr em m e sz :
  binary_normalize pr em m e sz <> S754_nan.
Proof.
  destruct m; simpl; try discriminate; apply binary_round_not_nan.
Qed.

Lemma SFcompare_refl x : x <> S754_nan -> SFcompare x x = Some Eq.
Proof.
  destruct x as [[]|[]| |[] m e]; simpl; try congruence;
    rewrite Z.compare_refl, Pos.compare_cont_refl; reflexivity.
Qed.

Lemma is_nan_spec f : is_nan f = false <-> Prim2SF f <> S754_nan.
Proof.
  unfold is_nan. rewrite FloatAxioms.eqb_spec. unfold SFeqb. split.
  - intros H E. rewrite E in H. discriminate.
  - intros H. rewrite SFcompare_refl by exact H. reflexivity.
Qed.

Lemma leb_true_not_nan x y :
  (x <=? y)%float = true -> is_nan x = false /\ is_nan y = false.
Proof.
  rewrite FloatAxioms.leb_spec, !is_nan_spec. unfold SFleb.
  destruct (Prim2SF x), (Prim2SF y); simpl; try discriminate;
    split; discriminate.
Qed.

Lemma ltb_true_not_nan x y :
  (x <? y)%float = true -> is_nan x = false /\ is_nan y = false.
Proof.
  rewrite FloatAxioms.ltb_spec, !is_nan_spec. unfold SFltb.
  destruct (Prim2SF x), (Prim2SF y); simpl; try discriminate;
    split; discriminate.
Qed.

(** [not (p <= 0)] gives [0 < p] for a number. *)
Lemma not_leb_zero_pos p :
  is_nan p = false -> (p <=? 0)%float = false -> (0 <? p)%float = true.
Proof.
  rewrite is_nan_spec, FloatAxioms.leb_spec, FloatAxioms.ltb_spec.
  unfold SFleb, SFltb.
  change (Prim2SF 0) with (S754_zero false).
  destruct (Prim2SF p) as [[]|[]| |[] m e]; simpl; congruence.
Qed.

(** [not (p > m)] gives [p <= m] for numbers. *)
Lemma not_gtb_leb p m :
  is_nan p = false -> is_nan m = false ->
  (m <? p)%float = false -> (p <=? m)%float = true.
Proof.
  rewrite !is_nan_spec, FloatAxioms.leb_spec, FloatAxioms.ltb_spec.
  unfold SFleb, SFltb.
  destruct (Prim2SF p) as [[]|[]| |[] mp ep],
           (Prim2SF m) as [[]|[]| |[] mm em]; simpl; try congruence.
  - rewrite (Z.compare_antisym ep em).
    pose proof (Pos.compare_cont_antisym mp mm Eq) as E; simpl in E;
      rewrite <- E.
    destruct (ep ?= em); simpl; try congruence.
    destruct (Pos.compare_cont Eq mp mm); simpl; congruence.
  - rewrite (Z.compare_antisym ep em).
    pose proof (Pos.compare_cont_antisym mp mm Eq) as E; simpl in E;
      rewrite <- E.
    destruct (ep ?= em); simpl; try congruence.
    destruct (Pos.compare_cont Eq mp mm); simpl; congruence.
Qed.

(** [p <= m] excludes [p > m]. *)
Lemma leb_true_ltb_false p m :
  (p <=? m)%float = true -> (m <? p)%float = false.
Proof.
  rewrite FloatAxioms.leb_spec, FloatAxioms.ltb_spec.
  unfold SFleb, SFltb.
  destruct (Prim2SF p) as [[]|[]| |[] mp ep],
           (Prim2SF m) as [[]|[]| |[] mm em]; simpl; try congruence.
  - rewrite (Z.compare_antisym ep em).
    pose proof (Pos.compare_cont_antisym mp mm Eq) as E; simpl in E;
      rewrite <- E.
    destruct (ep ?= em); simpl; try congruence.
    destruct (Pos.compare_cont Eq mp mm); simpl; congruence.
  - rewrite (Z.compare_antisym ep em).
    pose proof (Pos.compare_cont_antisym mp mm Eq) as E; simpl in E;
      rewrite <- E.
    destruct (ep ?= em); simpl; try congruence.
    destruct (Pos.compare_cont Eq mp mm); simpl; congruence.
Qed.

(** [1 - y] is a number when [y] is. *)
Lemma one_sub_not_nan y : is_nan y = false -> is_nan (1 - y)%float = false.
Proof.
  rewrite !is_nan_spec, sub_spec.
  change (Prim2SF 1) with (S754_finite false 4503599627370496 (-52)).
  unfold SF64sub, SFsub.
  destruct (Prim2SF y) as [[]|[]| |[] m e]; try congruence; intros _;
    apply binary_normalize_not_nan.
Qed.

Lemma SFopp_not_nan x : x <> S754_nan -> SFopp x <> S754_nan.
Proof. destruct x; simpl; congruence. Qed.

Lemma SFldexp_not_nan x e :
  x <> S754_nan -> SFldexp prec emax x e <> S754_nan.
Proof.
  destruct x; simpl; try congruence. intros _. apply binary_round_not_nan.
Qed.

Lemma SF2Prim_not_nan sf : sf <> S754_nan -> is_nan (SF2Prim sf) = false.
Proof.
  intros H. apply is_nan_spec.
  destruct sf as [[]|[]| |s m e]; try congruence;
    try (vm_compute; discriminate).
  unfold SF2Prim.
  assert (N : Prim2SF (Z.ldexp (of_uint63 (Uint63Axioms.of_Z (Z.pos m))) e)
              <> S754_nan).
  { rewrite Z_ldexp_spec. apply SFldexp_not_nan.
    rewrite of_uint63_spec. apply binary_normalize_not_nan. }
  destruct s; [rewrite opp_spec; apply SFopp_not_nan|]; exact N.
Qed.

(** [float(z)] of an int is never NaN. *)
Lemma float_of_Z_not_nan z f : Py.float_of_Z z = Py.Ok f -> is_nan f = false.
Proof.
  unfold Py.float_of_Z.
  pose proof (binary_normalize_not_nan prec emax z 0 false) as N.
  destruct (binary_normalize prec emax z 0 false) as [s|s| |s m e];
    try discriminate; try congruence; intros [= <-].
  - apply (SF2Prim_not_nan (S754_zero s)). discriminate.
  - apply (SF2Prim_not_nan (S754_finite s m e)). discriminate.
Qed.

End FloatFacts.

(* ===================================================================== *)
(** * Calls to the outside world *)
(* ===================================================================== *)

Module Net.
Import Py.

(** The HTTP requests of polymarket_service.py. *)
Inductive request : Type :=
| PublicSearch (query : string) (page limit_per_type timeout : Z)
    (* GET {gamma}/public-search *)
| ClobMarkets
    (* GET {host}/markets?limit=1000 *)
| EventBySlug (slug : json)
    (* GET {gamma}/events/slug/{slug} *)
| MarketBySlug (slug : json)
    (* GET {gamma}/markets/slug/{slug} *)
| MarketsByCondition (cond : json).
    (* GET {gamma}/markets?condition_id={cond}&closed=False&limit=5 *)

(** An exception as [place_buy_orders] inspects it: the [error_message]
    attribute when the object has one, its [args], and [str(e)].  An
    attribute value is seen through its truth value and its text. *)
Record pyobj : Type := { obj_truthy : bool; obj_str : string }.
Record exn : Type := {
  exn_error_message : option pyobj;
  exn_args : list pyobj;
  exn_str : string;
}.

(** Every call that leaves the process. *)
Inductive call : Type :=
| Http (r : request)
| GetMarket (condition_id : json)
| PostOrder (token_id : json) (price : float) (size : Z)
| Clock.

(** The log of calls, the latest first. *)
Definition log : Type := list call.

(** The outside world: the answer to a call may depend on all the calls
    made before it.  [None] is any failure of the call (timeout, HTTP
    status raised by [raise_for_status], a body that is not JSON).  The
    clock gives the instant of a [datetime.now], in microseconds, UTC. *)
Record Env : Type := {
  http_answer : log -> request -> option json;
  get_market_answer : log -> json -> option json;
  post_order_answer : log -> json -> float -> Z -> json + exn;
  clock_answer : log -> Z;
}.

(** A computation that logs calls and may raise. *)
Definition M (A : Type) : Type := log -> res A * log.

Definition ret {A} (a : A) : M A := fun l => (Ok a, l).

Definition bind {A B} (c : M A) (k : A -> M B) : M B :=
  fun l => match c l with
           | (Ok a, l') => k a l'
           | (Raise, l') => (Raise, l')
           end.

(** [try: c  except Exception: h] *)
Definition catch {A} (c : M A) (h : M A) : M A :=
  fun l => match c l with
           | (Ok a, l') => (Ok a, l')
           | (Raise, l') => h l'
           end.

Definition lift {A} (r : res A) : M A := fun l => (r, l).

Section WithEnv.
Variable env : Env.

(** [client.get(url).json()] with any failure raised. *)
Definition http_get (r : request) : M json :=
  fun l => (of_option (http_answer env l r), Http r :: l).

(** [client.get_market(condition_id=c)] *)
Definition get_market (c : json) : M json :=
  fun l => (of_option (get_market_answer env l c), GetMarket c :: l).

(** [place_limit_order(token_id, 'BUY', price, size)]: the response, or the
    exception the call raised. *)
Definition post_order (token_id : json) (price : float) (size : Z)
  : log -> (json + exn) * log :=
  fun l => (post_order_answer env l token_id price size,
            PostOrder token_id price size :: l).

(** [datetime.now(...)] *)
Definition read_clock : M Z :=
  fun l => (Ok (clock_answer env l), Clock :: l).

End WithEnv.

Definition is_clob_fetch (c : call) : bool :=
  match c with Http ClobMarkets => true | _ => false end.

(** How many calls of a kind a log holds. *)
Definition count (kind : call -> bool) (l : log) : nat :=
  List.length (List.filter kind l).

(** ** Reasoning about computations *)

(** [post P c]: a value that [c] returns satisfies [P]. *)
Definition post {A} (P : A -> Prop) (c : M A) : Prop :=
  forall l, match fst (c l) with Ok a => P a | Raise => True end.

(** [total P c]: [c] returns, and its value satisfies [P]. *)
Definition total {A} (P : A -> Prop) (c : M A) : Prop :=
  forall l, match fst (c l) with Ok a => P a | Raise => False end.

(** [emits kind n c]: running [c] adds exactly [n] calls of [kind]. *)
Definition emits {A} (kind : call -> bool) (n : nat) (c : M A) : Prop :=
  forall l, count kind (snd (c l)) = (count kind l + n)%nat.

Lemma post_true {A} (c : M A) : post (fun _ => True) c.
Proof. intros l. destruct (fst (c l)); exact I. Qed.

Lemma post_ret {A} (P : A -> Prop) a : P a -> post P (ret a).
Proof. intros H l. exact H. Qed.

Lemma total_ret {A} (P : A -> Prop) a : P a -> total P (ret a).
Proof. intros H l. exact H. Qed.

Lemma post_lift {A} (P : A -> Prop) (r : res A) :
  (forall a, r = Ok a -> P a) -> post P (lift r).
Proof. intros H l. simpl. destruct r; auto. Qed.

Lemma post_bind {A B} (Q : A -> Prop) (P : B -> Prop) c k :
  post Q c -> (forall a, Q a -> post P (k a)) -> post P (bind c k).
Proof.
  intros Hc Hk l. unfold bind. specialize (Hc l).
  destruct (c l) as [[a|] l1]; simpl in *; [|trivial].
  apply (Hk a Hc l1).
Qed.

Lemma total_bind {A B} (Q : A -> Prop) (P : B -> Prop) c k :
  total Q c -> (forall a, Q a -> total P (k a)) -> total P (bind c k).
Proof.
  intros Hc Hk l. unfold bind. specialize (Hc l).
  destruct (c l) as [[a|] l1]; simpl in *; [|trivial].
  apply (Hk a Hc l1).
Qed.

Lemma total_catch {A} (P : A -> Prop) c h :
  post P c -> total P h -> total P (catch c h).
Proof.
  intros Hc Hh l. unfold catch. specialize (Hc l).
  destruct (c l) as [[a|] l1]; simpl in *; [exact Hc|].
  apply (Hh l1).
Qed.

Lemma emits_ret {A} kind (a : A) : emits kind 0 (ret a).
Proof. intros l. simpl. lia. Qed.

Lemma emits_lift {A} kind (r : res A) : emits kind 0 (lift r).
Proof. intros l. simpl. lia. Qed.

Lemma emits_bind {A B} kind n m (c : M A) (k : A -> M B) :
  emits kind n c -> (forall a, emits kind m (k a)) ->
  m = 0%nat \/ total (fun _ => True) c ->
  emits kind (n + m) (bind c k).
Proof.
  intros Hc Hk Hm l. unfold bind. specialize (Hc l).
  destruct (c l) as [[a|] l1] eqn:E; simpl in *.
  - rewrite (Hk a l1), Hc. lia.
  - destruct Hm as [->|T]; [lia|].
    specialize (T l). rewrite E in T. destruct T.
Qed.

Lemma emits_catch {A} kind n (c h : M A) :
  emits kind n c -> emits kind 0 h -> emits kind n (catch c h).
Proof.
  intros Hc Hh l. unfold catch. specialize (Hc l).
  destruct (c l) as [[a|] l1]; simpl in *; [exact Hc|].
  rewrite (Hh l1), Hc. lia.
Qed.

Lemma quiet_bind {A B} kind (c : M A) (k : A -> M B) :
  emits kind 0 c -> (forall a, emits kind 0 (k a)) -> emits kind 0 (bind c k).
Proof.
  intros Hc Hk. apply (emits_bind kind 0 0 c k Hc Hk). left. reflexivity.
Qed.

Lemma emits_http_get env kind r :
  emits kind (if kind (Http r) then 1 else 0) (http_get env r).
Proof.
  intros l. unfold http_get, count. simpl.
  destruct (kind (Http r)); simpl; lia.
Qed.

Lemma emits_read_clock env kind :
  emits kind (if kind Clock then 1 else 0) (read_clock env).
Proof.
  intros l. unfold read_clock, count. simpl.
  destruct (kind Clock); simpl; lia.
Qed.

(** [adds_at_most kind n c]: running [c] adds at most [n] calls of [kind],
    whether it returns or raises. *)
Definition adds_at_most {A} (kind : call -> bool) (n : nat) (c : M A) : Prop :=
  forall l, (count kind (snd (c l)) <= count kind l + n)%nat.

Lemma adds_ret {A} kind (a : A) : adds_at_most kind 0 (ret a).
Proof. intros l. simpl. lia. Qed.

Lemma adds_lift {A} kind (r : res A) : adds_at_most kind 0 (lift r).
Proof. intros l. simpl. lia. Qed.

Lemma adds_weaken {A} kind n m (c : M A) :
  (n <= m)%nat -> adds_at_most kind n c -> adds_at_most kind m c.
Proof. intros H Hc l. specialize (Hc l). lia. Qed.

Lemma adds_bind {A B} kind n m (c : M A) (k : A -> M B) :
  adds_at_most kind n c -> (forall a, adds_at_most kind m (k a)) ->
  adds_at_most kind (n + m) (bind c k).
Proof.
  intros Hc Hk l. unfold bind. specialize (Hc l).
  destruct (c l) as [[a|] l1]; simpl in *; [|lia].
  specialize (Hk a l1). lia.
Qed.

Lemma adds_catch {A} kind n m (c h : M A) :
  adds_at_most kind n c -> adds_at_most kind m h ->
  adds_at_most kind (n + m) (catch c h).
Proof.
  intros Hc Hh l. unfold catch. specialize (Hc l).
  destruct (c l) as [[a|] l1]; simpl in *; [lia|].
  specialize (Hh l1). lia.
Qed.

Lemma adds_http_get env kind r : adds_at_most kind 1 (http_get env r).
Proof.
  intros l. unfold http_get, count. simpl. destruct (kind (Http r)); simpl; lia.
Qed.

Lemma adds_get_market env kind c : adds_at_most kind 1 (get_market env c).
Proof.
  intros l. unfold get_market, count. simpl.
  destruct (kind (GetMarket c)); simpl; lia.
Qed.

Lemma adds_none_bind {A B} kind (c : M A) (k : A -> M B) :
  adds_at_most kind 0 c -> (forall a, adds_at_most kind 0 (k a)) ->
  adds_at_most kind 0 (bind c k).
Proof. intros Hc Hk. apply (adds_bind kind 0 0 c k Hc Hk). Qed.

Lemma adds_none_catch {A} kind (c h : M A) :
  adds_at_most kind 0 c -> adds_at_most kind 0 h ->
  adds_at_most kind 0 (catch c h).
Proof. intros Hc Hh. apply (adds_catch kind 0 0 c h Hc Hh). Qed.

Lemma adds_none_http_get env kind r :
  kind (Http r) = false -> adds_at_most kind 0 (http_get env r).
Proof. intros H l. unfold http_get, count. simpl. rewrite H. lia. Qed.

Lemma adds_none_get_market env kind c :
  kind (GetMarket c) = false -> adds_at_most kind 0 (get_market env c).
Proof. intros H l. unfold get_market, count. simpl. rewrite H. lia. Qed.

Lemma count_app kind (l1 l2 : log) :
  count kind (l1 ++ l2)%list = (count kind l1 + count kind l2)%nat.
Proof. unfold count. rewrite List.filter_app, length_app. reflexivity. Qed.

(** [logs P c]: [c] only extends the log, and every call it adds
    satisfies [P], whether it returns or raises. *)
Definition logs {A} (P : call -> Prop) (c : M A) : Prop :=
  forall l, exists added, snd (c l) = (added ++ l)%list /\ Forall P added.

Lemma logs_ret {A} P (a : A) : logs P (ret a).
Proof. intros l. exists []. split; [reflexivity|constructor]. Qed.

Lemma logs_lift {A} P (r : res A) : logs P (lift r).
Proof. intros l. exists []. split; [reflexivity|constructor]. Qed.

Lemma logs_bind {A B} P (c : M A) (k : A -> M B) :
  logs P c -> (forall a, logs P (k a)) -> logs P (bind c k).
Proof.
  intros Hc Hk l. unfold bind. destruct (Hc l) as (a1 & E1 & F1).
  destruct (c l) as [[a|] l1]; simpl in E1; subst l1.
  - destruct (Hk a (a1 ++ l)%list) as (a2 & E2 & F2).
    exists (a2 ++ a1)%list. rewrite E2, List.app_assoc.
    split; [reflexivity|]. apply Forall_app. split; assumption.
  - exists a1. split; [reflexivity|exact F1].
Qed.

Lemma logs_catch {A} P (c h : M A) :
  logs P c -> logs P h -> logs P (catch c h).
Proof.
  intros Hc Hh l. unfold catch. destruct (Hc l) as (a1 & E1 & F1).
  destruct (c l) as [[a|] l1]; simpl in E1; subst l1.
  - exists a1. split; [reflexivity|exact F1].
  - destruct (Hh (a1 ++ l)%list) as (a2 & E2 & F2).
    exists (a2 ++ a1)%list. rewrite E2, List.app_assoc.
    split; [reflexivity|]. apply Forall_app. split; assumption.
Qed.

Lemma logs_http_get env (P : call -> Prop) r :
  P (Http r) -> logs P (http_get env r).
Proof.
  intros Hr l. exists [Http r]. split; [reflexivity|].
  constructor; [exact Hr|constructor].
Qed.

Lemma logs_get_market env (P : call -> Prop) c :
  P (GetMarket c) -> logs P (get_market env c).
Proof.
  intros Hr l. exists [GetMarket c]. split; [reflexivity|].
  constructor; [exact Hr|constructor].
Qed.

Definition is_http_call (c : call) : bool :=
  match c with Http _ => true | _ => false end.

Definition is_post_order (c : call) : bool :=
  match c with PostOrder _ _ _ => true | _ => false end.

End Net.

Notation "'let!' x ':=' c 'in' k" := (Net.bind c (fun x => k))
  (at level 10, x name, c at level 100, k at level 200).

(* ===================================================================== *)
(** * src/services/polymarket_service.py: market discovery *)
(* ===================================================================== *)

Module Markets.
Import Py Net.

Section Discovery.
Context {rt : Runtime}.
Variable env : Env.
(** [(cfg.gamma_endpoint or "").rstrip("/")] *)
Variable gamma_base : string.

(** ** _is_active_market *)

(** The text handed to [fromisoformat]: a trailing [Z] becomes [+00:00];
    otherwise [+00:00] is appended when the text has a [-] and no [+]. *)
Definition normalise_end (end_str : string) : string :=
  if ends_with_char "Z" end_str then String.append (drop_last end_str) "+00:00"
  else if negb (contains_char "+" end_str) && contains_char "-" end_str
       then String.append end_str "+00:00"
       else end_str.

(** The two parsing attempts; [None] when both raise.  The second attempt
    reads [end_str] as the first one left it. *)
Definition parse_end (end_raw : json) : option datetime :=
  let end_str := normalise_end (strip (str end_raw)) in
  match fromisoformat end_str with
  | Some d => Some d
  | None => fromisoformat (replace_char "Z" "+00:00" end_str)
  end.

(** [end < now] as the function computes it: [now] is taken in the zone
    of [end], or in UTC for a naive [end]; if exactly one of the two is
    naive it is then read as UTC. *)
Definition expired (now : Z) (end_ : datetime) : res bool :=
  let now_dt := match tzinfo end_ with
                | Some offset => datetime_now now offset
                | None => datetime_now now 0
                end in
  let '(end1, now1) :=
    match tzinfo end_, tzinfo now_dt with
    | Some _, None => (end_, replace_utc now_dt)
    | None, Some _ => (replace_utc end_, now_dt)
    | _, _ => (end_, now_dt)
    end in
  datetime_lt end1 now1.

Definition _is_active_market (now : Z) (m : dict) : bool :=
  if negb (truthy (JDict m)) then false
  else if is_False (get m "active") then false
  else if is_True (get m "closed") then false
  else if is_True (get m "archived") then false
  else if is_False (get m "acceptingOrders") then false
  else
    let end_raw := por (get m "endDate") (get m "endDateIso") in
    if truthy end_raw then
      match parse_end end_raw with
      | None => true
      | Some end_ =>
          match expired now end_ with
          | Ok true => false
          | _ => true
          end
      end
    else true.

(** ** _derive_no_bid *)

(** [str(o or "").strip().lower()] *)
Definition outcome_label (o : json) : string :=
  lower (strip (str (por o (JStr "")))).

(** [float(m.get(k)) if m.get(k) is not None else None] *)
Definition optional_float (m : dict) (k : string) : res (option float) :=
  if is_None (get m k) then Ok None
  else let? f := to_float (get m k) in Ok (Some f).

(** [next((i for i, o in enumerate(outcomes) if ... == "no"), None)] *)
Fixpoint first_no_index (outcomes : list json) (i : nat) : option nat :=
  match outcomes with
  | [] => None
  | o :: rest =>
      if (outcome_label o =? "no")%string then Some i
      else first_no_index rest (S i)
  end.

(** The body of the [try]; the inner option is [Some p] for [return p] and
    [None] for reaching the final [return None]. *)
Definition derive_no_bid_body (m : dict) : res (option float) :=
  let outcomes := por (get m "outcomes") (JList []) in
  let? best_bid := optional_float m "bestBid" in
  let? best_ask := optional_float m "bestAsk" in
  let? direct :=
    match best_bid, best_ask with
    | Some bid, Some ask =>
        if truthy outcomes then
          let? o0 := item outcomes 0 in
          let first := outcome_label o0 in
          if (first =? "yes")%string then Ok (Some (1 - ask)%float)
          else if (first =? "no")%string then Ok (Some bid)
          else Ok None
        else Ok None
    | _, _ => Ok None
    end in
  match direct with
  | Some p => Ok (Some p)
  | None =>
      let prices := por (get m "outcomePrices") (JList []) in
      let? os := iter outcomes in
      match first_no_index os 0 with
      | Some idx =>
          let? n := len prices in
          if (idx <? n)%nat then
            let? x := item prices idx in
            let? p := to_float x in
            Ok (if (0 <=? p)%float then Some p else None)
          else Ok None
      | None => Ok None
      end
  end.

Definition _derive_no_bid (m : dict) : option float :=
  match derive_no_bid_body m with
  | Ok r => r
  | Raise => None
  end.

(** ** analyze_market_no *)

Definition analyze_market_no (now : Z) (m : dict) (max_price : float)
  : option dict :=
  if negb (_is_active_market now m) then None
  else
    match _derive_no_bid m with
    | None => None
    | Some no_price =>
        if (no_price <=? 0)%float then None
        else if (no_price <=? max_price)%float then
          let market_id :=
            por (get m "id") (por (get m "market_id")
              (por (get m "condition_id") (por (get m "conditionId")
                (get m "slug")))) in
          Some [ ("marketId", market_id);
                 ("question", get m "question");
                 ("noPrice", JFloat no_price);
                 ("volume24h",
                  por (get m "volume") (por (get m "volume_24h")
                    (por (get m "volumeNum") (JInt 0))));
                 ("url",
                  if truthy (get m "slug")
                  then JStr (String.append "https://polymarket.com/event/"
                                           (str (get m "slug")))
                  else JNull);
                 ("eventSlug", get m "eventSlug") ]
        else None
    end.

(** ** fetch_markets *)

Definition fetch_markets : M json :=
  let! data := http_get env ClobMarkets in
  ret match data with
      | JDict d =>
          match lookup d "markets" with
          | Some v => v
          | None => JList []
          end
      | JList _ => data
      | _ => JList []
      end.

(** ** fetch_public_search_page *)

(** [for mk in ...: mk["eventSlug"] = ev.get("slug"); markets.append(mk)] *)
Fixpoint tag_markets (ev_slug : json) (mks : list json) : res (list dict) :=
  match mks with
  | [] => Ok []
  | mk :: rest =>
      let? d := as_dict mk in
      let? tagged := tag_markets ev_slug rest in
      Ok (set d "eventSlug" ev_slug :: tagged)
  end.

Fixpoint collect_markets (events : list json) : res (list dict) :=
  match events with
  | [] => Ok []
  | ev :: rest =>
      let? e := as_dict ev in
      let? mks := iter (por (get e "markets") (JList [])) in
      let? here := tag_markets (get e "slug") mks in
      let? there := collect_markets rest in
      Ok (here ++ there)%list
  end.

(** What one attempt makes of a response body. *)
Definition parse_search_page (data : json) : res (list dict * bool) :=
  let? d := as_dict data in
  let? events := iter (por (get d "events") (JList [])) in
  let? markets := collect_markets events in
  let? pagination := as_dict (por (get d "pagination") (JDict [])) in
  Ok (markets, truthy (get pagination "hasMore")).

(** [for timeout in attempts: try: ... return ... except: continue], then
    the empty page. *)
Fixpoint search_attempts (query : string) (page limit_per_type : Z)
    (attempts : list Z) : M (list dict * bool) :=
  match attempts with
  | [] => ret ([], false)
  | timeout :: later =>
      catch
        (let! data :=
           http_get env (PublicSearch query page limit_per_type timeout) in
         lift (parse_search_page data))
        (search_attempts query page limit_per_type later)
  end.

Definition fetch_public_search_page (query : string) (page limit_per_type : Z)
  : M (list dict * bool) :=
  search_attempts query page limit_per_type [10; 20; 30].

(** ** fetch_all_markets_public_search *)

(** [while has_more and page <= max_pages], entered with [has_more] true;
    [remaining] is [max_pages - page + 1], so [page <= max_pages] reads
    [remaining > 0]. *)
Fixpoint fetch_pages (query : string) (page_limit : Z) (remaining : nat)
    (page : Z) : M (list dict) :=
  match remaining with
  | O => ret []
  | S n =>
      let! r := fetch_public_search_page query page page_limit in
      if snd r then
        let! more := fetch_pages query page_limit n (page + 1) in
        ret (fst r ++ more)%list
      else ret (fst r)
  end.

Definition fetch_all_markets_public_search : M (list dict) :=
  fetch_pages "*" 100 50%nat 1.

(** ** resolve_no_token_id *)

(** The [get_id] lambda. *)
Definition get_id (t : json) : json :=
  match t with
  | JDict d =>
      por (get d "token_id") (por (get d "asset_id")
        (por (get d "tokenId") (get d "id")))
  | _ => JNull
  end.

(** [for t in tokens: if str(t.get("outcome")).upper() == "NO": ...] *)
Fixpoint scan_tokens (tokens : list json) : res (option string) :=
  match tokens with
  | [] => Ok None
  | t :: rest =>
      let? d := as_dict t in
      if (upper (str (get d "outcome")) =? "NO")%string then
        let tid := get_id t in
        if truthy tid then Ok (Some (str tid)) else scan_tokens rest
      else scan_tokens rest
  end.

(** [for mk in arr: for t in mk.get("tokens") or []: ...] *)
Fixpoint scan_markets (arr : list json) : res (option string) :=
  match arr with
  | [] => Ok None
  | mk :: rest =>
      let? d := as_dict mk in
      let? tokens := iter (por (get d "tokens") (JList [])) in
      let? found := scan_tokens tokens in
      match found with
      | Some tid => Ok (Some tid)
      | None => scan_markets rest
      end
  end.

(** [data if isinstance(data, list) else [data] if data else []] *)
Definition as_array (data : json) : list json :=
  match data with
  | JList l => l
  | _ => if truthy data then [data] else []
  end.

(** One strategy: a request and what is made of its body; any exception
    is swallowed. *)
Definition by_event_slug (ev_slug : json) : M (option string) :=
  catch
    (let! data := http_get env (EventBySlug ev_slug) in
     lift (let? d := as_dict data in
           let? mks := iter (por (get d "markets") (JList [])) in
           scan_markets mks))
    (ret None).

Definition by_market_slug (slug : json) : M (option string) :=
  catch
    (let! data := http_get env (MarketBySlug slug) in
     lift (scan_markets (as_array data)))
    (ret None).

Definition by_condition (cond : json) : M (option string) :=
  catch
    (let! data := http_get env (MarketsByCondition cond) in
     lift (scan_markets (as_array data)))
    (ret None).

Definition resolve_no_token_id (market : dict) : M (option string) :=
  if (gamma_base =? "")%string then ret None
  else
    let ev_slug := por (get market "eventSlug") (get market "event_slug") in
    let! r1 := if truthy ev_slug then by_event_slug ev_slug else ret None in
    match r1 with
    | Some tid => ret (Some tid)
    | None =>
        let slug := get market "slug" in
        let! r2 := if truthy slug then by_market_slug slug else ret None in
        match r2 with
        | Some tid => ret (Some tid)
        | None =>
            let cond :=
              por (get market "condition_id") (get market "conditionId") in
            if truthy cond then by_condition cond else ret None
        end
    end.

(** ** find_eligible_markets *)

(** [analyze_market_no] at the instant the clock gives. *)
Definition analyze (m : dict) (max_price : float) : M (option dict) :=
  let! now := read_clock env in
  ret (analyze_market_no now m max_price).

(** The [try] block after a market passed the analysis. *)
Definition attach_token (m opp : dict) : M dict :=
  catch
    (let! tid := resolve_no_token_id m in
     let opp1 := match tid with
                 | Some t => if truthy (JStr t)
                             then set opp "noTokenId" (JStr t) else opp
                 | None => opp
                 end in
     ret (if truthy (get m "slug") then set opp1 "slug" (get m "slug")
          else opp1))
    (ret opp).

(** The loop over the markets of the primary catalog. *)
Fixpoint gamma_loop (max_price : float) (markets : list dict) : M (list dict) :=
  match markets with
  | [] => ret []
  | m :: rest =>
      let! found := analyze m max_price in
      match found with
      | None => gamma_loop max_price rest
      | Some opp =>
          if negb (truthy (JDict opp)) then gamma_loop max_price rest
          else
            let! opp' := attach_token m opp in
            let! more := gamma_loop max_price rest in
            ret (opp' :: more)
      end
  end.

(** The primary path: what [eligible] holds when the fallback is reached or
    skipped. *)
Definition gamma_path (max_price : float) : M (list dict) :=
  let! markets := fetch_all_markets_public_search in
  match markets with
  | [] => ret []
  | _ => gamma_loop max_price markets
  end.

(** [next((t for t in items if str(t.get(key, '')).lower() == 'no'), None)] *)
Fixpoint find_no (key : string) (items : list json) : res (option dict) :=
  match items with
  | [] => Ok None
  | t :: rest =>
      let? d := as_dict t in
      if (lower (str (get_or d key (JStr ""))) =? "no")%string then Ok (Some d)
      else find_no key rest
  end.

(** [for key in (...): v = no_token.get(key); if isinstance(v, (int,
    float)) and v > 0: price = float(v); break] *)
Fixpoint first_positive_price (t : dict) (keys : list string)
  : res (option float) :=
  match keys with
  | [] => Ok None
  | key :: later =>
      let v := get t key in
      if is_number v && gt_zero v then
        let? f := to_float v in Ok (Some f)
      else first_positive_price t later
  end.

Definition price_keys : list string :=
  ["price"; "lastPrice"; "last_price"; "bestOffer"; "best_offer"; "bestBid"].

(** [try: x = float(d.get(k) or 0)  except Exception: x = 0.0] *)
Definition float_or_zero (d : dict) (k : string) : float :=
  match to_float (por (get d k) (JInt 0)) with
  | Ok f => f
  | Raise => 0%float
  end.

(** [(o or {})] for an optional dict. *)
Definition or_empty (o : option dict) : dict :=
  match o with
  | Some d => if truthy (JDict d) then d else []
  | None => []
  end.

(** The price approximated from the first outcome: [1 - bestAsk] of YES
    when that ask is positive; any exception leaves the price unset. *)
Definition price_from_yes (outcomes : json) : option float :=
  match
    (let? o0 := item outcomes 0 in
     let? d0 := as_dict (por o0 (JDict [])) in
     let? yes_best_ask := to_float (por (get d0 "bestAsk") (JInt 0)) in
     Ok (if (0 <? yes_best_ask)%float then Some (1 - yes_best_ask)%float
         else None))
  with
  | Ok r => r
  | Raise => None
  end.

(** Case 1 of the fallback: the record carries a token array.  [None] is
    [continue]. *)
Definition clob_from_tokens (tokens : json)
  : res (option (option float * json)) :=
  let? ts := iter tokens in
  let? no_token := find_no "outcome" ts in
  match no_token with
  | None => Ok None
  | Some t =>
      if negb (truthy (JDict t)) then Ok None
      else
        let? price := first_positive_price t price_keys in
        Ok (Some (price, por (get t "token_id") (get t "tokenId")))
  end.

(** Case 2 of the fallback: the record carries outcome objects. *)
Definition clob_from_outcomes (m : dict) (outcomes : json)
  : M (option float * json) :=
  let! os := lift (iter outcomes) in
  let! no_outcome := lift (find_no "name" os) in
  let! o0 := lift (item outcomes 0) in
  let! d0 := lift (as_dict o0) in
  let yes_is_first :=
    (lower (str (get_or d0 "name" (JStr ""))) =? "yes")%string in
  let best_bid := float_or_zero (or_empty no_outcome) "bestBid" in
  let price :=
    if (0 <? best_bid)%float then Some best_bid
    else if yes_is_first then price_from_yes outcomes
    else None in
  let! token_id :=
    catch
      (let! resolved := resolve_no_token_id m in
       ret match resolved with
           | Some t => if truthy (JStr t) then JStr t else JNull
           | None => JNull
           end)
      (ret JNull) in
  ret (price, token_id).

(** One round of the fallback loop; [None] is [continue]. *)
Definition clob_market (max_price : float) (m : json) : M (option dict) :=
  let! d := lift (as_dict m) in
  if is_True (get d "closed") || is_True (get d "archived") then ret None
  else
    let market_id :=
      por (get d "condition_id") (por (get d "conditionId") (get d "id")) in
    let question :=
      por (get d "question") (por (get d "title") (JStr "Unknown")) in
    let tokens := por (get d "tokens") (JList []) in
    let outcomes := por (get d "outcomes") (JList []) in
    let! found :=
      if truthy tokens then lift (clob_from_tokens tokens)
      else if truthy outcomes then
        let! r := clob_from_outcomes d outcomes in ret (Some r)
      else ret (Some (None, JNull)) in
    match found with
    | None => ret None
    | Some (None, _) => ret None
    | Some (Some price, token_id) =>
        if (price <=? 0)%float || (max_price <? price)%float then ret None
        else
          ret (Some [ ("marketId", market_id);
                      ("question", question);
                      ("noPrice", JFloat price);
                      ("noTokenId", token_id);
                      ("volume24h", por (get d "volume") (JInt 0));
                      ("url", JNull) ])
    end.

Fixpoint clob_loop (max_price : float) (markets : list json) : M (list dict) :=
  match markets with
  | [] => ret []
  | m :: rest =>
      let! found := clob_market max_price m in
      let! more := clob_loop max_price rest in
      ret match found with
          | Some opp => opp :: more
          | None => more
          end
  end.

(** The fallback: [try: ... return eligible  except Exception: return []]. *)
Definition clob_path (max_price : float) : M (list dict) :=
  catch
    (let! clob_markets := fetch_markets in
     let! _n := lift (len clob_markets) in
     let! ms := lift (iter clob_markets) in
     clob_loop max_price ms)
    (ret []).

Definition find_eligible_markets (max_price : float) : M (list dict) :=
  let! eligible := gamma_path max_price in
  match eligible with
  | [] => clob_path max_price
  | _ => ret eligible
  end.

(** ** The price of every opportunity lies in (0, max_price] *)

(** The opportunity record carries a [noPrice] that is a float [p] with
    [0 < p <= max_price]. *)
Definition priced_within (max_price : float) (o : dict) : Prop :=
  exists p, lookup o "noPrice" = Some (JFloat p)
            /\ (0 <? p)%float = true /\ (p <=? max_price)%float = true.

(** The same with the upper bound as the fallback tests it: [p] is
    positive and [p > max_price] does not hold. *)
Definition admitted (max_price : float) (o : dict) : Prop :=
  exists p, lookup o "noPrice" = Some (JFloat p)
            /\ (0 <? p)%float = true /\ (max_price <? p)%float = false.

Lemma priced_within_admitted max_price o :
  priced_within max_price o -> admitted max_price o.
Proof.
  intros (p & L & P & B). exists p. split; [exact L|]. split; [exact P|].
  apply FloatFacts.leb_true_ltb_false, B.
Qed.

Lemma admitted_priced_within max_price o :
  is_nan max_price = false -> admitted max_price o ->
  priced_within max_price o.
Proof.
  intros N (p & L & P & B). exists p. split; [exact L|]. split; [exact P|].
  apply FloatFacts.not_gtb_leb; [|exact N|exact B].
  apply (FloatFacts.ltb_true_not_nan _ _ P).
Qed.

Lemma admitted_set max_price o k v :
  k <> "noPrice" -> admitted max_price o ->
  admitted max_price (set o k v).
Proof.
  intros N (p & L & B). exists p. split; [|exact B].
  rewrite lookup_set_other by exact N. exact L.
Qed.

Lemma analyze_market_no_admitted now m max_price o :
  analyze_market_no now m max_price = Some o -> admitted max_price o.
Proof.
  unfold analyze_market_no.
  destruct (negb (_is_active_market now m)); [discriminate|].
  destruct (_derive_no_bid m) as [p|]; [|discriminate].
  destruct (p <=? 0)%float eqn:E0; [discriminate|].
  destruct (p <=? max_price)%float eqn:E1; [|discriminate].
  intros [= <-]. apply priced_within_admitted.
  exists p. split; [reflexivity|]. split; [|exact E1].
  apply FloatFacts.not_leb_zero_pos; [|exact E0].
  apply (FloatFacts.leb_true_not_nan _ _ E1).
Qed.

Lemma attach_token_admitted max_price m opp :
  admitted max_price opp ->
  total (admitted max_price) (attach_token m opp).
Proof.
  intros H. unfold attach_token. apply total_catch; [|apply total_ret, H].
  apply post_bind with (Q := fun _ => True); [apply post_true|].
  intros tid _. apply post_ret.
  assert (H1 : admitted max_price
                 match tid with
                 | Some t => if truthy (JStr t)
                             then set opp "noTokenId" (JStr t) else opp
                 | None => opp
                 end).
  { destruct tid as [t|]; [|exact H].
    destruct (truthy (JStr t)); [|exact H].
    apply admitted_set; [discriminate|exact H]. }
  destruct (truthy (get m "slug")); [|exact H1].
  apply admitted_set; [discriminate|exact H1].
Qed.

Lemma gamma_loop_admitted max_price markets :
  total (Forall (admitted max_price)) (gamma_loop max_price markets).
Proof.
  induction markets as [|m rest IH]; simpl.
  - apply total_ret. constructor.
  - apply total_bind
      with (Q := fun r => match r with
                          | Some o => admitted max_price o
                          | None => True
                          end).
    + unfold analyze.
      apply total_bind with (Q := fun _ => True); [intros l; exact I|].
      intros now _. apply total_ret.
      destruct (analyze_market_no now m max_price) eqn:E; [|exact I].
      apply (analyze_market_no_admitted _ _ _ _ E).
    + intros [opp|] H; [|exact IH].
      destruct opp as [|kv opp0]; simpl; [exact IH|].
      apply total_bind with (Q := admitted max_price);
        [apply attach_token_admitted, H|].
      intros opp' H'.
      apply total_bind with (Q := Forall (admitted max_price));
        [exact IH|].
      intros more Hm. apply total_ret. constructor; assumption.
Qed.

Lemma search_attempts_total query page limit attempts :
  total (fun _ => True) (search_attempts query page limit attempts).
Proof.
  induction attempts as [|t later IH]; simpl.
  - apply total_ret. exact I.
  - apply total_catch; [apply post_true|exact IH].
Qed.

Lemma fetch_pages_total query page_limit remaining : forall page,
  total (fun _ => True) (fetch_pages query page_limit remaining page).
Proof.
  induction remaining as [|n IH]; intros page; simpl.
  - apply total_ret. exact I.
  - apply total_bind with (Q := fun _ => True);
      [apply search_attempts_total|].
    intros r _. destruct (snd r); [|apply total_ret; exact I].
    apply total_bind with (Q := fun _ => True); [apply IH|].
    intros more _. apply total_ret. exact I.
Qed.

Lemma gamma_path_admitted max_price :
  total (Forall (admitted max_price)) (gamma_path max_price).
Proof.
  unfold gamma_path.
  apply total_bind with (Q := fun _ => True); [apply fetch_pages_total|].
  intros [|m ms] _; [apply total_ret; constructor|].
  apply gamma_loop_admitted.
Qed.

Lemma first_positive_price_not_nan t keys f :
  first_positive_price t keys = Ok (Some f) -> is_nan f = false.
Proof.
  induction keys as [|key later IH]; simpl; [discriminate|].
  destruct (is_number (get t key) && gt_zero (get t key)) eqn:E; [|exact IH].
  apply andb_prop in E. destruct E as [E1 E2].
  destruct (get t key) as [|b|z|g|x|x|x]; simpl in *; try discriminate.
  - intros [= <-]. destruct b; reflexivity.
  - destruct (float_of_Z z) as [g|] eqn:Ez; simpl; [|discriminate].
    intros [= <-]. apply (FloatFacts.float_of_Z_not_nan _ _ Ez).
  - intros [= <-]. apply (FloatFacts.ltb_true_not_nan _ _ E2).
Qed.

Lemma price_from_yes_not_nan outcomes p :
  price_from_yes outcomes = Some p -> is_nan p = false.
Proof.
  unfold price_from_yes.
  destruct (item outcomes 0) as [o0|]; simpl; [|discriminate].
  destruct (as_dict (por o0 (JDict []))) as [d0|]; simpl; [|discriminate].
  destruct (to_float (por (get d0 "bestAsk") (JInt 0))) as [a|];
    simpl; [|discriminate].
  destruct (0 <? a)%float eqn:E; [|discriminate].
  intros [= <-]. apply FloatFacts.one_sub_not_nan.
  apply (FloatFacts.ltb_true_not_nan _ _ E).
Qed.

(** The price a fallback case hands to the threshold test is a number. *)
Definition price_is_number (r : option float * json) : Prop :=
  match fst r with
  | Some p => is_nan p = false
  | None => True
  end.

Lemma clob_from_tokens_number tokens r :
  clob_from_tokens tokens = Ok (Some r) -> price_is_number r.
Proof.
  unfold clob_from_tokens.
  destruct (iter tokens) as [ts|]; cbn [rbind]; [|discriminate].
  destruct (find_no "outcome" ts) as [[t|]|]; cbn [rbind]; try discriminate.
  destruct (negb (truthy (JDict t))); [discriminate|].
  destruct (first_positive_price t price_keys) as [[p|]|] eqn:E; cbn [rbind];
    try discriminate; intros [= <-]; unfold price_is_number; cbn [fst];
    [|exact I].
  apply (first_positive_price_not_nan _ _ _ E).
Qed.

Lemma clob_from_outcomes_number m outcomes :
  post price_is_number (clob_from_outcomes m outcomes).
Proof.
  unfold clob_from_outcomes.
  apply post_bind with (Q := fun _ => True); [apply post_true|]; intros os _.
  apply post_bind with (Q := fun _ => True); [apply post_true|];
    intros no_outcome _.
  apply post_bind with (Q := fun _ => True); [apply post_true|]; intros o0 _.
  apply post_bind with (Q := fun _ => True); [apply post_true|]; intros d0 _.
  cbv zeta.
  apply post_bind with (Q := fun _ => True); [apply post_true|];
    intros token_id _.
  apply post_ret. unfold price_is_number; simpl.
  destruct (0 <? float_or_zero (or_empty no_outcome) "bestBid")%float eqn:E.
  - apply (FloatFacts.ltb_true_not_nan _ _ E).
  - destruct (lower (str (get_or d0 "name" (JStr ""))) =? "yes")%string;
      [|exact I].
    destruct (price_from_yes outcomes) as [p|] eqn:Ep; [|exact I].
    apply (price_from_yes_not_nan _ _ Ep).
Qed.

Lemma clob_market_admitted max_price m :
  post (fun r => match r with
                 | Some o => admitted max_price o
                 | None => True
                 end)
       (clob_market max_price m).
Proof.
  unfold clob_market.
  apply post_bind with (Q := fun _ => True); [apply post_true|]; intros d _.
  destruct (is_True (get d "closed") || is_True (get d "archived"));
    [apply post_ret; exact I|].
  cbv zeta.
  apply post_bind
    with (Q := fun found => match found with
                            | Some r => price_is_number r
                            | None => True
                            end).
  - destruct (truthy (por (get d "tokens") (JList []))).
    + apply post_lift. intros [r|] E; [|exact I].
      apply (clob_from_tokens_number _ _ E).
    + destruct (truthy (por (get d "outcomes") (JList []))).
      * apply post_bind with (Q := price_is_number);
          [apply clob_from_outcomes_number|].
        intros r Hr. apply post_ret. exact Hr.
      * apply post_ret. exact I.
  - intros [[[price|] token_id]|] H; try (apply post_ret; exact I).
    unfold price_is_number in H; simpl in H.
    destruct ((price <=? 0)%float || (max_price <? price)%float) eqn:E;
      apply post_ret; [exact I|].
    apply orb_false_elim in E. destruct E as [E0 E1].
    exists price. split; [reflexivity|]. split; [|exact E1].
    apply FloatFacts.not_leb_zero_pos; assumption.
Qed.

Lemma clob_loop_admitted max_price markets :
  post (Forall (admitted max_price)) (clob_loop max_price markets).
Proof.
  induction markets as [|m rest IH]; simpl.
  - apply post_ret. constructor.
  - eapply post_bind; [apply clob_market_admitted|].
    intros found Hf.
    eapply post_bind; [exact IH|]. intros more Hm. apply post_ret.
    destruct found; [constructor|]; assumption.
Qed.

Lemma clob_path_admitted max_price :
  total (Forall (admitted max_price)) (clob_path max_price).
Proof.
  unfold clob_path.
  apply total_catch; [|apply total_ret; constructor].
  apply post_bind with (Q := fun _ => True); [apply post_true|]; intros cm _.
  apply post_bind with (Q := fun _ => True); [apply post_true|]; intros n _.
  apply post_bind with (Q := fun _ => True); [apply post_true|]; intros ms _.
  apply clob_loop_admitted.
Qed.

(** X21.  [find_eligible_markets] returns (it never raises), and every
    opportunity it returns, from the Gamma path or from the CLOB fallback,
    carries a [noPrice] [p] that is strictly positive and for which
    [p > max_price] does not hold; for a threshold that is a number this
    is [0 < p <= max_price]. *)
Theorem find_eligible_markets_price_bounds (max_price : float) (l : log) :
  exists opps,
    fst (find_eligible_markets max_price l) = Ok opps
    /\ Forall (admitted max_price) opps
    /\ (is_nan max_price = false -> Forall (priced_within max_price) opps).
Proof.
  assert (T : total (Forall (admitted max_price))
                (find_eligible_markets max_price)).
  { unfold find_eligible_markets.
    apply total_bind with (Q := Forall (admitted max_price));
      [apply gamma_path_admitted|].
    intros [|o os] H; [apply clob_path_admitted|].
    apply total_ret, H. }
  specialize (T l).
  destruct (fst (find_eligible_markets max_price l)) as [opps|];
    [|destruct T].
  exists opps. split; [reflexivity|]. split; [exact T|].
  intros N. revert T. apply List.Forall_impl.
  intros o. apply admitted_priced_within, N.
Qed.

(** ** When the fallback catalog is fetched *)

Lemma quiet_strategy r (parse : json -> res (option string)) :
  is_clob_fetch (Http r) = false ->
  emits is_clob_fetch 0
    (catch (let! data := http_get env r in lift (parse data)) (ret None)).
Proof.
  intros H. apply emits_catch; [|apply emits_ret].
  apply quiet_bind; [|intros a; apply emits_lift].
  pose proof (emits_http_get env is_clob_fetch r) as E.
  rewrite H in E. exact E.
Qed.

Lemma resolve_no_token_id_quiet m :
  emits is_clob_fetch 0 (resolve_no_token_id m).
Proof.
  unfold resolve_no_token_id.
  destruct (gamma_base =? "")%string; [apply emits_ret|].
  cbv zeta. apply quiet_bind.
  { destruct (truthy _); [|apply emits_ret].
    apply quiet_strategy. reflexivity. }
  intros [tid|]; [apply emits_ret|]. apply quiet_bind.
  { destruct (truthy _); [|apply emits_ret].
    apply quiet_strategy. reflexivity. }
  intros [tid|]; [apply emits_ret|].
  destruct (truthy _); [|apply emits_ret].
  apply quiet_strategy. reflexivity.
Qed.

Lemma search_attempts_quiet query page limit attempts :
  emits is_clob_fetch 0 (search_attempts query page limit attempts).
Proof.
  induction attempts as [|t later IH]; simpl; [apply emits_ret|].
  apply emits_catch; [|exact IH].
  apply quiet_bind; [|intros a; apply emits_lift].
  apply (emits_http_get env is_clob_fetch).
Qed.

Lemma fetch_pages_quiet query page_limit remaining : forall page,
  emits is_clob_fetch 0 (fetch_pages query page_limit remaining page).
Proof.
  induction remaining as [|n IH]; intros page; simpl; [apply emits_ret|].
  apply quiet_bind; [apply search_attempts_quiet|].
  intros r. destruct (snd r); [|apply emits_ret].
  apply quiet_bind; [apply IH|]. intros more. apply emits_ret.
Qed.

Lemma gamma_loop_quiet max_price markets :
  emits is_clob_fetch 0 (gamma_loop max_price markets).
Proof.
  induction markets as [|m rest IH]; simpl; [apply emits_ret|].
  apply quiet_bind.
  { unfold analyze. apply quiet_bind;
      [apply (emits_read_clock env is_clob_fetch)|].
    intros now. apply emits_ret. }
  intros [opp|]; [|exact IH].
  destruct opp as [|kv opp0]; simpl; [exact IH|].
  apply quiet_bind.
  { unfold attach_token. apply emits_catch; [|apply emits_ret].
    apply quiet_bind; [apply resolve_no_token_id_quiet|].
    intros tid. apply emits_ret. }
  intros opp'. apply quiet_bind; [exact IH|]. intros more. apply emits_ret.
Qed.

Lemma gamma_path_quiet max_price :
  emits is_clob_fetch 0 (gamma_path max_price).
Proof.
  unfold gamma_path. apply quiet_bind; [apply fetch_pages_quiet|].
  intros [|m ms]; [apply emits_ret|apply gamma_loop_quiet].
Qed.

Lemma clob_market_quiet max_price m :
  emits is_clob_fetch 0 (clob_market max_price m).
Proof.
  unfold clob_market. apply quiet_bind; [apply emits_lift|]. intros d.
  destruct (is_True (get d "closed") || is_True (get d "archived"));
    [apply emits_ret|].
  cbv zeta. apply quiet_bind.
  - destruct (truthy (por (get d "tokens") (JList [])));
      [apply emits_lift|].
    destruct (truthy (por (get d "outcomes") (JList [])));
      [|apply emits_ret].
    apply quiet_bind; [|intros r; apply emits_ret].
    unfold clob_from_outcomes.
    apply quiet_bind; [apply emits_lift|]; intros os.
    apply quiet_bind; [apply emits_lift|]; intros no_outcome.
    apply quiet_bind; [apply emits_lift|]; intros o0.
    apply quiet_bind; [apply emits_lift|]; intros d0.
    cbv zeta. apply quiet_bind; [|intros t; apply emits_ret].
    apply emits_catch; [|apply emits_ret].
    apply quiet_bind; [apply resolve_no_token_id_quiet|].
    intros tid. apply emits_ret.
  - intros [[[price|] token_id]|]; try apply emits_ret.
    destruct ((price <=? 0)%float || (max_price <? price)%float);
      apply emits_ret.
Qed.

Lemma clob_loop_quiet max_price markets :
  emits is_clob_fetch 0 (clob_loop max_price markets).
Proof.
  induction markets as [|m rest IH]; simpl; [apply emits_ret|].
  apply quiet_bind; [apply clob_market_quiet|]. intros found.
  apply quiet_bind; [exact IH|]. intros more. apply emits_ret.
Qed.

(** The fallback fetches the CLOB catalog exactly once, whatever happens
    after the fetch. *)
Lemma clob_path_fetches_once max_price :
  emits is_clob_fetch 1 (clob_path max_price).
Proof.
  unfold clob_path. apply emits_catch; [|apply emits_ret].
  apply (emits_bind is_clob_fetch 1 0); [| |left; reflexivity].
  - unfold fetch_markets.
    apply (emits_bind is_clob_fetch 1 0); [| |left; reflexivity].
    + apply (emits_http_get env is_clob_fetch ClobMarkets).
    + intros data. apply emits_ret.
  - intros cm. apply quiet_bind; [apply emits_lift|]. intros n.
    apply quiet_bind; [apply emits_lift|]. intros ms.
    apply clob_loop_quiet.
Qed.

(** C3.  Within one call of [find_eligible_markets] the primary path
    returns a list [eligible] without touching the CLOB catalog; the call
    fetches the CLOB catalog exactly once when [eligible] is empty and not
    at all otherwise, in which case it returns [eligible] with no further
    call of any kind. *)
Theorem clob_fallback_iff_primary_empty (max_price : float) (l : log) :
  exists eligible l1,
    gamma_path max_price l = (Ok eligible, l1)
    /\ count is_clob_fetch l1 = count is_clob_fetch l
    /\ count is_clob_fetch (snd (find_eligible_markets max_price l))
       = (count is_clob_fetch l
          + match eligible with [] => 1 | _ => 0 end)%nat
    /\ match eligible with
       | [] => find_eligible_markets max_price l = clob_path max_price l1
       | _ => find_eligible_markets max_price l = (Ok eligible, l1)
       end.
Proof.
  pose proof (gamma_path_admitted max_price l) as T.
  pose proof (gamma_path_quiet max_price l) as Q.
  unfold find_eligible_markets, bind.
  destruct (gamma_path max_price l) as [[eligible|] l1]; simpl in T, Q;
    [|destruct T].
  exists eligible, l1. split; [reflexivity|]. split; [lia|].
  destruct eligible as [|o os]; simpl.
  - split; [|reflexivity].
    rewrite (clob_path_fetches_once max_price l1). lia.
  - split; [lia|reflexivity].
Qed.

(** ** The order of the resolver's strategies *)

(** The requests the resolver can make for a record, in the order in which
    it makes them: none of them reads the record's token array. *)
Definition strategies (market : dict) : list request :=
  let ev_slug := por (get market "eventSlug") (get market "event_slug") in
  let slug := get market "slug" in
  let cond := por (get market "condition_id") (get market "conditionId") in
  ((if truthy ev_slug then [EventBySlug ev_slug] else [])
   ++ (if truthy slug then [MarketBySlug slug] else [])
   ++ (if truthy cond then [MarketsByCondition cond] else []))%list.

(** What a strategy makes of the body it receives. *)
Definition read_body (r : request) (data : json) : res (option string) :=
  match r with
  | EventBySlug _ =>
      let? d := as_dict data in
      let? mks := iter (por (get d "markets") (JList [])) in
      scan_markets mks
  | MarketBySlug _ | MarketsByCondition _ => scan_markets (as_array data)
  | _ => Ok None
  end.

(** The id a strategy yields when asked after the calls of [l]. *)
Definition answer_of (l : log) (r : request) : option string :=
  match http_answer env l r with
  | Some data =>
      match read_body r data with
      | Ok found => found
      | Raise => None
      end
  | None => None
  end.

Definition attempt (r : request) : M (option string) :=
  catch (let! data := http_get env r in lift (read_body r data)) (ret None).

(** Try the requests in order and stop at the first that yields an id. *)
Fixpoint first_success (reqs : list request) : M (option string) :=
  match reqs with
  | [] => ret None
  | r :: later =>
      let! found := attempt r in
      match found with
      | Some tid => ret (Some tid)
      | None => first_success later
      end
  end.

Lemma attempt_run r l : attempt r l = (Ok (answer_of l r), Http r :: l).
Proof.
  unfold attempt, catch, bind, http_get, lift, answer_of, ret.
  destruct (http_answer env l r) as [data|]; simpl; [|reflexivity].
  destruct (read_body r data) as [found|]; reflexivity.
Qed.

Lemma resolve_no_token_id_first_success market l :
  resolve_no_token_id market l
  = (if (gamma_base =? "")%string then ret None
     else first_success (strategies market)) l.
Proof.
  unfold resolve_no_token_id, strategies.
  destruct (gamma_base =? "")%string; [reflexivity|]. cbv zeta.
  destruct (truthy (por (get market "eventSlug") (get market "event_slug")));
    destruct (truthy (get market "slug"));
    destruct (truthy (por (get market "condition_id")
                          (get market "conditionId")));
    cbn [app first_success]; unfold bind, ret;
    change by_event_slug with (fun s => attempt (EventBySlug s));
    change by_market_slug with (fun s => attempt (MarketBySlug s));
    change by_condition with (fun s => attempt (MarketsByCondition s));
    cbv beta; rewrite ?attempt_run;
    repeat (match goal with
            | |- context [answer_of ?l0 ?r0] =>
                destruct (answer_of l0 r0); rewrite ?attempt_run
            end); reflexivity.
Qed.

(** Every request of [reqs], made in order after the calls of [l],
    yielded no id: it failed, or its body held none. *)
Definition none_found (reqs : list request) (l : log) : Prop :=
  forall before r after,
    reqs = (before ++ r :: after)%list ->
    answer_of (rev (map Http before) ++ l)%list r = None.

Lemma none_found_nil l : none_found [] l.
Proof. intros [|b before] r after E; discriminate E. Qed.

Lemma none_found_cons r reqs l :
  answer_of l r = None -> none_found reqs (Http r :: l) ->
  none_found (r :: reqs) l.
Proof.
  intros H0 H before x after E.
  destruct before as [|b before]; simpl in E; injection E as <- E.
  - exact H0.
  - simpl. rewrite <- List.app_assoc. apply (H before x after E).
Qed.

(** The calls [first_success] adds are a prefix [done] of its requests.
    It yields an id exactly when the last request of [done] was answered
    with a body holding one, every request before it having yielded none;
    it yields nothing only when it went through the whole list and every
    request yielded none. *)
Lemma first_success_spec reqs : forall l,
  exists done rest,
    reqs = (done ++ rest)%list
    /\ snd (first_success reqs l) = (rev (map Http done) ++ l)%list
    /\ match fst (first_success reqs l) with
       | Ok (Some tid) =>
           exists before r,
             done = (before ++ [r])%list
             /\ none_found before l
             /\ answer_of (rev (map Http before) ++ l)%list r = Some tid
       | Ok None => rest = [] /\ none_found done l
       | Raise => False
       end.
Proof.
  induction reqs as [|r later IH]; intros l.
  - exists [], []. simpl. split; [reflexivity|]. split; [reflexivity|].
    split; [reflexivity|apply none_found_nil].
  - cbn [first_success]. unfold bind. rewrite attempt_run.
    destruct (answer_of l r) as [tid|] eqn:E.
    + exists [r], later. simpl. split; [reflexivity|].
      split; [reflexivity|]. exists [], r. simpl.
      split; [reflexivity|]. split; [apply none_found_nil|exact E].
    + destruct (IH (Http r :: l)) as (done & rest & -> & Hl & Hr).
      exists (r :: done), rest. split; [reflexivity|].
      split.
      * rewrite Hl. simpl. rewrite <- List.app_assoc. reflexivity.
      * destruct (fst (first_success (done ++ rest) (Http r :: l)))
          as [[tid|]|]; [| |exact Hr].
        -- destruct Hr as (before & r0 & -> & Hn & Ha).
           exists (r :: before), r0. split; [reflexivity|].
           split; [apply none_found_cons; assumption|].
           simpl. rewrite <- List.app_assoc. exact Ha.
        -- destruct Hr as (-> & Hn).
           split; [reflexivity|apply none_found_cons; assumption].
Qed.

Lemma get_set_other d k v k' : k <> k' -> get (set d k v) k' = get d k'.
Proof. intros N. unfold get. rewrite lookup_set_other by exact N. reflexivity. Qed.

(** C5, amended.  The resolver tries the event-slug, market-slug and
    condition-id lookups in that fixed order and returns on the first
    success: the calls it adds are a prefix [done] of [strategies market];
    an id it returns was read from the body that answered the last call
    of [done], every lookup before that one having been made and having
    yielded no id; it returns [None] only after the whole list, every
    lookup of which yielded no id, or with no endpoint configured, in
    which case it makes no call; and it never raises.  It has no lookup
    in the record itself: changing the record's [tokens] changes
    nothing. *)
Theorem resolve_no_token_id_strategy_order (market : dict) (l : log) :
  (gamma_base <> "" ->
   exists done rest,
     strategies market = (done ++ rest)%list
     /\ snd (resolve_no_token_id market l) = (rev (map Http done) ++ l)%list
     /\ match fst (resolve_no_token_id market l) with
        | Ok (Some tid) =>
            exists before r,
              done = (before ++ [r])%list
              /\ none_found before l
              /\ answer_of (rev (map Http before) ++ l)%list r = Some tid
        | Ok None => rest = [] /\ none_found done l
        | Raise => False
        end)
  /\ (gamma_base = "" -> resolve_no_token_id market l = (Ok None, l))
  /\ (forall tokens,
        resolve_no_token_id (set market "tokens" tokens) l
        = resolve_no_token_id market l).
Proof.
  split; [|split].
  - intros Hb. rewrite resolve_no_token_id_first_success.
    rewrite (proj2 (String.eqb_neq gamma_base "") Hb).
    apply first_success_spec.
  - intros Hb. rewrite resolve_no_token_id_first_success, Hb. reflexivity.
  - intros tokens. rewrite !resolve_no_token_id_first_success.
    unfold strategies. rewrite !get_set_other by discriminate. reflexivity.
Qed.

(** ** The active-market filter against its description *)

(** [active] is not False, [closed] is not True, [archived] is not True
    and [acceptingOrders] is not False. *)
Definition flags_ok (m : dict) : bool :=
  negb (is_False (get m "active")) && negb (is_True (get m "closed"))
  && negb (is_True (get m "archived"))
  && negb (is_False (get m "acceptingOrders")).

(** The expiry field the filter reads. *)
Definition expiry (m : dict) : json :=
  por (get m "endDate") (get m "endDateIso").

(** The instant of a timestamp, a naive one being read as UTC. *)
Definition instant (d : datetime) : Z :=
  match tzinfo d with
  | Some offset => wall d - offset
  | None => wall d
  end.

(** The filter as the specification words it: the four flags, and no
    expiry, an unparsable one, or one strictly in the future. *)
Definition tradable_as_claimed (now : Z) (m : dict) : bool :=
  flags_ok m
  && (negb (truthy (expiry m))
      || match parse_end (expiry m) with
         | None => true
         | Some e => now <? instant e
         end).

(** The filter as the code has it: the record is not empty, the four
    flags, and no expiry, one that both parsing attempts reject, or one
    that is not before the instant of evaluation. *)
Definition tradable (now : Z) (m : dict) : bool :=
  truthy (JDict m) && flags_ok m
  && (negb (truthy (expiry m))
      || match parse_end (expiry m) with
         | None => true
         | Some e => now <=? instant e
         end).

Lemma expired_instant now e : expired now e = Ok (instant e <? now).
Proof.
  unfold expired, instant, datetime_lt, datetime_now, replace_utc.
  destruct e as [w [off|]]; cbn -[Z.add Z.sub Z.ltb]; f_equal; f_equal; lia.
Qed.

(** X22.  [_is_active_market] is true exactly for a non-empty record
    whose [active] is not False, [closed] not True, [archived] not True
    and [acceptingOrders] not False, and whose expiry is absent, is
    rejected by both parsing attempts of the filter, or is, as the filter
    parsed it and with a naive reading taken as UTC, not earlier than the
    instant of evaluation; a parsed expiry one second before that instant
    gives False. *)
Theorem is_active_market_tradable (now : Z) (m : dict) :
  _is_active_market now m = tradable now m
  /\ (forall e,
        truthy (expiry m) = true -> parse_end (expiry m) = Some e ->
        instant e = now - 1000000 -> _is_active_market now m = false).
Proof.
  assert (E : _is_active_market now m = tradable now m).
  { unfold _is_active_market, tradable, flags_ok. fold (expiry m).
    destruct (truthy (JDict m)); cbn [negb andb]; [|reflexivity].
    destruct (is_False (get m "active")); cbn [negb andb]; [reflexivity|].
    destruct (is_True (get m "closed")); cbn [negb andb]; [reflexivity|].
    destruct (is_True (get m "archived")); cbn [negb andb]; [reflexivity|].
    destruct (is_False (get m "acceptingOrders")); cbn [negb andb];
      [reflexivity|].
    destruct (truthy (expiry m)); cbn [negb orb]; [|reflexivity].
    destruct (parse_end (expiry m)) as [e|]; [|reflexivity].
    rewrite expired_instant, Z.leb_antisym.
    destruct (instant e <? now); reflexivity. }
  split; [exact E|].
  intros e Ht Hp Hi. rewrite E. unfold tradable. rewrite Ht, Hp, Hi.
  cbn [negb orb].
  replace (now <=? now - 1000000) with false
    by (symmetry; apply Z.leb_gt; lia).
  rewrite andb_false_r. reflexivity.
Qed.

(** ** The filter over time *)

(** X1.  Expiry is final and nothing else depends on the clock: a record
    that [_is_active_market] refuses at one instant is refused at every
    later one, and for a record without an expiry field the verdict is
    the same at all instants. *)
Theorem is_active_market_over_time (now later : Z) (m : dict) :
  (now <= later -> _is_active_market now m = false ->
   _is_active_market later m = false)
  /\ (truthy (por (get m "endDate") (get m "endDateIso")) = false ->
      _is_active_market later m = _is_active_market now m).
Proof.
  unfold _is_active_market.
  destruct (negb (truthy (JDict m))); [split; reflexivity|].
  destruct (is_False (get m "active")); [split; reflexivity|].
  destruct (is_True (get m "closed")); [split; reflexivity|].
  destruct (is_True (get m "archived")); [split; reflexivity|].
  destruct (is_False (get m "acceptingOrders")); [split; reflexivity|].
  cbv zeta.
  destruct (truthy (por (get m "endDate") (get m "endDateIso")));
    [|split; [intros _ H; exact H|reflexivity]].
  split; [|discriminate].
  intros Hle.
  destruct (parse_end (por (get m "endDate") (get m "endDateIso")))
    as [e|]; [|discriminate].
  rewrite !expired_instant.
  destruct (instant e <? now) eqn:E; [|discriminate].
  intros _. apply Z.ltb_lt in E.
  replace (instant e <? later) with true
    by (symmetry; apply Z.ltb_lt; lia).
  reflexivity.
Qed.

(** ** The sign of a derived bid *)

Local Ltac from_outcome_prices m :=
  destruct (iter (por (get m "outcomes") (JList []))) as [os|];
    [|discriminate];
  destruct (first_no_index os 0) as [idx|]; [|discriminate];
  destruct (len (por (get m "outcomePrices") (JList []))) as [n|];
    [|discriminate];
  destruct (idx <? n)%nat; [|discriminate];
  destruct (item (por (get m "outcomePrices") (JList [])) idx) as [x|];
    [|discriminate];
  destruct (to_float x) as [f|]; [|discriminate];
  let E := fresh "E" in
  destruct (0 <=? f)%float eqn:E; [|discriminate];
  intros [= <-]; exact E.

(** X2.  With [bestBid] or [bestAsk] absent, [_derive_no_bid] can only
    answer from [outcomePrices], and that path never yields a negative
    bid. *)
Theorem derive_no_bid_without_quotes_nonneg (m : dict) (p : float) :
  (is_None (get m "bestBid") || is_None (get m "bestAsk")) = true ->
  _derive_no_bid m = Some p ->
  (0 <=? p)%float = true.
Proof.
  unfold _derive_no_bid, derive_no_bid_body, optional_float, rbind.
  intros H.
  destruct (is_None (get m "bestBid")); simpl in H.
  - destruct (is_None (get m "bestAsk")).
    + from_outcome_prices m.
    + destruct (to_float (get m "bestAsk")); [|discriminate].
      from_outcome_prices m.
  - rewrite H. destruct (to_float (get m "bestBid")); [|discriminate].
    from_outcome_prices m.
Qed.

(** ** The retries of one search page *)

(** What the attempt with [timeout] yields when made after the calls of
    [l]: the page, or [None] when the request fails or its body has not
    the shape the function reads. *)
Definition page_of (query : string) (page limit_per_type : Z) (l : log)
    (timeout : Z) : option (list dict * bool) :=
  match http_answer env l (PublicSearch query page limit_per_type timeout) with
  | Some data =>
      match parse_search_page data with
      | Ok r => Some r
      | Raise => None
      end
  | None => None
  end.

(** The log left by requests with the given timeouts, the latest first. *)
Definition search_calls (query : string) (page limit_per_type : Z)
    (timeouts : list Z) : log :=
  rev (map (fun t => Http (PublicSearch query page limit_per_type t)) timeouts).

(** Every attempt of [timeouts], made in order after [l], failed. *)
Definition all_failed (query : string) (page limit_per_type : Z)
    (timeouts : list Z) (l : log) : Prop :=
  forall before t after,
    timeouts = (before ++ t :: after)%list ->
    page_of query page limit_per_type
      (search_calls query page limit_per_type before ++ l)%list t = None.

Lemma search_calls_cons query page limit t ts l :
  (search_calls query page limit (t :: ts) ++ l)%list
  = (search_calls query page limit ts
     ++ Http (PublicSearch query page limit t) :: l)%list.
Proof. unfold search_calls. simpl. rewrite <- List.app_assoc. reflexivity. Qed.

Lemma all_failed_cons query page limit t ts l :
  page_of query page limit l t = None ->
  all_failed query page limit ts (Http (PublicSearch query page limit t) :: l) ->
  all_failed query page limit (t :: ts) l.
Proof.
  intros H0 H before x after E.
  destruct before as [|b before]; simpl in E; injection E as <- E.
  - exact H0.
  - rewrite search_calls_cons. apply (H before x after E).
Qed.

Lemma search_attempts_cons query page limit t later l :
  search_attempts query page limit (t :: later) l
  = match page_of query page limit l t with
    | Some r => (Ok r, Http (PublicSearch query page limit t) :: l)
    | None => search_attempts query page limit later
                (Http (PublicSearch query page limit t) :: l)
    end.
Proof.
  cbn [search_attempts]. unfold catch, bind, http_get, lift, page_of.
  destruct (http_answer env l (PublicSearch query page limit t)) as [data|];
    cbn [of_option]; [|reflexivity].
  destruct (parse_search_page data); reflexivity.
Qed.

Lemma search_attempts_spec query page limit attempts : forall l,
  exists done rest,
    attempts = (done ++ rest)%list
    /\ snd (search_attempts query page limit attempts l)
       = (search_calls query page limit done ++ l)%list
    /\ ((exists before t r,
           done = (before ++ [t])%list
           /\ all_failed query page limit before l
           /\ page_of query page limit
                (search_calls query page limit before ++ l)%list t = Some r
           /\ fst (search_attempts query page limit attempts l) = Ok r)
        \/ (rest = []
            /\ all_failed query page limit done l
            /\ fst (search_attempts query page limit attempts l)
               = Ok ([], false))).
Proof.
  induction attempts as [|t later IH]; intros l.
  - exists [], []. split; [reflexivity|]. split; [reflexivity|].
    right. split; [reflexivity|]. split; [|reflexivity].
    intros [|b before] x after E; discriminate E.
  - rewrite search_attempts_cons.
    destruct (page_of query page limit l t) as [r|] eqn:P.
    + exists [t], later. split; [reflexivity|]. split; [reflexivity|].
      left. exists [], t, r. split; [reflexivity|].
      split; [intros [|b before] x after E; discriminate E|].
      split; [exact P|reflexivity].
    + destruct (IH (Http (PublicSearch query page limit t) :: l))
        as (done & rest & -> & Hl & Hr).
      exists (t :: done), rest. split; [reflexivity|].
      split; [rewrite Hl; symmetry; apply search_calls_cons|].
      destruct Hr as [(before & x & r & -> & Hf & Hp & Ho)|(-> & Hf & Ho)].
      * left. exists (t :: before), x, r. split; [reflexivity|].
        split; [apply all_failed_cons; assumption|].
        split; [rewrite search_calls_cons; exact Hp|exact Ho].
      * right. split; [reflexivity|].
        split; [apply all_failed_cons; assumption|exact Ho].
Qed.

(** X3.  [fetch_public_search_page] asks at most three times, with the
    timeouts 10, 20 and 30 in that order and nothing else in between: the
    calls it adds are those of a prefix [done] of the three.  It returns
    the page of the first attempt that gives one, every attempt before it
    having failed; when all three fail it returns the empty page with
    [has_more] false.  It never raises. *)
Theorem fetch_public_search_page_retries (query : string)
    (page limit_per_type : Z) (l : log) :
  exists done rest,
    [10; 20; 30] = (done ++ rest)%list
    /\ snd (fetch_public_search_page query page limit_per_type l)
       = (search_calls query page limit_per_type done ++ l)%list
    /\ ((exists before t r,
           done = (before ++ [t])%list
           /\ all_failed query page limit_per_type before l
           /\ page_of query page limit_per_type
                (search_calls query page limit_per_type before ++ l)%list t
              = Some r
           /\ fst (fetch_public_search_page query page limit_per_type l)
              = Ok r)
        \/ (rest = []
            /\ all_failed query page limit_per_type done l
            /\ fst (fetch_public_search_page query page limit_per_type l)
               = Ok ([], false))).
Proof. apply search_attempts_spec. Qed.

(** ** The markets of a search page *)

(** [mk] is a market record that the event [ev] of [events] lists. *)
Definition listed (events : list json) (ev mk : dict) : Prop :=
  In (JDict ev) events
  /\ exists mks, iter (por (get ev "markets") (JList [])) = Ok mks
                 /\ In (JDict mk) mks.

Lemma tag_markets_spec ev_slug mks : forall ms,
  tag_markets ev_slug mks = Ok ms ->
  Forall (fun m => exists mk, In (JDict mk) mks
                              /\ m = set mk "eventSlug" ev_slug) ms.
Proof.
  induction mks as [|j rest IH]; simpl; intros ms.
  - intros [= <-]. constructor.
  - destruct j as [| | | | | |d]; try discriminate. cbn [as_dict rbind].
    destruct (tag_markets ev_slug rest) as [tagged|]; [|discriminate].
    cbn [rbind]. intros [= <-]. constructor.
    + exists d. split; [left; reflexivity|reflexivity].
    + specialize (IH tagged eq_refl). revert IH. apply List.Forall_impl.
      intros m (mk & Hin & ->). exists mk. split; [right; exact Hin|reflexivity].
Qed.

Lemma collect_markets_spec events : forall ms,
  collect_markets events = Ok ms ->
  Forall (fun m => exists ev mk, listed events ev mk
                                 /\ m = set mk "eventSlug" (get ev "slug")) ms.
Proof.
  induction events as [|j rest IH]; simpl; intros ms.
  - intros [= <-]. constructor.
  - destruct j as [| | | | | |e]; try discriminate. cbn [as_dict rbind].
    destruct (iter (por (get e "markets") (JList []))) as [mks|] eqn:Hi;
      [|discriminate].
    cbn [rbind].
    destruct (tag_markets (get e "slug") mks) as [here|] eqn:Ht;
      [|discriminate].
    cbn [rbind].
    destruct (collect_markets rest) as [there|]; [|discriminate].
    cbn [rbind]. intros [= <-]. apply Forall_app. split.
    + pose proof (tag_markets_spec _ _ _ Ht) as H. revert H.
      apply List.Forall_impl. intros m (mk & Hin & ->).
      exists e, mk. split; [|reflexivity].
      split; [left; reflexivity|]. exists mks. split; [exact Hi|exact Hin].
    + specialize (IH there eq_refl). revert IH. apply List.Forall_impl.
      intros m (ev & mk & (Hev & Hmk) & ->).
      exists ev, mk. split; [|reflexivity].
      split; [right; exact Hev|exact Hmk].
Qed.

(** X4.  Every market a search page returns is a market record listed by
    one of the events of the response, with [eventSlug] set to the slug of
    that event (whatever [eventSlug] the record carried) and every other
    field as the response has it. *)
Theorem parse_search_page_tags_markets (data : json) (markets : list dict)
    (has_more : bool) :
  parse_search_page data = Ok (markets, has_more) ->
  exists d events,
    data = JDict d
    /\ iter (por (get d "events") (JList [])) = Ok events
    /\ Forall (fun m => exists ev mk,
                 listed events ev mk
                 /\ lookup m "eventSlug" = Some (get ev "slug")
                 /\ forall k, k <> "eventSlug" -> lookup m k = lookup mk k)
         markets.
Proof.
  unfold parse_search_page.
  destruct data as [| | | | | |d]; try discriminate. cbn [as_dict rbind].
  destruct (iter (por (get d "events") (JList []))) as [events|] eqn:Hi;
    [|discriminate].
  cbn [rbind].
  destruct (collect_markets events) as [ms|] eqn:Hc; [|discriminate].
  cbn [rbind].
  destruct (as_dict (por (get d "pagination") (JDict []))); [|discriminate].
  cbn [rbind]. intros [= <- _].
  exists d, events. split; [reflexivity|]. split; [exact Hi|].
  pose proof (collect_markets_spec _ _ Hc) as H. revert H.
  apply List.Forall_impl. intros m (ev & mk & Hl & ->).
  exists ev, mk. split; [exact Hl|]. split.
  - apply lookup_set_same.
  - intros k Hk. apply lookup_set_other. congruence.
Qed.

(** ** The requests of a full catalog read *)

(** A search request for [query] with [limit_per_type], for a page between
    [first] and [last], with one of the three timeouts. *)
Definition search_call (query : string) (limit_per_type first last : Z)
    (c : call) : Prop :=
  exists page t,
    c = Http (PublicSearch query page limit_per_type t)
    /\ first <= page <= last /\ In t [10; 20; 30].

Lemma fetch_public_search_page_trace query page limit l :
  exists added,
    snd (fetch_public_search_page query page limit l) = (added ++ l)%list
    /\ (1 <= List.length added <= 3)%nat
    /\ Forall (search_call query limit page page) added.
Proof.
  destruct (search_attempts_spec query page limit [10; 20; 30] l)
    as (done & rest & E & Hl & Hr).
  exists (search_calls query page limit done).
  split; [exact Hl|]. split.
  - unfold search_calls. rewrite length_rev, length_map.
    assert (L : (List.length done + List.length rest = 3)%nat)
      by (rewrite <- length_app, <- E; reflexivity).
    destruct Hr as [(before & t & r & -> & _)|(-> & _)].
    + rewrite length_app in *. simpl in *. lia.
    + simpl in L. lia.
  - apply List.Forall_forall. intros c Hc. unfold search_calls in Hc.
    apply in_rev in Hc. apply in_map_iff in Hc. destruct Hc as (t & <- & Ht).
    exists page, t. split; [reflexivity|]. split; [lia|].
    rewrite E. apply in_or_app. left. exact Ht.
Qed.

Lemma search_call_widen query limit a b a' b' c :
  a' <= a -> b <= b' -> search_call query limit a b c ->
  search_call query limit a' b' c.
Proof.
  intros Ha Hb (page & t & -> & Hp & Ht).
  exists page, t. split; [reflexivity|]. split; [lia|exact Ht].
Qed.

Lemma fetch_pages_trace query limit remaining : forall page l,
  exists added,
    snd (fetch_pages query limit remaining page l) = (added ++ l)%list
    /\ (Nat.min 1 remaining <= List.length added <= 3 * remaining)%nat
    /\ Forall (search_call query limit page
                 (page + Z.of_nat remaining - 1)) added.
Proof.
  induction remaining as [|n IH]; intros page l.
  - exists []. simpl. split; [reflexivity|]. split; [lia|constructor].
  - cbn [fetch_pages]. unfold bind at 1.
    destruct (fetch_public_search_page_trace query page limit l)
      as (a1 & H1 & L1 & F1).
    assert (F1' : Forall (search_call query limit page
                            (page + Z.of_nat (S n) - 1)) a1).
    { revert F1. apply List.Forall_impl. intros c.
      apply search_call_widen; lia. }
    destruct (fetch_public_search_page query page limit l) as [[r|] l1];
      simpl in H1; subst l1.
    + destruct (snd r).
      * unfold bind, ret.
        destruct (IH (page + 1) (a1 ++ l)%list) as (a2 & H2 & L2 & F2).
        exists (a2 ++ a1)%list. split.
        { destruct (fetch_pages query limit n (page + 1) (a1 ++ l)%list)
            as [[more|] l2]; simpl in *; subst l2;
            apply List.app_assoc. }
        split; [rewrite length_app; simpl in *; lia|].
        apply Forall_app. split; [|exact F1'].
        revert F2. apply List.Forall_impl. intros c.
        apply search_call_widen; lia.
      * exists a1. split; [reflexivity|]. split; [simpl; lia|exact F1'].
    + exists a1. split; [reflexivity|]. split; [simpl; lia|exact F1'].
Qed.

(** X5.  One read of the whole catalog never raises and costs between
    1 and 150 requests, each a search for ["*"] with 100 results per type
    for a page between 1 and 50; it adds no other call. *)
Theorem fetch_all_markets_public_search_budget (l : log) :
  exists added markets,
    fetch_all_markets_public_search l = (Ok markets, (added ++ l)%list)
    /\ (1 <= List.length added <= 150)%nat
    /\ Forall (search_call "*" 100 1 50) added.
Proof.
  unfold fetch_all_markets_public_search.
  destruct (fetch_pages_trace "*" 100 50 1 l) as (added & Hl & Hn & Hf).
  pose proof (fetch_pages_total "*" 100 50 1 l) as T.
  destruct (fetch_pages "*" 100 50 1 l) as [[markets|] l1]; [|destruct T].
  simpl in Hl. subst l1.
  exists added, markets. split; [reflexivity|]. split; [exact Hn|exact Hf].
Qed.

(** ** _extract_no_opportunities and scan_no_tokens *)

(** [(t.get('outcome') or '').lower()]: only a string has [lower]
    (AttributeError otherwise). *)
Definition outcome_lower (t : dict) : res string :=
  match por (get t "outcome") (JStr "") with
  | JStr s => Ok (lower s)
  | _ => Raise
  end.

(** [for key in (...): v = t.get(key); if isinstance(v, (int, float)):
    price = float(v); break] *)
Fixpoint first_number (t : dict) (keys : list string) : res (option float) :=
  match keys with
  | [] => Ok None
  | key :: later =>
      let v := get t key in
      if is_number v then
        let? f := to_float v in Ok (Some f)
      else first_number t later
  end.

Definition scan_price_keys : list string :=
  ["price"; "lastPrice"; "last_price"; "bestOffer"; "best_offer"].

(** The loop over the tokens of one market [m]. *)
Fixpoint extract_tokens (m : dict) (max_price : float) (tokens : list json)
  : res (list dict) :=
  match tokens with
  | [] => Ok []
  | t :: rest =>
      let? d := as_dict t in
      let? outcome := outcome_lower d in
      let? here :=
        if negb (outcome =? "no")%string then Ok []
        else
          let? price := first_number d scan_price_keys in
          match price with
          | None => Ok []
          | Some p =>
              if (p <=? max_price)%float then
                Ok [ [ ("market_question",
                        por (get m "question")
                          (por (get m "title") (JStr "Unknown")));
                       ("condition_id",
                        por (get m "condition_id") (get m "conditionId"));
                       ("token_id",
                        por (get d "token_id") (get d "tokenId"));
                       ("price", JFloat p) ] ]
              else Ok []
          end in
      let? there := extract_tokens m max_price rest in
      Ok (here ++ there)%list
  end.

Fixpoint extract_markets (max_price : float) (markets : list json)
  : res (list dict) :=
  match markets with
  | [] => Ok []
  | m :: rest =>
      let? d := as_dict m in
      let? tokens := iter (por (get d "tokens") (JList [])) in
      let? here := extract_tokens d max_price tokens in
      let? there := extract_markets max_price rest in
      Ok (here ++ there)%list
  end.

Definition _extract_no_opportunities (markets : json) (max_price : float)
  : res (list dict) :=
  let? ms := iter markets in
  extract_markets max_price ms.

Definition scan_no_tokens (max_price : float) : M (list dict) :=
  let! markets := fetch_markets in
  lift (_extract_no_opportunities markets max_price).

(** An opportunity of the scanner: a record with exactly the four keys,
    whose price is a float not above the threshold. *)
Definition scanned (max_price : float) (o : dict) : Prop :=
  map fst o = ["market_question"; "condition_id"; "token_id"; "price"]
  /\ exists p, lookup o "price" = Some (JFloat p)
               /\ (p <=? max_price)%float = true.

Lemma extract_tokens_scanned m max_price tokens : forall ops,
  extract_tokens m max_price tokens = Ok ops ->
  Forall (scanned max_price) ops.
Proof.
  induction tokens as [|t rest IH]; cbn [extract_tokens]; intros ops.
  - intros [= <-]. constructor.
  - destruct (as_dict t) as [d|]; [|discriminate]. cbn [rbind].
    destruct (outcome_lower d) as [outcome|]; [|discriminate]. cbn [rbind].
    destruct (extract_tokens m max_price rest) as [there|] eqn:E.
    + specialize (IH there eq_refl).
      destruct (negb (outcome =? "no")%string); cbn [rbind].
      * intros [= <-]. exact IH.
      * destruct (first_number d scan_price_keys) as [[p|]|]; cbn [rbind];
          [| |discriminate].
        -- destruct (p <=? max_price)%float eqn:B; cbn [rbind].
           ++ intros [= <-]. constructor; [|exact IH].
              split; [reflexivity|]. exists p. split; [reflexivity|exact B].
           ++ intros [= <-]. exact IH.
        -- intros [= <-]. exact IH.
    + destruct (negb (outcome =? "no")%string); cbn [rbind];
        [discriminate|].
      destruct (first_number d scan_price_keys) as [[p|]|]; cbn [rbind];
        [|discriminate|discriminate].
      destruct (p <=? max_price)%float; discriminate.
Qed.

Lemma extract_markets_scanned max_price markets : forall ops,
  extract_markets max_price markets = Ok ops ->
  Forall (scanned max_price) ops.
Proof.
  induction markets as [|m rest IH]; simpl; intros ops.
  - intros [= <-]. constructor.
  - destruct (as_dict m) as [d|]; [|discriminate]. cbn [rbind].
    destruct (iter (por (get d "tokens") (JList []))) as [tokens|];
      [|discriminate].
    cbn [rbind].
    destruct (extract_tokens d max_price tokens) as [here|] eqn:E;
      [|discriminate].
    cbn [rbind].
    destruct (extract_markets max_price rest) as [there|]; [|discriminate].
    cbn [rbind]. intros [= <-]. apply Forall_app. split.
    + apply (extract_tokens_scanned _ _ _ _ E).
    + apply IH. reflexivity.
Qed.

(** X6.  Every opportunity [_extract_no_opportunities] returns has the
    four keys [market_question], [condition_id], [token_id], [price], and
    its price is a float [p] with [p <= max_price]; unlike the market
    finder, the function sets no lower bound on it. *)
Theorem extract_no_opportunities_price_bound (markets : json)
    (max_price : float) (ops : list dict) :
  _extract_no_opportunities markets max_price = Ok ops ->
  Forall (scanned max_price) ops.
Proof.
  unfold _extract_no_opportunities.
  destruct (iter markets) as [ms|]; [|discriminate]. cbn [rbind].
  apply extract_markets_scanned.
Qed.

(** X7.  [scan_no_tokens] makes exactly one call, the fetch of the CLOB
    catalog, whether it returns or raises, and it raises when that fetch
    fails: it has no handler of its own. *)
Theorem scan_no_tokens_fetches_once (max_price : float) (l : log) :
  snd (scan_no_tokens max_price l) = Http ClobMarkets :: l
  /\ (http_answer env l ClobMarkets = None ->
      fst (scan_no_tokens max_price l) = Raise).
Proof.
  unfold scan_no_tokens, fetch_markets, bind, http_get, ret, lift.
  destruct (http_answer env l ClobMarkets) as [data|]; cbn [of_option].
  - split; [reflexivity|discriminate].
  - split; reflexivity.
Qed.

End Discovery.
End Markets.

(* ===================================================================== *)
(** * src/services/polymarket_service.py: order placement *)
(* ===================================================================== *)

Module Orders.
Import Py Net.

(** ** The minimum size in a rejection message *)

(** [l] without the prefix [p], when it has it. *)
Fixpoint strip_prefix (p l : list ascii) : option (list ascii) :=
  match p, l with
  | [], _ => Some l
  | a :: p', b :: l' => if Ascii.eqb a b then strip_prefix p' l' else None
  | _ :: _, [] => None
  end.

Fixpoint take_digits (l : list ascii) : list ascii :=
  match l with
  | c :: l' => if is_digit c then c :: take_digits l' else []
  | [] => []
  end.

(** The pattern [minimum:\s*(\d+)] matched at the head of [l]: group 1. *)
Definition match_minimum_here (l : list ascii) : option (list ascii) :=
  match strip_prefix (list_ascii_of_string "minimum:") l with
  | Some rest =>
      match take_digits (drop_spaces rest) with
      | [] => None
      | ds => Some ds
      end
  | None => None
  end.

(** [re.search]: the leftmost position where the pattern matches. *)
Fixpoint search_minimum (l : list ascii) : option (list ascii) :=
  match match_minimum_here l with
  | Some ds => Some ds
  | None =>
      match l with
      | [] => None
      | _ :: l' => search_minimum l'
      end
  end.

(** The pattern reads the digits that follow the first [minimum:] of a
    message: [pre] holds no [m], [ws] is white space, [ds] is a non-empty
    run of digits and [post] does not go on with a digit. *)
Lemma strip_prefix_app p l : strip_prefix p (p ++ l)%list = Some l.
Proof.
  induction p as [|a p IH]; simpl; [reflexivity|].
  rewrite Ascii.eqb_refl. exact IH.
Qed.

Lemma digit_not_space c : is_digit c = true -> is_space c = false.
Proof.
  destruct c as [[] [] [] [] [] [] [] []]; vm_compute; congruence.
Qed.

Lemma drop_spaces_app ws r :
  Forall (fun c => is_space c = true) ws ->
  drop_spaces (ws ++ r)%list = drop_spaces r.
Proof.
  induction 1 as [|c ws Hc _ IH]; simpl; [reflexivity|].
  rewrite Hc. exact IH.
Qed.

Lemma take_digits_app ds post :
  Forall (fun c => is_digit c = true) ds ->
  match post with c :: _ => is_digit c = false | [] => True end ->
  take_digits (ds ++ post)%list = ds.
Proof.
  intros Hd Hp. induction Hd as [|c ds Hc _ IH]; simpl.
  - destruct post as [|c post]; [reflexivity|]. simpl. rewrite Hp. reflexivity.
  - rewrite Hc, IH. reflexivity.
Qed.

Lemma search_minimum_reads pre ws ds post :
  Forall (fun c => c <> "m"%char) pre ->
  Forall (fun c => is_space c = true) ws ->
  Forall (fun c => is_digit c = true) ds -> ds <> [] ->
  match post with c :: _ => is_digit c = false | [] => True end ->
  search_minimum
    (pre ++ list_ascii_of_string "minimum:" ++ ws ++ ds ++ post)%list
  = Some ds.
Proof.
  intros Hpre Hws Hds Hne Hpost.
  assert (Here : match_minimum_here
                   (list_ascii_of_string "minimum:" ++ ws ++ ds ++ post)%list
                 = Some ds).
  { unfold match_minimum_here. rewrite strip_prefix_app.
    rewrite drop_spaces_app by exact Hws.
    destruct ds as [|d ds]; [congruence|].
    inversion Hds as [|? ? Hd Hds']; subst.
    cbn [app drop_spaces]. rewrite (digit_not_space d Hd).
    change (d :: (ds ++ post)%list) with ((d :: ds) ++ post)%list.
    rewrite take_digits_app by assumption. reflexivity. }
  induction Hpre as [|c pre Hc _ IH].
  - cbn [app]. destruct (list_ascii_of_string "minimum:" ++ _)%list eqn:E;
      cbn [search_minimum]; rewrite Here; reflexivity.
  - cbn [app search_minimum].
    replace (match_minimum_here (c :: _)) with (@None (list ascii)).
    + exact IH.
    + unfold match_minimum_here. cbn [list_ascii_of_string strip_prefix].
      destruct (Ascii.eqb_spec "m" c) as [<-|N]; [congruence|reflexivity].
Qed.

Section Placement.
Context {rt : Runtime}.
Variable env : Env.
(** [(cfg.gamma_endpoint or '').rstrip('/')] *)
Variable gamma_base : string.

(** [m = re.search(...)] and [int(m.group(1))]: [Ok None] when the pattern
    does not match. *)
Definition parse_minimum (msg : string) : res (option Z) :=
  match search_minimum (list_ascii_of_string msg) with
  | Some ds =>
      let? n := of_option (int_of_str (string_of_list_ascii ds)) in
      Ok (Some n)
  | None => Ok None
  end.

(** A message that reads [... minimum: <digits> ...], with no [m] before
    it, gives the int of the digits. *)
Lemma parse_minimum_reads pre ws ds post :
  Forall (fun c => c <> "m"%char) pre ->
  Forall (fun c => is_space c = true) ws ->
  Forall (fun c => is_digit c = true) ds -> ds <> [] ->
  match post with c :: _ => is_digit c = false | [] => True end ->
  parse_minimum
    (string_of_list_ascii
       (pre ++ list_ascii_of_string "minimum:" ++ ws ++ ds ++ post)%list)
  = (let? n := of_option (int_of_str (string_of_list_ascii ds)) in
     Ok (Some n)).
Proof.
  intros. unfold parse_minimum.
  rewrite list_ascii_of_string_of_list_ascii.
  rewrite search_minimum_reads by assumption. reflexivity.
Qed.

(** [str(getattr(e, 'error_message', None) or getattr(e, 'args', [''])[0])] *)
Definition exn_msg (e : exn) : res string :=
  let first_arg :=
    match exn_args e with
    | a :: _ => Ok (obj_str a)
    | [] => Raise
    end in
  match exn_error_message e with
  | Some o => if obj_truthy o then Ok (obj_str o) else first_arg
  | None => first_arg
  end.

(** The size the handler retries with: the minimum found in the message
    when it exceeds the requested size.  Any exception on the way leaves
    the rejection without retry. *)
Definition retry_minimum (e : exn) (max_shares : Z) : option Z :=
  match (let? msg := exn_msg e in parse_minimum msg) with
  | Ok (Some min_required) =>
      if max_shares <? min_required then Some min_required else None
  | _ => None
  end.

(** ** _resolve_clob_no_token_id *)

(** [isinstance(c, str) and c.startswith('0x') and len(c) in (64, 66)] *)
Definition is_condition_hex (c : json) : bool :=
  match c with
  | JStr s =>
      String.prefix "0x" s
      && ((String.length s =? 64)%nat || (String.length s =? 66)%nat)
  | _ => false
  end.

Definition is_nonempty_str (j : json) : bool :=
  match j with
  | JStr s => negb (s =? "")%string
  | _ => false
  end.

(** [tokens = m.get('tokens') or []; no_t = next(...); if no_t: return
    no_t.get('token_id') or no_t.get('tokenId')]: [Some v] is [return v]. *)
Definition no_token_of_market (m : json) : res (option json) :=
  let? d := as_dict m in
  let? tokens := iter (por (get d "tokens") (JList [])) in
  let? no_t := Markets.find_no "outcome" tokens in
  match no_t with
  | Some t =>
      if truthy (JDict t)
      then Ok (Some (por (get t "token_id") (get t "tokenId")))
      else Ok None
  | None => Ok None
  end.

(** [try: m = get_market(c); ...  except Exception: pass] *)
Definition token_by_condition (c : json) : M (option json) :=
  catch (let! m := get_market env c in lift (no_token_of_market m))
        (ret None).

(** The loop over the markets a slug lookup returned. *)
Fixpoint scan_by_condition (arr : list json) : M (option json) :=
  match arr with
  | [] => ret None
  | mk :: rest =>
      let! d := lift (as_dict mk) in
      let cond := por (get d "condition_id") (get d "conditionId") in
      if negb (truthy cond) then scan_by_condition rest
      else
        let! r := token_by_condition cond in
        match r with
        | Some v => ret (Some v)
        | None => scan_by_condition rest
        end
  end.

Fixpoint scan_event_tokens (tokens : list json) : res (option json) :=
  match tokens with
  | [] => Ok None
  | t :: rest =>
      let? d := as_dict t in
      if (upper (str (get d "outcome")) =? "NO")%string then
        let tid := por (get d "token_id") (por (get d "tokenId") (get d "id")) in
        if truthy tid then Ok (Some (JStr (str tid)))
        else scan_event_tokens rest
      else scan_event_tokens rest
  end.

Fixpoint scan_event_markets (mks : list json) : res (option json) :=
  match mks with
  | [] => Ok None
  | mk :: rest =>
      let? d := as_dict mk in
      let? tokens := iter (por (get d "tokens") (JList [])) in
      let? found := scan_event_tokens tokens in
      match found with
      | Some v => Ok (Some v)
      | None => scan_event_markets rest
      end
  end.

Definition _resolve_clob_no_token_id (op : dict) : M json :=
  let condition := por (get op "condition_id") (get op "marketId") in
  let! r1 :=
    if is_condition_hex condition then token_by_condition condition
    else ret None in
  match r1 with
  | Some v => ret v
  | None =>
      let has_base := negb (gamma_base =? "")%string in
      let slug := por (get op "slug") (get op "marketId") in
      let event_slug := get op "eventSlug" in
      let! r2 :=
        if has_base && is_nonempty_str slug then
          catch
            (let! data := http_get env (MarketBySlug slug) in
             scan_by_condition (Markets.as_array data))
            (ret None)
        else ret None in
      match r2 with
      | Some v => ret v
      | None =>
          let! r3 :=
            if has_base && is_nonempty_str event_slug then
              catch
                (let! data := http_get env (EventBySlug event_slug) in
                 lift (let? d := as_dict data in
                       let? mks := iter (por (get d "markets") (JList [])) in
                       scan_event_markets mks))
                (ret None)
            else ret None in
          match r3 with
          | Some v => ret v
          | None => ret JNull
          end
      end
  end.

(** ** place_buy_orders *)

(** [resp.get('order_id') or resp.get('id') or resp.get('orderId')] for a
    dict response, [None] otherwise. *)
Definition order_id_of (resp : json) : json :=
  match resp with
  | JDict d => por (get d "order_id") (por (get d "id") (get d "orderId"))
  | _ => JNull
  end.

(** [min(a, b)] as Python evaluates it. *)
Definition pymin (a b : float) : float := if (b <? a)%float then b else a.

(** [min(float(op.get('price', max_price)), max_price)] *)
Definition price_of (max_price : float) (op : dict) : res float :=
  let? p := to_float (get_or op "price" (JFloat max_price)) in
  Ok (pymin p max_price).

Definition submitted (op : dict) (order_id token_id : json) (price : float)
    (resp : json) : dict :=
  merge op [ ("status", JStr "submitted"); ("order_id", order_id);
             ("token_id", token_id); ("price", JFloat price);
             ("raw", resp) ].

Definition failed (op : dict) (error : string) : dict :=
  merge op [ ("status", JStr "error"); ("error", JStr error) ].

(** The [try] block of one opportunity and its handler. *)
Definition submit_order (op : dict) (token_id : json) (price : float)
    (max_shares : Z) : M dict :=
  fun l =>
    match post_order env token_id price max_shares l with
    | (inl resp, l1) =>
        (Ok (submitted op (order_id_of resp) token_id price resp), l1)
    | (inr e, l1) =>
        match retry_minimum e max_shares with
        | Some min_required =>
            match post_order env token_id price min_required l1 with
            | (inl resp2, l2) =>
                (Ok (set (submitted op (order_id_of resp2) token_id price
                            resp2)
                         "retryWithMin" (JInt min_required)), l2)
            | (inr e_retry, l2) =>
                (Ok (failed op
                       (String.append "retry_failed_min_size_"
                          (String.append (Z_to_string min_required)
                             (String.append ": " (exn_str e_retry))))), l2)
            end
        | None => (Ok (failed op (exn_str e)), l1)
        end
    end.

(** The token id the opportunity brings: [op.get('token_id') or
    op.get('noTokenId')]. *)
Definition own_token (op : dict) : json :=
  por (get op "token_id") (get op "noTokenId").

(** The token id the order is placed for: the opportunity's own, or the
    one looked up. *)
Definition token_for (op : dict) : M json :=
  if truthy (own_token op) then ret (own_token op)
  else _resolve_clob_no_token_id op.

(** One round of the loop. *)
Definition place_one (max_shares : Z) (max_price : float) (op : dict)
  : M dict :=
  let! token_id := token_for op in
  if negb (truthy token_id) then ret (failed op "Missing token_id")
  else
    let! price := lift (price_of max_price op) in
    submit_order op token_id price max_shares.

Fixpoint place_buy_orders (opportunities : list dict) (max_shares : Z)
    (max_price : float) : M (list dict) :=
  match opportunities with
  | [] => ret []
  | op :: rest =>
      let! result := place_one max_shares max_price op in
      let! results := place_buy_orders rest max_shares max_price in
      ret (result :: results)
  end.

(** ** One result per opportunity *)

(** The result carries status [submitted] or [error]. *)
Definition status_ok (r : dict) : Prop :=
  lookup r "status" = Some (JStr "submitted")
  \/ lookup r "status" = Some (JStr "error").

(** The result for [op]: [{**op, ...}] with one of the two statuses. *)
Definition result_for (op r : dict) : Prop :=
  status_ok r /\ exists extra, r = merge op extra.

Lemma submitted_status op oid tok price resp :
  lookup (submitted op oid tok price resp) "status" = Some (JStr "submitted").
Proof.
  unfold submitted, merge; cbn [fold_left fst snd].
  rewrite !lookup_set_other by discriminate. apply lookup_set_same.
Qed.

Lemma failed_status op error :
  lookup (failed op error) "status" = Some (JStr "error").
Proof.
  unfold failed, merge; cbn [fold_left fst snd].
  rewrite !lookup_set_other by discriminate. apply lookup_set_same.
Qed.

Lemma failed_error op error :
  lookup (failed op error) "error" = Some (JStr error).
Proof. unfold failed, merge; cbn [fold_left fst snd]. apply lookup_set_same. Qed.

Lemma result_for_failed op error : result_for op (failed op error).
Proof.
  split; [right; apply failed_status|].
  eexists. reflexivity.
Qed.

Lemma result_for_submitted op oid tok price resp :
  result_for op (submitted op oid tok price resp).
Proof.
  split; [left; apply submitted_status|].
  eexists. reflexivity.
Qed.

Lemma result_for_retried op oid tok price resp n :
  result_for op (set (submitted op oid tok price resp) "retryWithMin" n).
Proof.
  split.
  - left. rewrite lookup_set_other by discriminate. apply submitted_status.
  - exists [ ("status", JStr "submitted"); ("order_id", oid);
             ("token_id", tok); ("price", JFloat price); ("raw", resp);
             ("retryWithMin", n) ].
    reflexivity.
Qed.

Lemma submit_order_result op token_id price max_shares :
  total (result_for op) (submit_order op token_id price max_shares).
Proof.
  intros l. unfold submit_order, post_order.
  destruct (post_order_answer env l token_id price max_shares) as [resp|e];
    cbn [fst]; [apply result_for_submitted|].
  destruct (retry_minimum e max_shares) as [n|];
    [|apply result_for_failed].
  destruct (post_order_answer env _ token_id price n) as [resp2|e2];
    cbn [fst]; [apply result_for_retried|apply result_for_failed].
Qed.

Lemma token_by_condition_total c :
  total (fun _ => True) (token_by_condition c).
Proof.
  unfold token_by_condition.
  apply total_catch; [apply post_true|apply total_ret; exact I].
Qed.

Lemma resolve_clob_no_token_id_total op :
  total (fun _ => True) (_resolve_clob_no_token_id op).
Proof.
  unfold _resolve_clob_no_token_id. cbv zeta.
  apply total_bind with (Q := fun _ => True).
  { destruct (is_condition_hex _);
      [apply token_by_condition_total|apply total_ret; exact I]. }
  intros [v|] _; [apply total_ret; exact I|].
  apply total_bind with (Q := fun _ => True).
  { destruct (_ && _); [|apply total_ret; exact I].
    apply total_catch; [apply post_true|apply total_ret; exact I]. }
  intros [v|] _; [apply total_ret; exact I|].
  apply total_bind with (Q := fun _ => True).
  { destruct (_ && _); [|apply total_ret; exact I].
    apply total_catch; [apply post_true|apply total_ret; exact I]. }
  intros [v|] _; apply total_ret; exact I.
Qed.

Lemma place_one_result max_shares max_price op p :
  price_of max_price op = Ok p ->
  total (result_for op) (place_one max_shares max_price op).
Proof.
  intros Hp. unfold place_one, token_for.
  apply total_bind with (Q := fun _ => True).
  { destruct (truthy (own_token op));
      [apply total_ret; exact I|apply resolve_clob_no_token_id_total]. }
  intros token_id _.
  destruct (negb (truthy token_id));
    [apply total_ret, result_for_failed|].
  rewrite Hp.
  apply total_bind with (Q := fun _ => True); [intros l; exact I|].
  intros price _. apply submit_order_result.
Qed.

Lemma place_buy_orders_results max_shares max_price opportunities :
  Forall (fun op => exists p, price_of max_price op = Ok p) opportunities ->
  total (Forall2 result_for opportunities)
        (place_buy_orders opportunities max_shares max_price).
Proof.
  induction 1 as [|op rest [p Hp] _ IH]; cbn [place_buy_orders].
  - apply total_ret. constructor.
  - apply total_bind with (Q := result_for op);
      [apply (place_one_result _ _ _ _ Hp)|].
    intros r Hr.
    apply total_bind with (Q := Forall2 result_for rest); [exact IH|].
    intros rs Hrs. apply total_ret. constructor; assumption.
Qed.

(** X23.  When the price of every opportunity is absent or a number,
    [place_buy_orders] returns, whatever the exchange and the lookups
    answer, one result per opportunity, in order, each the opportunity
    extended with status [submitted] or [error].  An opportunity without
    a token id whose lookup yields none gets the error result
    [Missing token_id], no order is posted for it, and the batch goes on
    with the remaining opportunities. *)
Theorem place_buy_orders_best_effort (opportunities : list dict)
    (max_shares : Z) (max_price : float) (l : log) :
  (Forall (fun op => exists p, price_of max_price op = Ok p) opportunities ->
   exists results,
     fst (place_buy_orders opportunities max_shares max_price l) = Ok results
     /\ List.length results = List.length opportunities
     /\ Forall2 result_for opportunities results)
  /\ (forall op rest v l1,
        opportunities = op :: rest ->
        truthy (own_token op) = false ->
        _resolve_clob_no_token_id op l = (Ok v, l1) ->
        truthy v = false ->
        lookup (failed op "Missing token_id") "error"
          = Some (JStr "Missing token_id")
        /\ place_buy_orders opportunities max_shares max_price l
           = match place_buy_orders rest max_shares max_price l1 with
             | (Ok results, l2) =>
                 (Ok (failed op "Missing token_id" :: results), l2)
             | (Raise, l2) => (Raise, l2)
             end).
Proof.
  split.
  - intros H.
    pose proof (place_buy_orders_results max_shares max_price _ H l) as T.
    destruct (fst (place_buy_orders opportunities max_shares max_price l))
      as [results|]; [|destruct T].
    exists results. split; [reflexivity|]. split; [|exact T].
    symmetry. eapply Forall2_length. exact T.
  - intros op rest v l1 -> Hown Hres Hv.
    split; [apply failed_error|].
    cbn [place_buy_orders]. unfold bind at 1. unfold place_one, token_for.
    rewrite Hown. unfold bind at 1. rewrite Hres, Hv. cbn [negb].
    unfold ret at 1. unfold bind.
    destruct (place_buy_orders rest max_shares max_price l1) as [[rs|] l2];
      reflexivity.
Qed.

(** ** The retry on a reported minimum size *)

Lemma retry_minimum_iff e max_shares n :
  retry_minimum e max_shares = Some n
  <-> exists msg,
        exn_msg e = Ok msg /\ parse_minimum msg = Ok (Some n)
        /\ max_shares < n.
Proof.
  unfold retry_minimum. split.
  - destruct (exn_msg e) as [msg|]; cbn [rbind]; [|discriminate].
    destruct (parse_minimum msg) as [[m|]|] eqn:P; try discriminate.
    destruct (max_shares <? m) eqn:E; [|discriminate].
    intros [= <-]. exists msg. split; [reflexivity|]. split; [exact P|].
    apply Z.ltb_lt, E.
  - intros (msg & -> & Hp & Hlt). cbn [rbind]. rewrite Hp.
    rewrite (proj2 (Z.ltb_lt max_shares n) Hlt). reflexivity.
Qed.


(** ** The calls of the token lookup *)

(** The three lookups of [_resolve_clob_no_token_id]. *)
Definition is_lookup (c : call) : bool :=
  match c with
  | GetMarket _ | Http (MarketBySlug _) | Http (EventBySlug _) => true
  | _ => false
  end.

Local Ltac calls_step lem_ret lem_lift lem_bind lem_catch lem_http lem_market :=
  match goal with
  | |- _ _ (ret _) => apply lem_ret
  | |- _ _ (lift _) => apply lem_lift
  | |- _ _ (http_get _ _) => apply lem_http; reflexivity
  | |- _ _ (get_market _ _) => apply lem_market; reflexivity
  | |- _ _ (bind _ _) => apply lem_bind; [|intros ?]
  | |- _ _ (catch _ _) => apply lem_catch
  | |- _ _ (if ?b then _ else _) => destruct b
  | |- _ _ (match ?o with Some _ => _ | None => _ end) => destruct o
  end.

Local Ltac logs_auto :=
  repeat calls_step @logs_ret @logs_lift @logs_bind @logs_catch
                    logs_http_get logs_get_market.

Lemma token_by_condition_logs c :
  logs (fun c => is_lookup c = true) (token_by_condition c).
Proof. unfold token_by_condition. logs_auto. Qed.

Lemma scan_by_condition_logs arr :
  logs (fun c => is_lookup c = true) (scan_by_condition arr).
Proof.
  induction arr as [|mk rest IH]; cbn [scan_by_condition]; [apply logs_ret|].
  apply logs_bind; [apply logs_lift|]. intros d.
  destruct (negb _); [exact IH|].
  apply logs_bind; [apply token_by_condition_logs|].
  intros [v|]; [apply logs_ret|exact IH].
Qed.

Lemma resolve_clob_no_token_id_logs op :
  logs (fun c => is_lookup c = true) (_resolve_clob_no_token_id op).
Proof.
  unfold _resolve_clob_no_token_id. cbv zeta.
  apply logs_bind.
  { destruct (is_condition_hex _);
      [apply token_by_condition_logs|apply logs_ret]. }
  intros [v|]; [apply logs_ret|].
  apply logs_bind.
  { destruct (_ && _); [|apply logs_ret].
    apply logs_catch; [|apply logs_ret].
    apply logs_bind; [apply logs_http_get; reflexivity|].
    intros data. apply scan_by_condition_logs. }
  intros [v|]; [apply logs_ret|].
  apply logs_bind; [|intros [v|]; apply logs_ret].
  destruct (_ && _); [|apply logs_ret]. logs_auto.
Qed.

Lemma token_by_condition_no_http c :
  adds_at_most is_http_call 0 (token_by_condition c).
Proof.
  unfold token_by_condition.
  apply adds_none_catch; [|apply adds_ret].
  apply adds_none_bind; [apply adds_none_get_market; reflexivity|].
  intros m. apply adds_lift.
Qed.

Lemma scan_by_condition_no_http arr :
  adds_at_most is_http_call 0 (scan_by_condition arr).
Proof.
  induction arr as [|mk rest IH]; cbn [scan_by_condition]; [apply adds_ret|].
  apply adds_none_bind; [apply adds_lift|]. intros d.
  destruct (negb _); [exact IH|].
  apply adds_none_bind; [apply token_by_condition_no_http|].
  intros [v|]; [apply adds_ret|exact IH].
Qed.

Lemma resolve_clob_no_token_id_http op :
  adds_at_most is_http_call 2 (_resolve_clob_no_token_id op)
  /\ (gamma_base = "" ->
      adds_at_most is_http_call 0 (_resolve_clob_no_token_id op)).
Proof.
  unfold _resolve_clob_no_token_id. cbv zeta. split.
  - apply (adds_bind is_http_call 0 2).
    { destruct (is_condition_hex _);
        [apply token_by_condition_no_http|apply adds_ret]. }
    intros [v|]; [apply (adds_weaken _ 0); [lia|apply adds_ret]|].
    apply (adds_bind is_http_call 1 1).
    { destruct (_ && _); [|apply (adds_weaken _ 0); [lia|apply adds_ret]].
      apply (adds_catch is_http_call 1 0); [|apply adds_ret].
      apply (adds_bind is_http_call 1 0); [apply adds_http_get|].
      intros data. apply scan_by_condition_no_http. }
    intros [v|]; [apply (adds_weaken _ 0); [lia|apply adds_ret]|].
    apply (adds_bind is_http_call 1 0);
      [|intros [v|]; apply adds_ret].
    destruct (_ && _); [|apply (adds_weaken _ 0); [lia|apply adds_ret]].
    apply (adds_catch is_http_call 1 0); [|apply adds_ret].
    apply (adds_bind is_http_call 1 0); [apply adds_http_get|].
    intros data. apply adds_lift.
  - intros ->. cbn [String.eqb negb andb].
    apply adds_none_bind.
    { destruct (is_condition_hex _);
        [apply token_by_condition_no_http|apply adds_ret]. }
    intros [v|]; [apply adds_ret|].
    apply adds_none_bind; [apply adds_ret|].
    intros [v|]; [apply adds_ret|].
    apply adds_none_bind; [apply adds_ret|].
    intros [v|]; apply adds_ret.
Qed.

(** X8.  [_resolve_clob_no_token_id] never raises.  Every call it makes
    is one of its three lookups (the exchange's record of a condition, the
    market by slug, the event by slug): it posts no order.  It makes at
    most two HTTP requests, and none when no Gamma endpoint is
    configured. *)
Theorem resolve_clob_no_token_id_calls (op : dict) (l : log) :
  exists v added,
    _resolve_clob_no_token_id op l = (Ok v, (added ++ l)%list)
    /\ Forall (fun c => is_lookup c = true) added
    /\ (count is_http_call added <= 2)%nat
    /\ (gamma_base = "" -> count is_http_call added = 0%nat).
Proof.
  pose proof (resolve_clob_no_token_id_total op l) as T.
  destruct (resolve_clob_no_token_id_logs op l) as (added & E & F).
  destruct (resolve_clob_no_token_id_http op) as [H2 H0].
  specialize (H2 l).
  destruct (_resolve_clob_no_token_id op l) as [[v|] l1] eqn:R;
    [|destruct T].
  simpl in E, H2. subst l1. rewrite count_app in H2.
  exists v, added. split; [reflexivity|]. split; [exact F|].
  split; [lia|].
  intros Hb. specialize (H0 Hb l). rewrite R in H0. simpl in H0.
  rewrite count_app in H0. lia.
Qed.

(** ** What is posted to the exchange *)

(** A call of a batch: an order within its limits, whose price does not
    exceed [max_price] and whose size is at least [max_shares], or one of
    the token lookups. *)
Definition order_within (max_shares : Z) (max_price : float) (c : call)
  : Prop :=
  match c with
  | PostOrder _ price size =>
      (max_price <? price)%float = false /\ max_shares <= size
  | _ => is_lookup c = true
  end.

Lemma ltb_irrefl (x : float) : (x <? x)%float = false.
Proof.
  rewrite FloatAxioms.ltb_spec. unfold SFltb.
  destruct (Prim2SF x) as [s|s| |s m e] eqn:E.
  - destruct s; reflexivity.
  - destruct s; reflexivity.
  - reflexivity.
  - rewrite FloatFacts.SFcompare_refl by discriminate. reflexivity.
Qed.

Lemma pymin_bound a b : (b <? pymin a b)%float = false.
Proof.
  unfold pymin. destruct (b <? a)%float eqn:E; [apply ltb_irrefl|exact E].
Qed.

Lemma lookups_within max_shares max_price (added : log) :
  Forall (fun c => is_lookup c = true) added ->
  Forall (order_within max_shares max_price) added
  /\ count is_post_order added = 0%nat.
Proof.
  induction 1 as [|c added Hc _ [IH1 IH2]]; [split; [constructor|reflexivity]|].
  destruct c; try discriminate Hc;
    (split; [constructor; [exact Hc|exact IH1]|]); exact IH2.
Qed.

Lemma submit_order_trace op token_id price max_shares max_price l :
  (max_price <? price)%float = false ->
  exists added,
    snd (submit_order op token_id price max_shares l) = (added ++ l)%list
    /\ Forall (order_within max_shares max_price) added
    /\ (count is_post_order added <= 2)%nat.
Proof.
  intros Hp. unfold submit_order, post_order.
  destruct (post_order_answer env l token_id price max_shares) as [resp|e].
  - exists [PostOrder token_id price max_shares]. split; [reflexivity|].
    split; [|unfold count; simpl; lia].
    constructor; [|constructor]. split; [exact Hp|lia].
  - destruct (retry_minimum e max_shares) as [n|] eqn:R.
    + apply retry_minimum_iff in R. destruct R as (msg & _ & _ & Hlt).
      exists [PostOrder token_id price n;
              PostOrder token_id price max_shares].
      split; [destruct (post_order_answer env _ token_id price n);
              reflexivity|].
      split; [|unfold count; simpl; lia].
      constructor; [split; [exact Hp|lia]|].
      constructor; [split; [exact Hp|lia]|constructor].
    + exists [PostOrder token_id price max_shares]. split; [reflexivity|].
      split; [|unfold count; simpl; lia].
      constructor; [|constructor]. split; [exact Hp|lia].
Qed.

Lemma token_for_logs op :
  logs (fun c => is_lookup c = true) (token_for op).
Proof.
  unfold token_for. destruct (truthy (own_token op));
    [apply logs_ret|apply resolve_clob_no_token_id_logs].
Qed.

Lemma place_one_trace max_shares max_price op l :
  exists added,
    snd (place_one max_shares max_price op l) = (added ++ l)%list
    /\ Forall (order_within max_shares max_price) added
    /\ (count is_post_order added <= 2)%nat.
Proof.
  unfold place_one, bind.
  destruct (token_for_logs op l) as (a1 & E1 & F1).
  destruct (lookups_within max_shares max_price a1 F1) as [W1 C1].
  destruct (token_for op l) as [[token_id|] l1]; simpl in E1; subst l1;
    [|exists a1; split; [reflexivity|]; split; [exact W1|lia]].
  destruct (negb (truthy token_id));
    [exists a1; split; [reflexivity|]; split; [exact W1|lia]|].
  unfold lift, price_of.
  destruct (to_float (get_or op "price" (JFloat max_price))) as [p|];
    cbn [rbind];
    [|exists a1; split; [reflexivity|]; split; [exact W1|lia]].
  destruct (submit_order_trace op token_id (pymin p max_price) max_shares
              max_price (a1 ++ l)%list (pymin_bound p max_price))
    as (a2 & E2 & W2 & C2).
  exists (a2 ++ a1)%list. rewrite E2, List.app_assoc.
  split; [reflexivity|]. split; [apply Forall_app; split; assumption|].
  rewrite count_app. lia.
Qed.

Lemma place_buy_orders_trace (opportunities : list dict)
    (max_shares : Z) (max_price : float) (l : log) :
  exists added,
    snd (place_buy_orders opportunities max_shares max_price l)
    = (added ++ l)%list
    /\ Forall (order_within max_shares max_price) added
    /\ (count is_post_order added <= 2 * List.length opportunities)%nat.
Proof.
  revert l. induction opportunities as [|op rest IH]; intros l.
  - exists []. split; [reflexivity|]. split; [constructor|unfold count; simpl; lia].
  - cbn [place_buy_orders]. unfold bind at 1.
    destruct (place_one_trace max_shares max_price op l)
      as (a1 & E1 & W1 & C1).
    destruct (place_one max_shares max_price op l) as [[result|] l1];
      simpl in E1; subst l1;
      [|exists a1; split; [reflexivity|]; split; [exact W1|simpl; lia]].
    unfold bind, ret.
    destruct (IH (a1 ++ l)%list) as (a2 & E2 & W2 & C2).
    exists (a2 ++ a1)%list. split.
    { destruct (place_buy_orders rest max_shares max_price (a1 ++ l)%list)
        as [[results|] l2]; simpl in *; subst l2; apply List.app_assoc. }
    split; [apply Forall_app; split; assumption|].
    rewrite count_app. simpl. lia.
Qed.

(** X9.  Whatever the opportunities hold and whatever the exchange
    answers, every order [place_buy_orders] posts has a price that does
    not exceed [max_price] (the opportunity's price is capped by it) and a
    size of at least [max_shares] (the requested size, or a reported
    minimum above it), and at most two orders are posted per opportunity.
    The other calls it adds are token lookups. *)
Theorem place_buy_orders_order_limits (opportunities : list dict)
    (max_shares : Z) (max_price : float) (l : log) :
  exists added,
    snd (place_buy_orders opportunities max_shares max_price l)
    = (added ++ l)%list
    /\ Forall (order_within max_shares max_price) added
    /\ (count is_post_order added <= 2 * List.length opportunities)%nat.
Proof. apply place_buy_orders_trace. Qed.

(** X10.  The pattern [minimum:\s*(\d+)] reads the digits that follow the
    first [minimum:] of a message: when no [m] comes before it, the run
    of digits after the optional white space, up to the first character
    that is not a digit, is what [int] is given. *)
Theorem parse_minimum_first_match (pre ws ds post : list ascii) :
  Forall (fun c => c <> "m"%char) pre ->
  Forall (fun c => is_space c = true) ws ->
  Forall (fun c => is_digit c = true) ds -> ds <> [] ->
  match post with c :: _ => is_digit c = false | [] => True end ->
  search_minimum
    (pre ++ list_ascii_of_string "minimum:" ++ ws ++ ds ++ post)%list
  = Some ds
  /\ parse_minimum
       (string_of_list_ascii
          (pre ++ list_ascii_of_string "minimum:" ++ ws ++ ds ++ post)%list)
     = (let? n := of_option (int_of_str (string_of_list_ascii ds)) in
        Ok (Some n)).
Proof.
  intros Hpre Hws Hds Hne Hpost. split.
  - apply search_minimum_reads; assumption.
  - apply parse_minimum_reads; assumption.
Qed.

End Placement.
End Orders.

(* ===================================================================== *)
(** * src/utils/settings_store.py *)
(* ===================================================================== *)

Module Settings.
Import Py.

(** The fields of [Config] that the defaults are taken from. *)
Record Config : Type := {
  max_price_no_tokens : float;
  max_order_size : Z;
  sell_target_price : float;
  auto_order : bool;
}.

Section Store.
Context {rt : Runtime}.
Variable cfg : Config.

(** The settings file is modelled by the document it holds: [_read_all]
    returns it and [_write_all] replaces it. *)
Definition store : Type := json.

Definition _default_settings : dict :=
  [ ("maxPriceNoTokens", JFloat (max_price_no_tokens cfg));
    ("maxOrderSize", JInt (max_order_size cfg));
    ("sellTargetPrice", JFloat (sell_target_price cfg));
    ("autoPlaceOrders", JBool (auto_order cfg)) ].

(** [str(chat_id)] *)
Definition key_of (chat_id : Z) : string := Z_to_string chat_id.

Definition get_settings_for_chat (st : store) (chat_id : Z)
  : res (json * store) :=
  let? all_settings := as_dict st in
  let key := key_of chat_id in
  let existing := get all_settings key in
  if truthy existing then Ok (existing, st)
  else
    let defaults := JDict _default_settings in
    Ok (defaults, JDict (set all_settings key defaults)).

Definition update_settings_for_chat (st : store) (chat_id : Z) (patch : dict)
  : res (dict * store) :=
  let? all_settings := as_dict st in
  let key := key_of chat_id in
  let? current := as_dict (por (get all_settings key) (JDict [])) in
  let next_settings := merge (merge _default_settings current) patch in
  Ok (next_settings, JDict (set all_settings key (JDict next_settings))).

Definition increment_size_for_chat (st : store) (chat_id : Z) (delta : Z)
  : res (dict * store) :=
  let? all_settings := as_dict st in
  let key := key_of chat_id in
  let? current :=
    as_dict (por (get all_settings key) (JDict _default_settings)) in
  let? stored := to_int (get_or current "maxOrderSize" (JInt 1)) in
  let size := Z.max 1 (stored + delta) in
  let next_settings := merge current [("maxOrderSize", JInt size)] in
  Ok (next_settings, JDict (set all_settings key (JDict next_settings))).

(** The stored order size of the chat can be read as an int. *)
Definition size_readable (st : store) (chat_id : Z) : Prop :=
  exists all_settings current stored,
    st = JDict all_settings
    /\ as_dict (por (get all_settings (key_of chat_id))
                    (JDict _default_settings)) = Ok current
    /\ to_int (get_or current "maxOrderSize" (JInt 1)) = Ok stored.

Lemma increment_size_returns st chat_id delta next_settings st' :
  increment_size_for_chat st chat_id delta = Ok (next_settings, st') ->
  exists size all_settings,
    lookup next_settings "maxOrderSize" = Some (JInt size)
    /\ 1 <= size
    /\ st' = JDict all_settings
    /\ lookup all_settings (key_of chat_id) = Some (JDict next_settings).
Proof.
  unfold increment_size_for_chat.
  destruct (as_dict st) as [all_settings|]; cbn [rbind]; [|discriminate].
  destruct (as_dict (por (get all_settings (key_of chat_id))
                         (JDict _default_settings)))
    as [current|]; cbn [rbind]; [|discriminate].
  destruct (to_int (get_or current "maxOrderSize" (JInt 1)))
    as [stored|]; cbn [rbind]; [|discriminate].
  intros [= <- <-].
  exists (Z.max 1 (stored + delta)), (set all_settings (key_of chat_id)
    (JDict (merge current [("maxOrderSize", JInt (Z.max 1 (stored + delta)))]))).
  split; [apply lookup_set_same|]. split; [lia|].
  split; [reflexivity|apply lookup_set_same].
Qed.

(** C10.  Whenever [increment_size_for_chat] returns, for any chat id and
    any delta, the settings it returns carry a [maxOrderSize] of at least
    1 and are what the store then holds for the chat, so that reading the
    chat's settings back gives them; and it returns whenever the stored
    size can be read as an int. *)
Theorem increment_size_floor (st : store) (chat_id delta : Z) :
  (forall next_settings st',
     increment_size_for_chat st chat_id delta = Ok (next_settings, st') ->
     (exists size,
        lookup next_settings "maxOrderSize" = Some (JInt size) /\ 1 <= size)
     /\ get_settings_for_chat st' chat_id = Ok (JDict next_settings, st'))
  /\ (size_readable st chat_id ->
      exists next_settings st',
        increment_size_for_chat st chat_id delta = Ok (next_settings, st')).
Proof.
  split.
  - intros next_settings st' H.
    destruct (increment_size_returns _ _ _ _ _ H)
      as (size & all_settings & Hs & Hle & -> & Hk).
    split; [exists size; split; assumption|].
    unfold get_settings_for_chat. cbn [as_dict rbind].
    unfold get. rewrite Hk.
    destruct next_settings as [|kv rest]; [discriminate Hs|]. reflexivity.
  - intros (all_settings & current & stored & -> & Hc & Hi).
    unfold increment_size_for_chat. cbn [as_dict rbind].
    rewrite Hc. cbn [rbind]. rewrite Hi. cbn [rbind].
    eexists _, _. reflexivity.
Qed.

(** ** Chat keys *)

Lemma to_int_not_nil z :
  Z.to_int z <> Decimal.Pos Decimal.Nil
  /\ Z.to_int z <> Decimal.Neg Decimal.Nil.
Proof.
  destruct z as [|p|p]; simpl; split; try discriminate;
    intros [= H]; apply (DecimalPos.Unsigned.to_uint_nonnil p H).
Qed.

(** Distinct chats have distinct keys in the settings document. *)
Lemma key_of_inj a b : key_of a = key_of b -> a = b.
Proof.
  unfold key_of, Z_to_string. intros H.
  apply (f_equal NilZero.int_of_string) in H.
  destruct (to_int_not_nil a) as [Ha1 Ha2].
  destruct (to_int_not_nil b) as [Hb1 Hb2].
  rewrite !NilZero.isi in H by assumption.
  injection H as H. apply DecimalZ.to_int_inj, H.
Qed.

(** What the document holds for a chat. *)
Definition stored_for (st : store) (chat_id : Z) : option json :=
  match st with
  | JDict all_settings => lookup all_settings (key_of chat_id)
  | _ => None
  end.

Lemma stored_for_set_other all_settings chat_id v other :
  other <> chat_id ->
  stored_for (JDict (set all_settings (key_of chat_id) v)) other
  = stored_for (JDict all_settings) other.
Proof.
  intros N. unfold stored_for. apply lookup_set_other.
  intros E. apply N. symmetry. apply key_of_inj, E.
Qed.

(** ** Merging records *)

Lemma set_nonempty (d : dict) k v : set d k v <> [].
Proof.
  destruct d as [|[k0 v0] d]; simpl; [discriminate|].
  destruct (k0 =? k)%string; discriminate.
Qed.

Lemma merge_nonempty (e d : dict) : d <> [] -> merge d e <> [].
Proof.
  unfold merge. revert d.
  induction e as [|[k v] e IH]; intros d H; simpl; [exact H|].
  apply IH, set_nonempty.
Qed.

Lemma lookup_absent (e : dict) k : ~ In k (map fst e) -> lookup e k = None.
Proof.
  induction e as [|[k0 v0] e IH]; simpl; intros H; [reflexivity|].
  destruct (String.eqb_spec k0 k) as [->|N]; [tauto|].
  apply IH. tauto.
Qed.

(** [{**d, **e}[k]] for a record [e] (its keys are distinct). *)
Lemma lookup_merge (e d : dict) k :
  List.NoDup (map fst e) ->
  lookup (merge d e) k
  = match lookup e k with Some v => Some v | None => lookup d k end.
Proof.
  unfold merge. revert d.
  induction e as [|[k0 v0] e IH]; intros d H; simpl; [reflexivity|].
  inversion H as [|? ? Hn Hd]; subst.
  rewrite (IH _ Hd).
  destruct (String.eqb_spec k0 k) as [->|N].
  - rewrite (lookup_absent e k Hn). apply lookup_set_same.
  - rewrite (lookup_set_other d k0 v0 k N). reflexivity.
Qed.

Lemma lookup_merge_present (e d : dict) k :
  lookup d k <> None -> lookup (merge d e) k <> None.
Proof.
  unfold merge. revert d.
  induction e as [|[k0 v0] e IH]; intros d H; simpl; [exact H|].
  apply IH. destruct (String.eqb_spec k0 k) as [->|N].
  - rewrite lookup_set_same. discriminate.
  - rewrite (lookup_set_other d k0 v0 k N). exact H.
Qed.

Lemma set_set (d : dict) k v w : set (set d k v) k w = set d k w.
Proof.
  induction d as [|[k0 v0] d IH]; simpl.
  - rewrite String.eqb_refl. reflexivity.
  - destruct (k0 =? k)%string eqn:E; simpl.
    + rewrite String.eqb_refl. reflexivity.
    + rewrite E, IH. reflexivity.
Qed.

Lemma truthy_nonempty (d : dict) : d <> [] -> truthy (JDict d) = true.
Proof. destruct d; [congruence|reflexivity]. Qed.

(** ** Reading, patching and incrementing *)

(** What a read returns is what the document then holds for the chat. *)
Lemma get_settings_stored st chat_id s st' :
  get_settings_for_chat st chat_id = Ok (s, st') ->
  stored_for st' chat_id = Some s.
Proof.
  unfold get_settings_for_chat.
  destruct st as [| | | | | |all_settings]; try discriminate.
  cbn [as_dict rbind]. unfold get.
  destruct (lookup all_settings (key_of chat_id)) as [existing|] eqn:L.
  - destruct (truthy existing); intros [= <- <-];
      [exact L|apply lookup_set_same].
  - cbn [truthy]. intros [= <- <-]. apply lookup_set_same.
Qed.

(** X11.  [get_settings_for_chat] returns settings that are never empty:
    what the document holds for the chat when that is not empty, in which
    case the document is left as it is, and the configured defaults
    otherwise, which it then stores for the chat.  A second read returns
    the same settings and writes nothing new, and the settings of every
    other chat are untouched. *)
Theorem get_settings_for_chat_lazy_defaults (st : store) (chat_id : Z)
    (s : json) (st' : store) :
  get_settings_for_chat st chat_id = Ok (s, st') ->
  truthy s = true
  /\ match stored_for st chat_id with
     | Some existing =>
         if truthy existing then s = existing /\ st' = st
         else s = JDict _default_settings
     | None => s = JDict _default_settings
     end
  /\ stored_for st' chat_id = Some s
  /\ get_settings_for_chat st' chat_id = Ok (s, st')
  /\ (forall other, other <> chat_id ->
        stored_for st' other = stored_for st other).
Proof.
  unfold get_settings_for_chat.
  destruct st as [| | | | | |all_settings]; try discriminate.
  cbn [as_dict rbind stored_for]. unfold get.
  destruct (lookup all_settings (key_of chat_id)) as [existing|] eqn:L.
  - destruct (truthy existing) eqn:T.
    + intros [= <- <-]. split; [exact T|]. split; [auto|].
      split; [exact L|]. split; [|reflexivity].
      cbn [as_dict rbind]. rewrite L, T. reflexivity.
    + intros [= <- <-]. split; [reflexivity|]. split; [reflexivity|].
      split; [apply lookup_set_same|]. split.
      * cbn [as_dict rbind stored_for]. rewrite lookup_set_same. reflexivity.
      * intros other N. apply stored_for_set_other, N.
  - cbn [truthy]. intros [= <- <-].
    split; [reflexivity|]. split; [reflexivity|].
    split; [apply lookup_set_same|]. split.
    + cbn [as_dict rbind stored_for]. rewrite lookup_set_same. reflexivity.
    + intros other N. apply stored_for_set_other, N.
Qed.

(** X12.  After [update_settings_for_chat] with a patch (a record, so its
    keys are distinct), the chat's settings hold every field of the patch
    with the patch's value, hold every default field, and keep the stored
    value of every field the patch does not name; they are what a read
    then returns, and the settings of every other chat are untouched. *)
Theorem update_settings_for_chat_patch (st : store) (chat_id : Z)
    (patch next_settings : dict) (st' : store) :
  update_settings_for_chat st chat_id patch = Ok (next_settings, st') ->
  List.NoDup (map fst patch) ->
  (forall k v, lookup patch k = Some v -> lookup next_settings k = Some v)
  /\ (forall k, lookup _default_settings k <> None ->
        lookup next_settings k <> None)
  /\ (forall current k v,
        stored_for st chat_id = Some (JDict current) ->
        List.NoDup (map fst current) ->
        lookup patch k = None -> lookup current k = Some v ->
        lookup next_settings k = Some v)
  /\ get_settings_for_chat st' chat_id = Ok (JDict next_settings, st')
  /\ (forall other, other <> chat_id ->
        stored_for st' other = stored_for st other).
Proof.
  unfold update_settings_for_chat.
  destruct st as [| | | | | |all_settings]; try discriminate.
  cbn [as_dict rbind].
  destruct (as_dict (por (get all_settings (key_of chat_id)) (JDict [])))
    as [current|] eqn:C; [|discriminate].
  cbn [rbind]. intros [= <- <-] Hp.
  split; [|split; [|split; [|split]]].
  - intros k v Hk. rewrite (lookup_merge patch _ k Hp), Hk. reflexivity.
  - intros k Hk. apply lookup_merge_present, lookup_merge_present, Hk.
  - intros cur k v Hs Hd Hk Hv. cbn [stored_for] in Hs.
    rewrite (lookup_merge patch _ k Hp), Hk.
    assert (current = cur) as ->.
    { unfold get in C. rewrite Hs in C. unfold por in C.
      destruct cur as [|kv cur]; [discriminate Hv|].
      cbn [truthy as_dict] in C. congruence. }
    rewrite (lookup_merge cur _ k Hd), Hv. reflexivity.
  - unfold get_settings_for_chat. cbn [as_dict rbind]. unfold get.
    rewrite lookup_set_same.
    rewrite truthy_nonempty; [reflexivity|].
    apply merge_nonempty, merge_nonempty. discriminate.
  - intros other N. apply stored_for_set_other, N.
Qed.

(** X13.  [increment_size_for_chat] changes one thing: the chat's
    [maxOrderSize] becomes exactly [max(1, stored + delta)], where
    [stored] is the int read from the chat's settings (the defaults for a
    chat without any).  Every other field of those settings and the
    settings of every other chat are as before. *)
Theorem increment_size_for_chat_frame (st : store) (chat_id delta : Z)
    (next_settings : dict) (st' : store) :
  increment_size_for_chat st chat_id delta = Ok (next_settings, st') ->
  exists all_settings current stored,
    st = JDict all_settings
    /\ as_dict (por (get all_settings (key_of chat_id))
                    (JDict _default_settings)) = Ok current
    /\ to_int (get_or current "maxOrderSize" (JInt 1)) = Ok stored
    /\ lookup next_settings "maxOrderSize"
       = Some (JInt (Z.max 1 (stored + delta)))
    /\ (forall k, k <> "maxOrderSize" ->
          lookup next_settings k = lookup current k)
    /\ (forall other, other <> chat_id ->
          stored_for st' other = stored_for st other).
Proof.
  unfold increment_size_for_chat.
  destruct st as [| | | | | |all_settings]; try discriminate.
  cbn [as_dict rbind].
  destruct (as_dict (por (get all_settings (key_of chat_id))
                         (JDict _default_settings)))
    as [current|] eqn:C; cbn [rbind]; [|discriminate].
  destruct (to_int (get_or current "maxOrderSize" (JInt 1)))
    as [stored|] eqn:I; cbn [rbind]; [|discriminate].
  intros [= <- <-].
  exists all_settings, current, stored.
  split; [reflexivity|]. split; [exact C|]. split; [exact I|].
  unfold merge; cbn [fold_left fst snd].
  split; [apply lookup_set_same|]. split.
  - intros k N. apply lookup_set_other. congruence.
  - intros other N. apply stored_for_set_other, N.
Qed.

(** X14.  Increments add up: when the first of two increments is not cut
    off at 1, making them one after the other leaves the same settings
    and the same document as one increment by their sum. *)
Theorem increment_size_for_chat_adds (st : store) (chat_id a b : Z)
    (all_settings current : dict) (stored : Z) :
  st = JDict all_settings ->
  as_dict (por (get all_settings (key_of chat_id))
               (JDict _default_settings)) = Ok current ->
  to_int (get_or current "maxOrderSize" (JInt 1)) = Ok stored ->
  1 <= stored + a ->
  exists next_settings st1,
    increment_size_for_chat st chat_id a = Ok (next_settings, st1)
    /\ increment_size_for_chat st1 chat_id b
       = increment_size_for_chat st chat_id (a + b).
Proof.
  intros -> C I Ha. unfold increment_size_for_chat.
  cbn [as_dict rbind]. rewrite C. cbn [rbind]. rewrite I. cbn [rbind].
  eexists _, _. split; [reflexivity|].
  cbn [as_dict rbind]. unfold get at 1. rewrite lookup_set_same.
  unfold merge; cbn [fold_left fst snd].
  unfold por. rewrite truthy_nonempty by apply set_nonempty.
  cbn [as_dict rbind]. unfold get_or. rewrite lookup_set_same.
  cbn [to_int rbind]. rewrite !set_set.
  replace (Z.max 1 (Z.max 1 (stored + a) + b))
    with (Z.max 1 (stored + (a + b))) by lia.
  reflexivity.
Qed.

End Store.
End Settings.

(* ===================================================================== *)
(** * src/services/telegram_service.py: the scanner registry *)
(* ===================================================================== *)

Module Registry.

(** The module-level [scanning_tasks] dict, the scanner tasks of the
    event loop and the handlers that are waiting.  A task is known by a
    handle; [running] lists the scanner tasks that were created and have
    neither been cancelled nor ended, each with the chat it scans for.
    The application is built with [concurrent_updates(True)]: while a
    handler awaits the sending of its reply, the next update is
    dispatched.  A handler runs without interruption from one [await] to
    the next; [suspended] lists the chats of the [scan_cmd] handlers that
    passed the test and await the reply "Started scanning.", with the
    creation and registration of their task still to come. *)
Record state : Type := {
  scanning_tasks : gmap Z nat;
  running : list (nat * Z);
  next_task : nat;
  replies : list (Z * string);
  suspended : list Z;
}.

Definition initial : state :=
  {| scanning_tasks := ∅; running := []; next_task := 0; replies := [];
     suspended := [] |}.

(** [await update.effective_message.reply_text(text)] *)
Definition reply (chat_id : Z) (text : string) (s : state) : state :=
  {| scanning_tasks := scanning_tasks s;
     running := running s;
     next_task := next_task s;
     replies := (chat_id, text) :: replies s;
     suspended := suspended s |}.

(** [task.cancel()], and a task that ends: it stops running. *)
Definition without (task : nat) (r : list (nat * Z)) : list (nat * Z) :=
  List.filter (fun tc => negb (fst tc =? task)%nat) r.

(** [scan_cmd] up to the [await] of its reply: the test
    [chat_id in scanning_tasks] and the reply.  After "Already scanning."
    the handler has nothing left to do; after "Started scanning." it is
    suspended. *)
Definition scan_cmd (chat_id : Z) (s : state) : state :=
  match scanning_tasks s !! chat_id with
  | Some _ => reply chat_id "Already scanning." s
  | None =>
      let s1 := reply chat_id "Started scanning." s in
      {| scanning_tasks := scanning_tasks s1;
         running := running s1;
         next_task := next_task s1;
         replies := replies s1;
         suspended := chat_id :: suspended s1 |}
  end.

(** [scan_cmd] from that [await] on:
    [task = asyncio.create_task(...); scanning_tasks[chat_id] = task]. *)
Definition scan_cmd_resumed (chat_id : Z) (s : state) : state :=
  let task := next_task s in
  {| scanning_tasks := <[chat_id := task]> (scanning_tasks s);
     running := (task, chat_id) :: running s;
     next_task := S task;
     replies := replies s;
     suspended := suspended s |}.

(** The pop and the cancellation of [stop_cmd] come before its only
    [await]. *)
Definition stop_cmd (chat_id : Z) (s : state) : state :=
  let s1 :=
    match scanning_tasks s !! chat_id with
    | Some task =>
        {| scanning_tasks := delete chat_id (scanning_tasks s);
           running := without task (running s);
           next_task := next_task s;
           replies := replies s;
           suspended := suspended s |}
    | None => s
    end in
  reply chat_id "Stopped scanning." s1.

(** A scanner loop that returns by itself (its [except Exception]). *)
Definition task_ended (task : nat) (s : state) : state :=
  {| scanning_tasks := scanning_tasks s;
     running := without task (running s);
     next_task := next_task s;
     replies := replies s;
     suspended := suspended s |}.

(** [l] without the first [chat_id] it holds. *)
Fixpoint remove_first (chat_id : Z) (l : list Z) : option (list Z) :=
  match l with
  | [] => None
  | c :: l' =>
      if (c =? chat_id)%Z then Some l'
      else option_map (cons c) (remove_first chat_id l')
  end.

(** What the event loop does next: it dispatches an update to its
    handler, which runs up to its [await]; it resumes a suspended
    handler, whose reply has been sent; or a task ends. *)
Inductive event : Type :=
| Scan (chat_id : Z)
| Resumed (chat_id : Z)
| Stop (chat_id : Z)
| Ended (task : nat).

Definition step (s : state) (e : event) : state :=
  match e with
  | Scan c => scan_cmd c s
  | Resumed c =>
      match remove_first c (suspended s) with
      | Some others =>
          scan_cmd_resumed c
            {| scanning_tasks := scanning_tasks s;
               running := running s;
               next_task := next_task s;
               replies := replies s;
               suspended := others |}
      | None => s
      end
  | Stop c => stop_cmd c s
  | Ended t => task_ended t s
  end.

Definition run (events : list event) (s : state) : state :=
  fold_left step events s.

(** The live scanner tasks of a chat. *)
Definition live_tasks (s : state) (chat_id : Z) : list (nat * Z) :=
  List.filter (fun tc => (snd tc =? chat_id)%Z) (running s).

(** ** Handlers taken one at a time *)

(** A [scan_cmd] handler that runs to its end before anything else
    happens. *)
Definition scan_cmd_alone (chat_id : Z) (s : state) : state :=
  step (step s (Scan chat_id)) (Resumed chat_id).

Inductive command : Type :=
| ScanCommand (chat_id : Z)
| StopCommand (chat_id : Z)
| TaskEnds (task : nat).

(** The events of commands handled one at a time. *)
Definition one_at_a_time (cmds : list command) : list event :=
  flat_map
    (fun c => match c with
              | ScanCommand chat_id => [Scan chat_id; Resumed chat_id]
              | StopCommand chat_id => [Stop chat_id]
              | TaskEnds task => [Ended task]
              end)
    cmds.

(** The invariant of the registry between such commands. *)
Record inv (s : state) : Prop := {
  inv_registered : forall t c,
    In (t, c) (running s) -> scanning_tasks s !! c = Some t;
  inv_nodup : List.NoDup (map fst (running s));
  inv_running_fresh : forall t c,
    In (t, c) (running s) -> (t < next_task s)%nat;
  inv_registry_fresh : forall c t,
    scanning_tasks s !! c = Some t -> (t < next_task s)%nat;
  inv_injective : forall c1 c2 t,
    scanning_tasks s !! c1 = Some t -> scanning_tasks s !! c2 = Some t ->
    c1 = c2;
  inv_idle : suspended s = [];
}.

Lemma in_without t c task r :
  In (t, c) (without task r) <-> In (t, c) r /\ t <> task.
Proof.
  unfold without. rewrite List.filter_In. simpl.
  rewrite negb_true_iff, Nat.eqb_neq. reflexivity.
Qed.

Lemma nodup_without task r :
  List.NoDup (map fst r) -> List.NoDup (map fst (without task r)).
Proof.
  induction r as [|[t c] r IH]; simpl; intros H; [constructor|].
  inversion H as [|? ? Hn Hr]; subst.
  destruct (negb (t =? task)%nat); simpl; [|apply IH, Hr].
  constructor; [|apply IH, Hr].
  intros Hin. apply Hn. apply List.in_map_iff in Hin.
  destruct Hin as ([t' c'] & E & Hin). simpl in E. subst t'.
  apply in_without in Hin. apply List.in_map_iff.
  exists (t, c'). split; [reflexivity|tauto].
Qed.

Lemma without_absent task r :
  (forall c, ~ In (task, c) r) -> without task r = r.
Proof.
  induction r as [|[t c] r IH]; simpl; intros H; [reflexivity|].
  destruct (Nat.eqb_spec t task) as [->|N]; simpl.
  - exfalso. apply (H c). left. reflexivity.
  - f_equal. apply IH. intros c' Hin. apply (H c'). right. exact Hin.
Qed.

Lemma inv_initial : inv initial.
Proof.
  split; simpl; try (intros; contradiction); try constructor;
    intros; rewrite lookup_empty in *; discriminate.
Qed.

Lemma inv_reply c text s : inv s -> inv (reply c text s).
Proof. intros [H1 H2 H3 H4 H5 H6]. split; assumption. Qed.

(** With no handler suspended, a [scan_cmd] that runs alone is the test
    followed at once by the registration. *)
Lemma scan_cmd_alone_idle c s :
  suspended s = [] ->
  scan_cmd_alone c s
  = match scanning_tasks s !! c with
    | Some _ => reply c "Already scanning." s
    | None =>
        {| scanning_tasks := <[c := next_task s]> (scanning_tasks s);
           running := (next_task s, c) :: running s;
           next_task := S (next_task s);
           replies := (c, "Started scanning.") :: replies s;
           suspended := [] |}
    end.
Proof.
  intros H. unfold scan_cmd_alone, step, scan_cmd.
  destruct (scanning_tasks s !! c) as [t|].
  - cbn [reply suspended]. rewrite H. reflexivity.
  - cbn [reply suspended remove_first]. rewrite Z.eqb_refl, H. reflexivity.
Qed.

Lemma inv_scan_cmd_alone c s : inv s -> inv (scan_cmd_alone c s).
Proof.
  intros Hs. rewrite (scan_cmd_alone_idle c s (inv_idle s Hs)).
  destruct (scanning_tasks s !! c) as [t0|] eqn:E; [apply inv_reply, Hs|].
  destruct Hs as [H1 H2 H3 H4 H5 H6]. split; simpl.
  - intros t c' [[= <- <-]|Hin]; [apply lookup_insert_eq|].
    rewrite lookup_insert_ne; [apply H1, Hin|].
    intros <-. rewrite (H1 _ _ Hin) in E. discriminate.
  - constructor; [|exact H2].
    intros Hin. apply List.in_map_iff in Hin.
    destruct Hin as ([t c'] & Et & Hin). simpl in Et. subst t.
    pose proof (H3 _ _ Hin). lia.
  - intros t c' [[= <- <-]|Hin]; [lia|]. pose proof (H3 _ _ Hin). lia.
  - intros c' t. destruct (decide (c = c')) as [<-|N].
    + rewrite lookup_insert_eq. intros [= <-]. lia.
    + rewrite lookup_insert_ne by exact N. intros H. pose proof (H4 _ _ H). lia.
  - intros c1 c2 t.
    destruct (decide (c = c1)) as [<-|N1], (decide (c = c2)) as [<-|N2];
      rewrite ?lookup_insert_eq, ?lookup_insert_ne by assumption.
    + reflexivity.
    + intros [= <-] H. pose proof (H4 _ _ H). lia.
    + intros H [= <-]. pose proof (H4 _ _ H). lia.
    + apply H5.
  - reflexivity.
Qed.

Lemma inv_stop_cmd c s : inv s -> inv (stop_cmd c s).
Proof.
  intros Hs. unfold stop_cmd. apply inv_reply.
  destruct (scanning_tasks s !! c) as [task|] eqn:E; [|exact Hs].
  destruct Hs as [H1 H2 H3 H4 H5 H6]. split; simpl.
  - intros t c' Hin. apply in_without in Hin. destruct Hin as [Hin Hne].
    rewrite lookup_delete_ne; [apply H1, Hin|].
    intros <-. rewrite (H1 _ _ Hin) in E. congruence.
  - apply nodup_without, H2.
  - intros t c' Hin. apply in_without in Hin. apply (H3 t c'). tauto.
  - intros c' t. destruct (decide (c = c')) as [<-|N].
    + rewrite lookup_delete_eq. discriminate.
    + rewrite lookup_delete_ne by exact N. apply H4.
  - intros c1 c2 t.
    destruct (decide (c = c1)) as [<-|N1];
      [rewrite lookup_delete_eq; discriminate|].
    destruct (decide (c = c2)) as [<-|N2];
      [rewrite (lookup_delete_eq _ c); discriminate|].
    rewrite !lookup_delete_ne by assumption. apply H5.
  - exact H6.
Qed.

Lemma inv_task_ended t s : inv s -> inv (task_ended t s).
Proof.
  intros [H1 H2 H3 H4 H5 H6]. split; simpl; try assumption.
  - intros t' c Hin. apply in_without in Hin. apply H1. tauto.
  - apply nodup_without, H2.
  - intros t' c Hin. apply in_without in Hin. apply (H3 t' c). tauto.
Qed.

Lemma inv_run_one_at_a_time cmds : forall s,
  inv s -> inv (run (one_at_a_time cmds) s).
Proof.
  induction cmds as [|c cmds IH]; intros s Hs; [exact Hs|].
  cbn [one_at_a_time flat_map]. unfold run. rewrite fold_left_app.
  apply IH. destruct c; cbn [fold_left].
  - apply (inv_scan_cmd_alone chat_id s Hs).
  - apply inv_stop_cmd, Hs.
  - apply inv_task_ended, Hs.
Qed.

(** Entries with distinct handles that all lie in one chat's slot: at
    most one of them. *)
Lemma one_per_slot (r : list (nat * Z)) c t0 :
  List.NoDup (map fst r) ->
  (forall t, In (t, c) r -> t = t0) ->
  (List.length (List.filter (fun tc => (snd tc =? c)%Z) r) <= 1)%nat.
Proof.
  induction r as [|[t c'] r IH]; simpl; intros Hn Hall; [lia|].
  inversion Hn as [|? ? Hnot Hr]; subst.
  destruct (Z.eqb_spec c' c) as [->|N]; simpl.
  - assert (E : List.filter (fun tc => (snd tc =? c)%Z) r = []).
    { destruct (List.filter (fun tc => (snd tc =? c)%Z) r) as [|[t1 c1] f]
        eqn:F; [reflexivity|].
      assert (Hin : In (t1, c1) (List.filter (fun tc => (snd tc =? c)%Z) r))
        by (rewrite F; left; reflexivity).
      apply List.filter_In in Hin. destruct Hin as [Hin Hc]. simpl in Hc.
      apply Z.eqb_eq in Hc. subst c1.
      exfalso. apply Hnot.
      rewrite (Hall t (or_introl eq_refl)).
      rewrite <- (Hall t1 (or_intror Hin)).
      apply List.in_map_iff. exists (t1, c). split; [reflexivity|exact Hin]. }
    rewrite E. simpl. lia.
  - apply IH; [exact Hr|]. intros t1 Hin. apply Hall. right. exact Hin.
Qed.

Lemma live_tasks_at_most_one s c :
  inv s -> (List.length (live_tasks s c) <= 1)%nat.
Proof.
  intros [H1 H2 _ _ _ _]. unfold live_tasks.
  destruct (scanning_tasks s !! c) as [t0|] eqn:E.
  - apply (one_per_slot _ _ t0 H2).
    intros t Hin. rewrite (H1 _ _ Hin) in E. congruence.
  - apply (one_per_slot _ _ 0%nat H2).
    intros t Hin. rewrite (H1 _ _ Hin) in E. discriminate.
Qed.

Lemma live_tasks_in s c t : In (t, c) (running s) -> live_tasks s c <> [].
Proof.
  intros Hin E.
  assert (H : In (t, c) (live_tasks s c)).
  { apply List.filter_In. split; [exact Hin|]. simpl. apply Z.eqb_refl. }
  rewrite E in H. destruct H.
Qed.

Lemma one_live_task s c t :
  inv s -> In (t, c) (running s) -> List.length (live_tasks s c) = 1%nat.
Proof.
  intros Hs Hin.
  pose proof (live_tasks_at_most_one s c Hs) as Hle.
  pose proof (live_tasks_in s c t Hin) as Hne.
  destruct (live_tasks s c) as [|x [|y r]]; simpl in *; [congruence|lia|lia].
Qed.

(** X24.  When the commands are handled one at a time, each handler
    running to its end before the next update is dispatched, the registry
    is idempotent: in every state reached each chat id has at most one
    live scan task; for a chat id that has one, a further /scan only
    answers "Already scanning." and the chat still has exactly one live
    task; two /scan for a chat id that is not registered leave exactly
    one live task; and for a chat id with no live task /stop cancels
    nothing, answering "Stopped scanning." only. *)
Theorem scan_registry_idempotent_one_at_a_time (cmds : list command)
    (chat_id : Z) :
  let s := run (one_at_a_time cmds) initial in
  (List.length (live_tasks s chat_id) <= 1)%nat
  /\ (forall task,
        In (task, chat_id) (running s) ->
        scan_cmd_alone chat_id s = reply chat_id "Already scanning." s
        /\ List.length (live_tasks (scan_cmd_alone chat_id s) chat_id)
           = 1%nat)
  /\ (scanning_tasks s !! chat_id = None ->
      List.length
        (live_tasks (scan_cmd_alone chat_id (scan_cmd_alone chat_id s))
           chat_id)
      = 1%nat)
  /\ (live_tasks s chat_id = [] ->
      running (stop_cmd chat_id s) = running s
      /\ (scanning_tasks s !! chat_id = None ->
          stop_cmd chat_id s = reply chat_id "Stopped scanning." s)).
Proof.
  intros s.
  assert (Hs : inv s) by (apply inv_run_one_at_a_time, inv_initial).
  split; [apply live_tasks_at_most_one, Hs|]. split; [|split].
  - intros task Hin.
    assert (E : scan_cmd_alone chat_id s
                = reply chat_id "Already scanning." s).
    { rewrite (scan_cmd_alone_idle _ _ (inv_idle s Hs)).
      rewrite (inv_registered s Hs _ _ Hin). reflexivity. }
    split; [exact E|]. rewrite E.
    apply (one_live_task s chat_id task Hs Hin).
  - intros Hnone.
    apply (one_live_task _ chat_id (next_task s)).
    + apply inv_scan_cmd_alone, inv_scan_cmd_alone, Hs.
    + rewrite (scan_cmd_alone_idle chat_id s (inv_idle s Hs)), Hnone.
      rewrite scan_cmd_alone_idle by reflexivity.
      cbn [scanning_tasks]. rewrite lookup_insert_eq.
      cbn [reply running]. left. reflexivity.
  - intros Hnone. unfold stop_cmd.
    destruct (scanning_tasks s !! chat_id) as [task|] eqn:E; simpl.
    + split; [|discriminate].
      apply without_absent. intros c Hin.
      pose proof (inv_registered s Hs _ _ Hin) as Hc.
      pose proof (inv_injective s Hs _ _ _ Hc E) as ->.
      apply (live_tasks_in s chat_id task Hin Hnone).
    + split; reflexivity.
Qed.

End Registry.

(* ===================================================================== *)
(** * src/services/monitor_service.py *)
(* ===================================================================== *)

Module Monitor.
Import Py.

(** The answers of the exchange client, by the number of client calls
    made before; [None] is a call that raises. *)
Record Client : Type := {
  get_trades : nat -> option json;
  get_orders : nat -> option json;
  get_last_trade_price : nat -> option json;
  get_midpoint : nat -> option json;
  get_price : nat -> option json;
}.

(** What the monitor sends to the chat. *)
Inductive message : Type :=
| MsgStarted (baseline_count : nat)
    (* "Monitoring started. Initial trades: ..." *)
| MsgStatus (total_trades new_trades open_count : nat)
    (last_price midpoint best_buy : string)
    (* "Trades: ... total (+... new) | Open Orders: ... | Last: ..." *)
| MsgNewTrades (lines : list (json * json * json * json))
    (* "New trades:" and a line per trade: side, size, price, timestamp *)
| MsgError
    (* "Monitor error: ..." *)
| MsgEnded (duration_seconds : Z).
    (* "Monitoring ended after ...s." *)

(** The clock in seconds, the number of client calls made, and the
    messages handed to [bot.send_message] with the time of each, the
    latest first.  Time passes in [asyncio.sleep] only; a send that fails
    is logged and changes nothing else, as every send is wrapped in its
    own [try]. *)
Record state : Type := {
  clock : Z;
  calls : nat;
  outbox : list (Z * message);
}.

Definition send (m : message) (s : state) : state :=
  {| clock := clock s; calls := calls s;
     outbox := (clock s, m) :: outbox s |}.

Definition ask {A} (answer : nat -> A) (s : state) : A * state :=
  (answer (calls s),
   {| clock := clock s; calls := S (calls s); outbox := outbox s |}).

(** [await asyncio.sleep(d)] *)
Definition sleep (d : Z) (s : state) : state :=
  {| clock := clock s + d; calls := calls s; outbox := outbox s |}.

(** [_safe_len] *)
Definition _safe_len (obj : json) : nat :=
  match len obj with
  | Ok n => n
  | Raise => 0%nat
  end.

Section WithClient.
Context {rt : Runtime}.
Variable client : Client.

(** The three quotes: each stays ["N/A"] from the first call that raises
    on, and no call is made without a token id. *)
Definition quotes (token_id : json) (s : state)
  : (string * string * string) * state :=
  if truthy token_id then
    match ask (get_last_trade_price client) s with
    | (None, s1) => (("N/A", "N/A", "N/A"), s1)
    | (Some a, s1) =>
        match ask (get_midpoint client) s1 with
        | (None, s2) => ((str a, "N/A", "N/A"), s2)
        | (Some b, s2) =>
            match ask (get_price client) s2 with
            | (None, s3) => ((str a, str b, "N/A"), s3)
            | (Some c, s3) => ((str a, str b, str c), s3)
            end
        end
    end
  else (("N/A", "N/A", "N/A"), s).

(** [trades[-n:]] for [0 < n <= len(trades)] and the line of each trade
    that is a dict; a trade that is not raises and is skipped. *)
Definition new_trade_lines (trades : json) (n : nat)
  : res (list (json * json * json * json)) :=
  let? recent :=
    match trades with
    | JList l => Ok (skipn (List.length l - n) l)
    | JStr s => Ok (skipn (String.length s - n) (chars s))
    | _ => Raise
    end in
  Ok (flat_map
        (fun t => match t with
                  | JDict d =>
                      [(get d "side", get d "size", get d "price",
                        get d "timestamp")]
                  | _ => []
                  end)
        recent).

(** The body of the loop, up to the sleep. *)
Definition tick (baseline_count : nat) (token_id : json) (s : state)
  : state :=
  match ask (get_trades client) s with
  | (None, s1) => send MsgError s1
  | (Some trades, s1) =>
      let total_trades := _safe_len trades in
      let new_trades := (total_trades - baseline_count)%nat in
      let (orders, s2) := ask (get_orders client) s1 in
      let open_count := match orders with
                        | Some o => _safe_len o
                        | None => 0%nat
                        end in
      let '((last_price, midpoint, best_buy), s3) := quotes token_id s2 in
      let s4 := send (MsgStatus total_trades new_trades open_count
                        last_price midpoint best_buy) s3 in
      if (0 <? new_trades)%nat then
        match new_trade_lines trades new_trades with
        | Ok lines => send (MsgNewTrades lines) s4
        | Raise => s4
        end
      else s4
  end.

(** [while time.time() - start_ts < duration_seconds: tick; sleep(max(2,
    poll_interval_seconds))].  [None] when the fuel runs out. *)
Fixpoint monitor_loop (fuel : nat) (start_ts duration_seconds
    poll_interval_seconds : Z) (baseline_count : nat) (token_id : json)
    (s : state) : option state :=
  if clock s - start_ts <? duration_seconds then
    match fuel with
    | O => None
    | S fuel' =>
        monitor_loop fuel' start_ts duration_seconds poll_interval_seconds
          baseline_count token_id
          (sleep (Z.max 2 poll_interval_seconds)
                 (tick baseline_count token_id s))
    end
  else Some s.

Definition monitor_trades_and_orders (token_id : json)
    (poll_interval_seconds duration_seconds : Z) (s : state)
  : option state :=
  let start_ts := clock s in
  let (baseline_trades, s1) := ask (get_trades client) s in
  let baseline_count := match baseline_trades with
                        | Some trades => _safe_len trades
                        | None => 0%nat
                        end in
  let s2 := send (MsgStarted baseline_count) s1 in
  match monitor_loop (S (Z.to_nat duration_seconds)) start_ts
          duration_seconds poll_interval_seconds baseline_count token_id s2
  with
  | Some s3 => Some (send (MsgEnded duration_seconds) s3)
  | None => None
  end.

(** ** What a tick sends *)

(** A status line or an error line: the one message every tick sends. *)
Definition is_tick (m : message) : bool :=
  match m with
  | MsgStatus _ _ _ _ _ _ | MsgError => true
  | _ => false
  end.

(** The times of the ticks, in order. *)
Definition tick_times (s : state) : list Z :=
  map fst (List.filter (fun tm => is_tick (snd tm)) (rev (outbox s))).

(** The messages of one tick, in the order sent: one tick line, then at
    most the list of new trades. *)
Definition tick_shape (ms : list message) : Prop :=
  exists line, is_tick line = true
    /\ (ms = [line] \/ exists lines, ms = [line; MsgNewTrades lines]).

Lemma quotes_state token_id s :
  clock (snd (quotes token_id s)) = clock s
  /\ outbox (snd (quotes token_id s)) = outbox s.
Proof.
  unfold quotes, ask. destruct (truthy token_id); [|split; reflexivity].
  destruct (get_last_trade_price client (calls s)); [|split; reflexivity].
  cbn [clock calls outbox].
  destruct (get_midpoint client (S (calls s))); [|split; reflexivity].
  cbn [clock calls outbox].
  destruct (get_price client (S (S (calls s)))); split; reflexivity.
Qed.

Lemma tick_spec baseline_count token_id s :
  clock (tick baseline_count token_id s) = clock s
  /\ exists ms,
       tick_shape ms
       /\ outbox (tick baseline_count token_id s)
          = (rev (map (pair (clock s)) ms) ++ outbox s)%list.
Proof.
  unfold tick, ask.
  destruct (get_trades client (calls s)) as [trades|].
  - destruct (quotes_state token_id
                {| clock := clock s; calls := S (S (calls s));
                   outbox := outbox s |}) as [Hc Ho].
    cbn [clock calls outbox] in *.
    destruct (quotes token_id _) as [[[last mid] best] s3].
    cbn [snd] in Hc, Ho.
    set (line := MsgStatus _ _ _ last mid best).
    destruct (0 <? _safe_len trades - baseline_count)%nat.
    + destruct (new_trade_lines trades _) as [lines|].
      * cbn [send clock outbox]. split; [exact Hc|].
        exists [line; MsgNewTrades lines]. split.
        { exists line. split; [reflexivity|]. right. eauto. }
        rewrite Hc, Ho. reflexivity.
      * cbn [send clock outbox]. split; [exact Hc|].
        exists [line]. split.
        { exists line. split; [reflexivity|]. left. reflexivity. }
        rewrite Hc, Ho. reflexivity.
    + cbn [send clock outbox]. split; [exact Hc|].
      exists [line]. split.
      { exists line. split; [reflexivity|]. left. reflexivity. }
      rewrite Hc, Ho. reflexivity.
  - cbn [send clock outbox]. split; [reflexivity|].
    exists [MsgError]. split; [|reflexivity].
    exists MsgError. split; [reflexivity|]. left. reflexivity.
Qed.

(** ** The loop *)

Section Loop.
Variables (start_ts duration_seconds poll_interval_seconds : Z).
Variables (baseline_count : nat) (token_id : json).

Let loop (fuel : nat) : state -> option state :=
  monitor_loop fuel start_ts duration_seconds poll_interval_seconds
    baseline_count token_id.

(** One round: a tick at the current time, then the sleep. *)
Lemma monitor_loop_round fuel s :
  clock s - start_ts < duration_seconds ->
  exists ms s',
    tick_shape ms
    /\ loop (S fuel) s = loop fuel s'
    /\ clock s' = clock s + Z.max 2 poll_interval_seconds
    /\ outbox s' = (rev (map (pair (clock s)) ms) ++ outbox s)%list.
Proof.
  intros H.
  destruct (tick_spec baseline_count token_id s) as (Hc & ms & Hm & Ho).
  exists ms, (sleep (Z.max 2 poll_interval_seconds)
                    (tick baseline_count token_id s)).
  split; [exact Hm|]. split; [|split].
  - unfold loop. cbn [monitor_loop].
    rewrite (proj2 (Z.ltb_lt _ _) H). reflexivity.
  - cbn [sleep clock]. rewrite Hc. reflexivity.
  - cbn [sleep outbox]. exact Ho.
Qed.

Lemma monitor_loop_exit fuel s :
  duration_seconds <= clock s - start_ts -> loop fuel s = Some s.
Proof.
  intros H. unfold loop.
  destruct fuel; cbn [monitor_loop];
    rewrite (proj2 (Z.ltb_ge _ _) H); reflexivity.
Qed.

(** The loop ends before the fuel does. *)
Lemma monitor_loop_returns fuel : forall s,
  duration_seconds - (clock s - start_ts) <= 2 * Z.of_nat fuel ->
  exists s', loop fuel s = Some s'.
Proof.
  induction fuel as [|fuel IH]; intros s H.
  - exists s. apply monitor_loop_exit. lia.
  - destruct (Z.lt_ge_cases (clock s - start_ts) duration_seconds) as [L|G].
    + destruct (monitor_loop_round fuel s L) as (ms & s1 & _ & E & Hc & _).
      rewrite E. apply IH. lia.
    + exists s. apply monitor_loop_exit. exact G.
Qed.

End Loop.

(** The monitor returns for every duration and interval. *)
Lemma monitor_trades_and_orders_returns token_id poll_interval_seconds
    duration_seconds s :
  exists s',
    monitor_trades_and_orders token_id poll_interval_seconds
      duration_seconds s = Some s'.
Proof.
  unfold monitor_trades_and_orders, ask.
  destruct (monitor_loop_returns (clock s) duration_seconds
              poll_interval_seconds
              match get_trades client (calls s) with
              | Some trades => _safe_len trades
              | None => 0%nat
              end token_id (S (Z.to_nat duration_seconds))
              (send (MsgStarted
                       match get_trades client (calls s) with
                       | Some trades => _safe_len trades
                       | None => 0%nat
                       end)
                    {| clock := clock s; calls := S (calls s);
                       outbox := outbox s |}))
    as [s3 E].
  - cbn [send clock]. lia.
  - rewrite E. eexists. reflexivity.
Qed.

(** C9, amended.  Started with a duration of 30 s and an interval of 10 s
    at time [t], with time passing in the sleeps only, the monitor sends
    one start message at [t], then ticks three times, at [t], [t + 10]
    and [t + 20] (each tick one status or error line, followed at most by
    the list of new trades), then sends one end message at [t + 30] and
    returns. *)
Theorem monitor_30_10_schedule (token_id : json) (s : state) :
  exists s' baseline_count first second third,
    monitor_trades_and_orders token_id 10 30 s = Some s'
    /\ clock s' = clock s + 30
    /\ tick_shape first /\ tick_shape second /\ tick_shape third
    /\ rev (outbox s')
       = (rev (outbox s)
          ++ [(clock s, MsgStarted baseline_count)]
          ++ map (pair (clock s)) first
          ++ map (pair (clock s + 10)) second
          ++ map (pair (clock s + 20)) third
          ++ [(clock s + 30, MsgEnded 30)])%list.
Proof.
  unfold monitor_trades_and_orders, ask.
  set (b := match get_trades client (calls s) with
            | Some trades => _safe_len trades
            | None => 0%nat
            end).
  set (s2 := send (MsgStarted b) _).
  assert (C2 : clock s2 = clock s) by reflexivity.
  assert (O2 : outbox s2 = (clock s, MsgStarted b) :: outbox s)
    by reflexivity.
  clearbody s2.
  change (S (Z.to_nat 30)) with 31%nat.
  destruct (monitor_loop_round (clock s) 30 10 b token_id 30 s2)
    as (m1 & s3 & T1 & E1 & C3 & O3); [lia|].
  destruct (monitor_loop_round (clock s) 30 10 b token_id 29 s3)
    as (m2 & s4 & T2 & E2 & C4 & O4); [lia|].
  destruct (monitor_loop_round (clock s) 30 10 b token_id 28 s4)
    as (m3 & s5 & T3 & E3 & C5 & O5); [lia|].
  rewrite E1, E2, E3.
  rewrite (monitor_loop_exit (clock s) 30 10 b token_id 28 s5) by lia.
  exists (send (MsgEnded 30) s5), b, m1, m2, m3.
  split; [reflexivity|]. split; [cbn [send clock]; lia|].
  split; [exact T1|]. split; [exact T2|]. split; [exact T3|].
  cbn [send outbox]. rewrite O5, O4, O3, O2.
  replace (clock s5) with (clock s + 30) by lia.
  replace (clock s4) with (clock s + 20) by lia.
  replace (clock s3) with (clock s + 10) by lia.
  rewrite C2.
  cbn [rev]. rewrite !rev_app_distr, !rev_involutive. cbn [rev app].
  rewrite <- !List.app_assoc. reflexivity.
Qed.

(** ** The schedule for any duration and interval *)

(** What a tick sends: a status line, an error line or a list of new
    trades. *)
Definition is_report (m : message) : bool :=
  match m with
  | MsgStatus _ _ _ _ _ _ | MsgError | MsgNewTrades _ => true
  | _ => false
  end.

(** The times of the ticks among messages held the latest first. *)
Definition ticks_of (ms : list (Z * message)) : list Z :=
  map fst (List.filter (fun tm => is_tick (snd tm)) (rev ms)).

(** [n] instants from [t] on, [d] apart. *)
Definition schedule (t d : Z) (n : nat) : list Z :=
  map (fun k => t + Z.of_nat k * d) (seq 0 n).

(** How often the loop condition holds: the least [n] with
    [n * max(2, interval) >= duration]. *)
Definition rounds (duration_seconds poll_interval_seconds : Z) : nat :=
  Z.to_nat ((duration_seconds + Z.max 2 poll_interval_seconds - 1)
            / Z.max 2 poll_interval_seconds).

Lemma ticks_of_app a b : ticks_of (a ++ b)%list = (ticks_of b ++ ticks_of a)%list.
Proof.
  unfold ticks_of. rewrite rev_app_distr, List.filter_app, map_app.
  reflexivity.
Qed.

Lemma tick_shape_report t ms :
  tick_shape ms ->
  ticks_of (rev (map (pair t) ms)) = [t]
  /\ Forall (fun tm : Z * message => is_report (snd tm) = true)
       (rev (map (pair t) ms)).
Proof.
  intros (line & Hl & [->|(lines & ->)]); unfold ticks_of; simpl;
    rewrite Hl; simpl.
  - split; [reflexivity|]. constructor; [|constructor].
    destruct line; try discriminate Hl; reflexivity.
  - split; [reflexivity|]. constructor; [reflexivity|].
    constructor; [|constructor].
    destruct line; try discriminate Hl; reflexivity.
Qed.

Lemma schedule_succ t d n :
  schedule t d (S n) = t :: schedule (t + d) d n.
Proof.
  unfold schedule. cbn [seq map]. f_equal; [lia|].
  rewrite <- seq_shift, map_map. apply map_ext. intros k. lia.
Qed.

Lemma monitor_loop_schedule start_ts duration_seconds poll_interval_seconds
    baseline_count token_id n : forall fuel s,
  (n <= fuel)%nat ->
  n = Z.to_nat ((duration_seconds - (clock s - start_ts)
                 + Z.max 2 poll_interval_seconds - 1)
                / Z.max 2 poll_interval_seconds) ->
  exists mid s',
    monitor_loop fuel start_ts duration_seconds poll_interval_seconds
      baseline_count token_id s = Some s'
    /\ clock s' = clock s + Z.of_nat n * Z.max 2 poll_interval_seconds
    /\ outbox s' = (mid ++ outbox s)%list
    /\ Forall (fun tm : Z * message => is_report (snd tm) = true) mid
    /\ ticks_of mid = schedule (clock s) (Z.max 2 poll_interval_seconds) n.
Proof.
  set (d := Z.max 2 poll_interval_seconds).
  assert (Hd : 2 <= d) by (unfold d; lia).
  induction n as [|n IH]; intros fuel s Hf Hn.
  - exists [], s.
    rewrite (monitor_loop_exit start_ts duration_seconds
               poll_interval_seconds baseline_count token_id fuel s).
    + split; [reflexivity|]. split; [lia|]. split; [reflexivity|].
      split; [constructor|reflexivity].
    + destruct (Z.le_gt_cases duration_seconds (clock s - start_ts))
        as [L|G]; [exact L|exfalso].
      assert (1 <= (duration_seconds - (clock s - start_ts) + d - 1) / d)
        by (apply Z.div_le_lower_bound; lia).
      lia.
  - destruct fuel as [|fuel]; [lia|].
    assert (L : clock s - start_ts < duration_seconds).
    { destruct (Z.lt_ge_cases (clock s - start_ts) duration_seconds)
        as [L|G]; [exact L|exfalso].
      assert ((duration_seconds - (clock s - start_ts) + d - 1) / d < 1)
        by (apply Z.div_lt_upper_bound; lia).
      lia. }
    destruct (monitor_loop_round start_ts duration_seconds
                poll_interval_seconds baseline_count token_id fuel s L)
      as (ms & s1 & Hm & E & Hc & Ho).
    fold d in Hc.
    destruct (tick_shape_report (clock s) ms Hm) as [Ht Hr].
    destruct (IH fuel s1) as (mid & s' & E' & Hc' & Ho' & Hr' & Ht').
    + lia.
    + rewrite Hc.
      replace (duration_seconds - (clock s + d - start_ts) + d - 1)
        with (duration_seconds - (clock s - start_ts) + d - 1 + (-1) * d)
        by lia.
      rewrite Z.div_add by lia. lia.
    + exists (mid ++ rev (map (pair (clock s)) ms))%list, s'.
      split; [rewrite E; exact E'|].
      split; [lia|].
      split; [rewrite Ho', Ho; apply List.app_assoc|].
      split; [apply Forall_app; split; assumption|].
      rewrite ticks_of_app, Ht, Ht', Hc, schedule_succ. reflexivity.
Qed.

Lemma rounds_le duration_seconds poll_interval_seconds :
  (rounds duration_seconds poll_interval_seconds
   <= Z.to_nat duration_seconds)%nat.
Proof.
  unfold rounds. set (d := Z.max 2 poll_interval_seconds).
  assert (Hd : 2 <= d) by (unfold d; lia).
  destruct (Z.le_gt_cases duration_seconds 0) as [L|G].
  - assert ((duration_seconds + d - 1) / d < 1)
      by (apply Z.div_lt_upper_bound; lia).
    lia.
  - assert ((duration_seconds + d - 1) / d <= duration_seconds)
      by (apply Z.div_le_upper_bound; nia).
    lia.
Qed.

(** X15.  For every duration [D] and interval, the monitor returns.  With
    [d = max(2, interval)] and [n] the least count with [n * d >= D], it
    sends one start message at the starting time [t], then ticks exactly
    [n] times, at [t], [t + d], ..., [t + (n - 1) * d], sending nothing
    but status lines, error lines and lists of new trades, and then one
    end message at [t + n * d]. *)
Theorem monitor_schedule (token_id : json)
    (poll_interval_seconds duration_seconds : Z) (s : state) :
  let d := Z.max 2 poll_interval_seconds in
  let n := rounds duration_seconds poll_interval_seconds in
  exists s' baseline_count mid,
    monitor_trades_and_orders token_id poll_interval_seconds
      duration_seconds s = Some s'
    /\ clock s' = clock s + Z.of_nat n * d
    /\ outbox s'
       = ((clock s', MsgEnded duration_seconds)
          :: mid ++ (clock s, MsgStarted baseline_count) :: outbox s)%list
    /\ Forall (fun tm : Z * message => is_report (snd tm) = true) mid
    /\ ticks_of mid = schedule (clock s) d n.
Proof.
  intros d n. unfold monitor_trades_and_orders, ask.
  set (b := match get_trades client (calls s) with
            | Some trades => _safe_len trades
            | None => 0%nat
            end).
  set (s2 := send (MsgStarted b) _).
  assert (C2 : clock s2 = clock s) by reflexivity.
  assert (O2 : outbox s2 = (clock s, MsgStarted b) :: outbox s)
    by reflexivity.
  clearbody s2.
  destruct (monitor_loop_schedule (clock s) duration_seconds
              poll_interval_seconds b token_id n
              (S (Z.to_nat duration_seconds)) s2)
    as (mid & s3 & E & Hc & Ho & Hr & Ht).
  - pose proof (rounds_le duration_seconds poll_interval_seconds). unfold n. lia.
  - unfold n, rounds. rewrite C2.
    replace (duration_seconds - (clock s - clock s)) with duration_seconds
      by lia.
    reflexivity.
  - rewrite E. exists (send (MsgEnded duration_seconds) s3), b, mid.
    split; [reflexivity|]. cbn [send clock outbox].
    split; [fold d in Hc; lia|].
    split; [rewrite Ho, O2; reflexivity|].
    split; [exact Hr|]. rewrite Ht, C2. reflexivity.
Qed.

(** X16.  One tick costs between one and five calls of the exchange
    client: one when the trades cannot be fetched, at most two (trades and
    open orders) when the monitor has no token id, in which case no quote
    is asked for.  It never moves the clock. *)
Theorem tick_client_calls (baseline_count : nat) (token_id : json)
    (s : state) :
  let s' := tick baseline_count token_id s in
  (calls s + 1 <= calls s' <= calls s + 5)%nat
  /\ clock s' = clock s
  /\ (get_trades client (calls s) = None -> calls s' = (calls s + 1)%nat)
  /\ (truthy token_id = false -> (calls s' <= calls s + 2)%nat).
Proof.
  cbv zeta. unfold tick, ask.
  destruct (get_trades client (calls s)) as [trades|];
    [|cbn [send calls clock]; repeat split; lia].
  assert (Q : forall s2,
            (calls s2 <= calls (snd (quotes token_id s2)) <= calls s2 + 3)%nat
            /\ clock (snd (quotes token_id s2)) = clock s2
            /\ (truthy token_id = false ->
                calls (snd (quotes token_id s2)) = calls s2)).
  { intros s2. unfold quotes, ask.
    destruct (truthy token_id); [|cbn [snd]; repeat split; lia].
    destruct (get_last_trade_price client (calls s2));
      [|cbn [snd calls clock]; repeat split; try lia; discriminate].
    cbn [calls].
    destruct (get_midpoint client (S (calls s2)));
      [|cbn [snd calls clock]; repeat split; try lia; discriminate].
    cbn [calls].
    destruct (get_price client (S (S (calls s2))));
      cbn [snd calls clock]; repeat split; try lia; discriminate. }
  specialize (Q {| clock := clock s; calls := S (S (calls s));
                   outbox := outbox s |}).
  cbn [calls clock] in Q. destruct Q as (Q1 & Q2 & Q3).
  destruct (quotes token_id _) as [[[last mid] best] s3]. cbn [snd] in *.
  destruct (0 <? _safe_len trades - baseline_count)%nat;
    [destruct (new_trade_lines trades _)|];
    cbn [send calls clock];
    (split; [lia|]; split; [exact Q2|]; split; [discriminate|];
     intros T; specialize (Q3 T); lia).
Qed.

End WithClient.
End Monitor.

(* ===================================================================== *)
(** * src/services/telegram_service.py: the settings commands             *)
(* ===================================================================== *)

Module Commands.
Import Py Settings.

(** What a handler answers; the text carries the value shown. *)
Inductive reply : Type :=
| Usage
    (* "Usage: /setprice <value>" and the like *)
| Invalid
    (* "Invalid price", "Invalid size", "Invalid increment" *)
| Confirmed (value : json)
    (* "Price threshold set to $...", "Order size set to ..." and the like *)
| Shown (settings : json).
    (* the settings of the chat, as /start, /help, /status and /settings
       print them *)

Inductive command : Type :=
| Show
| SetPrice (args : list string)
| SetSize (args : list string)
| IncSize (args : list string)
| SetSell (args : list string)
| SetAuto (args : list string).

Section Handlers.
Context {rt : Runtime}.
Variable cfg : Config.

(** [v = float(args[0]); if not (v > 0): raise ValueError] *)
Definition positive_float (arg : string) : res float :=
  let? v := of_option (float_of_str arg) in
  if negb (0 <? v)%float then Raise else Ok v.

(** [n = int(args[0]); if n <= 0: raise ValueError] *)
Definition positive_int (arg : string) : res Z :=
  let? n := of_option (int_of_str arg) in
  if n <=? 0 then Raise else Ok n.

(** [s = update_settings_for_chat(chat_id, {key: v})] and the reply with
    [s.get(key)]. *)
Definition store_field (st : store) (chat_id : Z) (key : string) (v : json)
  : res (reply * store) :=
  let? r := update_settings_for_chat cfg st chat_id [(key, v)] in
  Ok (Confirmed (get (fst r) key), snd r).

(** start_cmd, help_cmd, status_cmd and settings_cmd: each reads the
    settings of the chat and prints them. *)
Definition show_cmd (st : store) (chat_id : Z) : res (reply * store) :=
  let? r := get_settings_for_chat cfg st chat_id in
  let? _d := as_dict (fst r) in
  Ok (Shown (fst r), snd r).

Definition set_price_cmd (st : store) (chat_id : Z) (args : list string)
  : res (reply * store) :=
  match args with
  | [] => Ok (Usage, st)
  | a :: _ =>
      match positive_float a with
      | Raise => Ok (Invalid, st)
      | Ok v => store_field st chat_id "maxPriceNoTokens" (JFloat v)
      end
  end.

Definition set_size_cmd (st : store) (chat_id : Z) (args : list string)
  : res (reply * store) :=
  match args with
  | [] => Ok (Usage, st)
  | a :: _ =>
      match positive_int a with
      | Raise => Ok (Invalid, st)
      | Ok n => store_field st chat_id "maxOrderSize" (JInt n)
      end
  end.

Definition inc_size_cmd (st : store) (chat_id : Z) (args : list string)
  : res (reply * store) :=
  match args with
  | [] => Ok (Usage, st)
  | a :: _ =>
      match int_of_str a with
      | None => Ok (Invalid, st)
      | Some n =>
          let? r := increment_size_for_chat cfg st chat_id n in
          Ok (Confirmed (get (fst r) "maxOrderSize"), snd r)
      end
  end.

Definition set_sell_cmd (st : store) (chat_id : Z) (args : list string)
  : res (reply * store) :=
  match args with
  | [] => Ok (Usage, st)
  | a :: _ =>
      match positive_float a with
      | Raise => Ok (Invalid, st)
      | Ok v => store_field st chat_id "sellTargetPrice" (JFloat v)
      end
  end.

(** [on = str(args[0]).lower() == "on"] *)
Definition set_auto_cmd (st : store) (chat_id : Z) (args : list string)
  : res (reply * store) :=
  match args with
  | [] => Ok (Usage, st)
  | a :: _ =>
      store_field st chat_id "autoPlaceOrders" (JBool (lower a =? "on")%string)
  end.

Definition handle (st : store) (chat_id : Z) (c : command)
  : res (reply * store) :=
  match c with
  | Show => show_cmd st chat_id
  | SetPrice args => set_price_cmd st chat_id args
  | SetSize args => set_size_cmd st chat_id args
  | IncSize args => inc_size_cmd st chat_id args
  | SetSell args => set_sell_cmd st chat_id args
  | SetAuto args => set_auto_cmd st chat_id args
  end.

(** The document after a sequence of commands, each from some chat; a
    handler that raises has written nothing. *)
Fixpoint run (cmds : list (Z * command)) (st : store) : store :=
  match cmds with
  | [] => st
  | (chat_id, c) :: rest =>
      match handle st chat_id c with
      | Ok (_, st') => run rest st'
      | Raise => run rest st
      end
  end.

(** The head of [_scan_once]: the threshold, the auto-order flag and the
    order size a scan of the chat runs with.
    [max_price = float(chat_settings.get('maxPriceNoTokens', cfg...))],
    [auto_order = bool(...)], [max_order_size = int(...)]. *)
Definition scan_parameters (st : store) (chat_id : Z)
  : res ((float * bool * Z) * store) :=
  let? r := get_settings_for_chat cfg st chat_id in
  let? chat_settings := as_dict (fst r) in
  let? max_price :=
    to_float (get_or chat_settings "maxPriceNoTokens"
                (JFloat (max_price_no_tokens cfg))) in
  let auto := truthy (get_or chat_settings "autoPlaceOrders"
                        (JBool (auto_order cfg))) in
  let? size :=
    to_int (get_or chat_settings "maxOrderSize"
              (JInt (max_order_size cfg))) in
  Ok ((max_price, auto, size), snd r).

(** ** Settings that a scan can run with *)

(** A field of the settings as the commands write it: a positive float
    for the two prices, an int of at least 1 for the size. *)
Definition sane_entry (kv : string * json) : Prop :=
  if (fst kv =? "maxPriceNoTokens")%string
     || (fst kv =? "sellTargetPrice")%string
  then exists p, snd kv = JFloat p /\ (0 <? p)%float = true
  else if (fst kv =? "maxOrderSize")%string
  then exists n, snd kv = JInt n /\ 1 <= n
  else True.

Definition sane_settings (s : json) : Prop :=
  exists d, s = JDict d /\ Forall sane_entry d.

Definition sane_store (st : store) : Prop :=
  exists all_settings,
    st = JDict all_settings
    /\ Forall (fun kv => sane_settings (snd kv)) all_settings.

Definition sane_config : Prop :=
  (0 <? max_price_no_tokens cfg)%float = true
  /\ 1 <= max_order_size cfg
  /\ (0 <? sell_target_price cfg)%float = true.

Lemma sane_set (d : dict) k v :
  Forall sane_entry d -> sane_entry (k, v) -> Forall sane_entry (set d k v).
Proof.
  intros Hd Hv. induction Hd as [|[k0 v0] d H0 Hd IH]; simpl.
  - constructor; [exact Hv|constructor].
  - destruct (k0 =? k)%string; constructor; assumption.
Qed.

Lemma sane_merge (e d : dict) :
  Forall sane_entry d -> Forall sane_entry e -> Forall sane_entry (merge d e).
Proof.
  unfold merge. intros Hd He. revert d Hd.
  induction He as [|[k v] e Hk _ IH]; intros d Hd; simpl; [exact Hd|].
  apply IH, sane_set; assumption.
Qed.

Lemma sane_lookup (d : dict) k v :
  Forall sane_entry d -> lookup d k = Some v -> sane_entry (k, v).
Proof.
  intros Hd. induction Hd as [|[k0 v0] d H0 _ IH]; simpl; [discriminate|].
  destruct (String.eqb_spec k0 k) as [->|N]; [|exact IH].
  intros [= <-]. exact H0.
Qed.

Lemma sane_store_set (all_settings : dict) key s :
  Forall (fun kv => sane_settings (snd kv)) all_settings ->
  sane_settings s ->
  sane_store (JDict (set all_settings key s)).
Proof.
  intros Ha Hs. exists (set all_settings key s). split; [reflexivity|].
  induction Ha as [|[k0 v0] d H0 Ha IH]; simpl.
  - constructor; [exact Hs|constructor].
  - destruct (k0 =? key)%string; constructor; assumption.
Qed.

Lemma sane_store_lookup (all_settings : dict) key s :
  Forall (fun kv => sane_settings (snd kv)) all_settings ->
  lookup all_settings key = Some s -> sane_settings s.
Proof.
  intros Ha. induction Ha as [|[k0 v0] d H0 _ IH]; simpl; [discriminate|].
  destruct (k0 =? key)%string; [|exact IH].
  intros [= <-]. exact H0.
Qed.

Lemma sane_defaults : sane_config -> Forall sane_entry (_default_settings cfg).
Proof.
  intros (Hp & Hn & Hs). unfold _default_settings.
  repeat constructor; unfold sane_entry; simpl; eauto.
Qed.

(** The settings the code takes for a chat: the stored ones, or [dflt]
    when nothing, or something empty, is stored. *)
Lemma sane_current all_settings key dflt :
  Forall (fun kv => sane_settings (snd kv)) all_settings ->
  Forall sane_entry dflt ->
  exists current,
    as_dict (por (get all_settings key) (JDict dflt)) = Ok current
    /\ Forall sane_entry current.
Proof.
  intros Ha Hd. unfold get, por.
  destruct (lookup all_settings key) as [s|] eqn:L.
  - destruct (sane_store_lookup _ _ _ Ha L) as (d & -> & Hs).
    destruct (truthy (JDict d)); eexists; split; try reflexivity; assumption.
  - cbn [truthy]. eexists. split; [reflexivity|exact Hd].
Qed.

Lemma get_settings_sane st chat_id :
  sane_config -> sane_store st ->
  exists d st',
    get_settings_for_chat cfg st chat_id = Ok (JDict d, st')
    /\ Forall sane_entry d /\ sane_store st'.
Proof.
  intros Hc (all_settings & -> & Ha). unfold get_settings_for_chat.
  cbn [as_dict rbind]. unfold get.
  destruct (lookup all_settings (key_of chat_id)) as [s|] eqn:L.
  - destruct (sane_store_lookup _ _ _ Ha L) as (d & -> & Hs).
    destruct (truthy (JDict d)).
    + exists d, (JDict all_settings). split; [reflexivity|].
      split; [exact Hs|]. exists all_settings. split; [reflexivity|exact Ha].
    + eexists _, _. split; [reflexivity|].
      split; [apply sane_defaults, Hc|].
      apply sane_store_set; [exact Ha|].
      eexists. split; [reflexivity|apply sane_defaults, Hc].
  - cbn [truthy]. eexists _, _. split; [reflexivity|].
    split; [apply sane_defaults, Hc|].
    apply sane_store_set; [exact Ha|].
    eexists. split; [reflexivity|apply sane_defaults, Hc].
Qed.

Lemma store_field_sane st chat_id key v :
  sane_config -> sane_store st -> sane_entry (key, v) ->
  exists r st',
    store_field st chat_id key v = Ok (r, st') /\ sane_store st'.
Proof.
  intros Hc (all_settings & -> & Ha) Hv.
  unfold store_field, update_settings_for_chat. cbn [as_dict rbind].
  destruct (sane_current all_settings (key_of chat_id) [] Ha)
    as (current & -> & Hcur); [constructor|].
  cbn [rbind fst snd]. eexists _, _. split; [reflexivity|].
  apply sane_store_set; [exact Ha|].
  eexists. split; [reflexivity|].
  apply sane_merge; [|constructor; [exact Hv|constructor]].
  apply sane_merge; [apply sane_defaults, Hc|exact Hcur].
Qed.

Lemma positive_float_sane a v key :
  positive_float a = Ok v ->
  (key =? "maxPriceNoTokens")%string || (key =? "sellTargetPrice")%string
  = true ->
  sane_entry (key, JFloat v).
Proof.
  unfold positive_float. destruct (float_of_str a) as [f|]; [|discriminate].
  cbn [of_option rbind]. destruct (0 <? f)%float eqn:E; [|discriminate].
  intros [= <-] Hk. unfold sane_entry. cbn [fst snd]. rewrite Hk. eauto.
Qed.

Lemma positive_int_sane a n :
  positive_int a = Ok n -> sane_entry ("maxOrderSize", JInt n).
Proof.
  unfold positive_int. destruct (int_of_str a) as [z|]; [|discriminate].
  cbn [of_option rbind]. destruct (z <=? 0) eqn:E; [discriminate|].
  intros [= <-]. unfold sane_entry. simpl. exists z.
  split; [reflexivity|]. apply Z.leb_gt in E. lia.
Qed.

Lemma increment_sane st chat_id delta :
  sane_config -> sane_store st ->
  exists next_settings st',
    increment_size_for_chat cfg st chat_id delta = Ok (next_settings, st')
    /\ sane_store st'.
Proof.
  intros Hc (all_settings & -> & Ha).
  unfold increment_size_for_chat. cbn [as_dict rbind].
  destruct (sane_current all_settings (key_of chat_id)
              (_default_settings cfg) Ha (sane_defaults Hc))
    as (current & -> & Hcur).
  cbn [rbind].
  assert (I : exists stored,
            to_int (get_or current "maxOrderSize" (JInt 1)) = Ok stored).
  { unfold get_or.
    destruct (lookup current "maxOrderSize") as [v|] eqn:L;
      [|eexists; reflexivity].
    pose proof (sane_lookup _ _ _ Hcur L) as Hv.
    unfold sane_entry in Hv. simpl in Hv. destruct Hv as (n & -> & _).
    eexists. reflexivity. }
  destruct I as (stored & ->). cbn [rbind].
  eexists _, _. split; [reflexivity|].
  apply sane_store_set; [exact Ha|].
  eexists. split; [reflexivity|].
  apply sane_merge; [exact Hcur|]. constructor; [|constructor].
  unfold sane_entry. simpl. eexists. split; [reflexivity|lia].
Qed.

Lemma handle_sane st chat_id c :
  sane_config -> sane_store st ->
  exists r st', handle st chat_id c = Ok (r, st') /\ sane_store st'.
Proof.
  intros Hc Hs.
  assert (Same : forall r, exists r' st',
             @Ok (reply * store) (r, st) = Ok (r', st') /\ sane_store st')
    by (intros r; exists r, st; split; [reflexivity|exact Hs]).
  destruct c as [|args|args|args|args|args]; cbn [handle].
  - unfold show_cmd.
    destruct (get_settings_sane st chat_id Hc Hs) as (d & st' & -> & _ & H').
    cbn [rbind fst snd as_dict]. eexists _, _. split; [reflexivity|exact H'].
  - unfold set_price_cmd. destruct args as [|a args]; [apply Same|].
    destruct (positive_float a) as [v|] eqn:P; [|apply Same].
    apply store_field_sane; [exact Hc|exact Hs|].
    apply (positive_float_sane a v _ P). reflexivity.
  - unfold set_size_cmd. destruct args as [|a args]; [apply Same|].
    destruct (positive_int a) as [n|] eqn:P; [|apply Same].
    apply store_field_sane; [exact Hc|exact Hs|].
    apply (positive_int_sane a n P).
  - unfold inc_size_cmd. destruct args as [|a args]; [apply Same|].
    destruct (int_of_str a) as [n|]; [|apply Same].
    destruct (increment_sane st chat_id n Hc Hs) as (next & st' & -> & H').
    cbn [rbind fst snd]. eexists _, _. split; [reflexivity|exact H'].
  - unfold set_sell_cmd. destruct args as [|a args]; [apply Same|].
    destruct (positive_float a) as [v|] eqn:P; [|apply Same].
    apply store_field_sane; [exact Hc|exact Hs|].
    apply (positive_float_sane a v _ P). reflexivity.
  - unfold set_auto_cmd. destruct args as [|a args]; [apply Same|].
    apply store_field_sane; [exact Hc|exact Hs|].
    unfold sane_entry. simpl. exact I.
Qed.

Lemma run_sane cmds : forall st,
  sane_config -> sane_store st -> sane_store (run cmds st).
Proof.
  induction cmds as [|[chat_id c] rest IH]; intros st Hc Hs; [exact Hs|].
  cbn [run].
  destruct (handle_sane st chat_id c Hc Hs) as (r & st' & -> & H').
  apply IH; assumption.
Qed.

(** X17.  The commands keep the settings fit for scanning.  When the
    configured defaults are a positive price threshold, a positive sell
    target and an order size of at least 1, and the document holds
    nothing but settings of that kind (as the empty document does), then
    after any sequence of commands from any chats the head of a scan of
    any chat returns a threshold [p] with [0 < p] (so not a NaN either)
    and an order size of at least 1. *)
Theorem commands_keep_scan_parameters_sane (cmds : list (Z * command))
    (st : store) (chat_id : Z) :
  sane_config -> sane_store st ->
  exists p auto size st',
    scan_parameters (run cmds st) chat_id = Ok ((p, auto, size), st')
    /\ (0 <? p)%float = true /\ 1 <= size
    /\ sane_store st'.
Proof.
  intros Hc Hs. pose proof (run_sane cmds st Hc Hs) as Hr.
  unfold scan_parameters.
  destruct (get_settings_sane (run cmds st) chat_id Hc Hr)
    as (d & st' & -> & Hd & H').
  cbn [rbind fst snd as_dict].
  destruct Hc as (Hp & Hn & _).
  assert (P : exists p,
            get_or d "maxPriceNoTokens" (JFloat (max_price_no_tokens cfg))
            = JFloat p /\ (0 <? p)%float = true).
  { unfold get_or. destruct (lookup d "maxPriceNoTokens") as [v|] eqn:L;
      [|eauto].
    apply (sane_lookup _ _ _ Hd L). }
  assert (N : exists n,
            get_or d "maxOrderSize" (JInt (max_order_size cfg)) = JInt n
            /\ 1 <= n).
  { unfold get_or. destruct (lookup d "maxOrderSize") as [v|] eqn:L;
      [|eauto].
    apply (sane_lookup _ _ _ Hd L). }
  destruct P as (p & -> & Hp'). destruct N as (n & -> & Hn').
  cbn [to_float to_int rbind]. eexists _, _, _, _.
  split; [reflexivity|]. split; [exact Hp'|]. split; [exact Hn'|exact H'].
Qed.

(** X18.  A command that answers with a usage line or with [Invalid] has
    written nothing.  A price or a sell target is stored only when the
    argument reads as a float [v] with [v > 0], and a size only when it
    reads as an int of at least 1; the confirmation then shows the value
    stored, which is what the document holds for the chat. *)
Theorem handle_validates (st : store) (chat_id : Z) (c : command)
    (r : reply) (st' : store) :
  handle st chat_id c = Ok (r, st') ->
  match r with
  | Usage | Invalid => st' = st
  | Shown s => stored_for st' chat_id = Some s
  | Confirmed value =>
      (exists s,
         stored_for st' chat_id = Some (JDict s)
         /\ match c with
            | SetPrice _ => lookup s "maxPriceNoTokens" = Some value
            | SetSell _ => lookup s "sellTargetPrice" = Some value
            | SetSize _ | IncSize _ => lookup s "maxOrderSize" = Some value
            | SetAuto _ => lookup s "autoPlaceOrders" = Some value
            | Show => False
            end)
      /\ match c with
         | SetPrice (a :: _) | SetSell (a :: _) =>
             exists v, float_of_str a = Some v /\ (0 <? v)%float = true
                       /\ value = JFloat v
         | SetSize (a :: _) =>
             exists n, int_of_str a = Some n /\ 1 <= n /\ value = JInt n
         | IncSize (a :: _) =>
             exists d n, int_of_str a = Some d /\ 1 <= n /\ value = JInt n
         | SetAuto (a :: _) => value = JBool (lower a =? "on")%string
         | _ => False
         end
  end.
Proof.
  assert (F : forall key v r0 st0,
            store_field st chat_id key v = Ok (r0, st0) ->
            r0 = Confirmed v
            /\ exists s, stored_for st0 chat_id = Some (JDict s)
                         /\ lookup s key = Some v).
  { intros key v r0 st0. unfold store_field, update_settings_for_chat.
    destruct (as_dict st) as [all_settings|]; [|discriminate].
    cbn [rbind].
    destruct (as_dict (por (get all_settings (key_of chat_id)) (JDict [])))
      as [current|]; [|discriminate].
    cbn [rbind fst snd]. intros [= <- <-].
    unfold get. rewrite lookup_set_same. split; [reflexivity|].
    eexists. cbn [stored_for].
    split; [apply lookup_set_same|apply lookup_set_same]. }
  destruct c as [|args|args|args|args|args]; cbn [handle].
  - unfold show_cmd.
    destruct (get_settings_for_chat cfg st chat_id) as [[s st0]|] eqn:G;
      [|discriminate].
    cbn [rbind fst snd]. destruct (as_dict s); [|discriminate].
    cbn [rbind]. intros [= <- <-].
    apply (get_settings_stored cfg _ _ _ _ G).
  - unfold set_price_cmd. destruct args as [|a args]; [intros [= <- <-]; reflexivity|].
    unfold positive_float. destruct (float_of_str a) as [v|];
      cbn [of_option rbind]; [|intros [= <- <-]; reflexivity].
    destruct (0 <? v)%float eqn:E; cbn [negb];
      [|intros [= <- <-]; reflexivity].
    intros H. destruct (F _ _ _ _ H) as (-> & s & Hs & Hl).
    split; [exists s; split; assumption|].
    exists v. split; [reflexivity|]. split; [exact E|reflexivity].
  - unfold set_size_cmd. destruct args as [|a args]; [intros [= <- <-]; reflexivity|].
    unfold positive_int. destruct (int_of_str a) as [n|];
      cbn [of_option rbind]; [|intros [= <- <-]; reflexivity].
    destruct (n <=? 0) eqn:E; [intros [= <- <-]; reflexivity|].
    intros H. destruct (F _ _ _ _ H) as (-> & s & Hs & Hl).
    split; [exists s; split; assumption|].
    exists n. split; [reflexivity|]. apply Z.leb_gt in E.
    split; [lia|reflexivity].
  - unfold inc_size_cmd. destruct args as [|a args]; [intros [= <- <-]; reflexivity|].
    destruct (int_of_str a) as [d|]; [|intros [= <- <-]; reflexivity].
    destruct (increment_size_for_chat cfg st chat_id d)
      as [[next st0]|] eqn:I; [|discriminate].
    cbn [rbind fst snd]. intros [= <- <-].
    destruct (increment_size_returns cfg _ _ _ _ _ I)
      as (size & all_settings & Hs & Hle & -> & Hk).
    unfold get. rewrite Hs. split.
    + exists next. split; [exact Hk|exact Hs].
    + exists d, size. split; [reflexivity|]. split; [exact Hle|reflexivity].
  - unfold set_sell_cmd. destruct args as [|a args]; [intros [= <- <-]; reflexivity|].
    unfold positive_float. destruct (float_of_str a) as [v|];
      cbn [of_option rbind]; [|intros [= <- <-]; reflexivity].
    destruct (0 <? v)%float eqn:E; cbn [negb];
      [|intros [= <- <-]; reflexivity].
    intros H. destruct (F _ _ _ _ H) as (-> & s & Hs & Hl).
    split; [exists s; split; assumption|].
    exists v. split; [reflexivity|]. split; [exact E|reflexivity].
  - unfold set_auto_cmd. destruct args as [|a args]; [intros [= <- <-]; reflexivity|].
    intros H. destruct (F _ _ _ _ H) as (-> & s & Hs & Hl).
    split; [exists s; split; assumption|reflexivity].
Qed.

End Handlers.
End Commands.

(* ===================================================================== *)
(** * src/services/telegram_service.py: the auto-order loop of _scan_once *)
(* ===================================================================== *)

Module AutoOrder.
Import Py Net.

(** ** Truncating a float that is at least 1 *)



Section Sizing.
Context {rt : Runtime}.
Variable env : Env.
(** [(cfg.gamma_endpoint or '').rstrip('/')] *)
Variable gamma_base : string.

(** ** The size of an automatic order *)










(** ** What the loop posts *)









End Sizing.
End AutoOrder.

(* ===================================================================== *)
(** * Scenarios: the functions run on concrete inputs *)
(* ===================================================================== *)

Module Scenarios.
Import Py Net.

(** A runtime that reads the few literals the scenarios use. *)
Definition sample_runtime : Runtime :=
  {| float_of_str := fun s => if (s =? "0.5")%string then Some 0.5%float
                              else None;
     int_of_str := fun s => option_map Z.of_int (NilZero.int_of_string s);
     repr := fun j => match j with
                      | JNull => "None"
                      | JBool true => "True"
                      | JBool false => "False"
                      | JInt z => Z_to_string z
                      | _ => "<object>"
                      end;
     fromisoformat := fun s =>
       if (s =? "1970-01-01T00:00:01+00:00")%string
       then Some {| wall := 1000000; tzinfo := Some 0 |}
       else None |}.

Definition gamma : string := "https://gamma-api.polymarket.com".

(** A rejection that reports a minimum size of 25. *)
Definition rejection : exn :=
  {| exn_error_message := None;
     exn_args := [ {| obj_truthy := true;
                      obj_str := "Size (5) lower than the minimum: 25" |} ];
     exn_str := "Size (5) lower than the minimum: 25" |}.

(** One market on the first page of the primary catalog: YES is listed
    first and asks 0.99609375, so NO bids 0.00390625. *)
Definition sample_market : dict :=
  [ ("id", JStr "m1"); ("question", JStr "X"); ("slug", JStr "x");
    ("outcomes", JList [JStr "Yes"; JStr "No"]);
    ("bestBid", JFloat 0.5); ("bestAsk", JFloat 0.99609375);
    ("active", JBool true) ].

Definition sample_page : json :=
  JDict [ ("events",
           JList [ JDict [ ("slug", JStr "will-x");
                           ("markets", JList [JDict sample_market]) ] ]);
          ("pagination", JDict [("hasMore", JBool false)]) ].

(** The primary catalog answers its first page, every other request
    fails, and the exchange rejects every order. *)
Definition sample_env : Env :=
  {| http_answer := fun _ r =>
       match r with
       | PublicSearch _ 1 _ _ => Some sample_page
       | _ => None
       end;
     get_market_answer := fun _ _ => None;
     post_order_answer := fun _ _ _ _ => inr rejection;
     clock_answer := fun _ => 0 |}.

(** Nothing answers. *)
Definition silent_env : Env :=
  {| http_answer := fun _ _ => None;
     get_market_answer := fun _ _ => None;
     post_order_answer := fun _ _ _ _ => inr rejection;
     clock_answer := fun _ => 0 |}.

(** The spec's scenario, with binary fractions for the prices: one
    opportunity at 0.00390625 under a threshold of 0.0078125. *)
Example find_eligible_markets_sample :
  fst (Markets.find_eligible_markets (rt := sample_runtime) sample_env gamma
         0.0078125 [])
  = Ok [ [ ("marketId", JStr "m1"); ("question", JStr "X");
           ("noPrice", JFloat 0.00390625); ("volume24h", JInt 0);
           ("url", JStr "https://polymarket.com/event/x");
           ("eventSlug", JStr "will-x"); ("slug", JStr "x") ] ].
Proof. vm_compute. reflexivity. Qed.

Lemma find_eligible_markets_price_bounds_witness :
  is_nan 0.0078125 = false
  /\ exists opps,
       fst (Markets.find_eligible_markets (rt := sample_runtime) sample_env
              gamma 0.0078125 []) = Ok opps
       /\ Forall (Markets.priced_within 0.0078125) opps.
Proof.
  split; [reflexivity|].
  destruct (Markets.find_eligible_markets_price_bounds
              (rt := sample_runtime) sample_env gamma 0.0078125 [])
    as (opps & E & _ & H).
  exists opps. split; [exact E|]. apply H. reflexivity.
Defined.

(** With no answer from the primary catalog, each of the three attempts at
    its first page is made, then the CLOB catalog is fetched once. *)
Example find_eligible_markets_falls_back :
  Markets.find_eligible_markets (rt := sample_runtime) silent_env gamma
    0.0078125 []
  = (Ok [],
     [ Http ClobMarkets;
       Http (PublicSearch "*" 1 100 30);
       Http (PublicSearch "*" 1 100 20);
       Http (PublicSearch "*" 1 100 10) ]).
Proof. vm_compute. reflexivity. Qed.

(** Only the CLOB catalog answers: one market whose NO token trades at
    0.5. *)
Definition clob_only_env : Env :=
  {| http_answer := fun _ r =>
       match r with
       | ClobMarkets =>
           Some (JList [ JDict [ ("condition_id", JStr "c1");
                                 ("question", JStr "X");
                                 ("tokens",
                                  JList [ JDict [ ("outcome", JStr "No");
                                                  ("price", JFloat 0.5);
                                                  ("token_id",
                                                   JStr "no-tok") ] ]) ] ])
       | _ => None
       end;
     get_market_answer := fun _ _ => None;
     post_order_answer := fun _ _ _ _ => inr rejection;
     clock_answer := fun _ => 0 |}.

(** C1.  With a threshold that is not a number the CLOB fallback returns
    an opportunity whose price is not at most the threshold: its guard
    [price <= 0 or price > max_price] lets 0.5 pass, as [0.5 > nan] is
    false.  The guard of the primary path, [no_price <= max_price],
    admits no market at that threshold. *)
Theorem find_eligible_markets_nan_threshold :
  fst (Markets.find_eligible_markets (rt := sample_runtime) clob_only_env
         gamma PrimFloat.nan [])
  = Ok [ [ ("marketId", JStr "c1"); ("question", JStr "X");
           ("noPrice", JFloat 0.5); ("noTokenId", JStr "no-tok");
           ("volume24h", JInt 0); ("url", JNull) ] ]
  /\ (0.5 <=? PrimFloat.nan)%float = false
  /\ (forall now m,
        Markets.analyze_market_no (rt := sample_runtime) now m PrimFloat.nan
        = None).
Proof.
  split; [vm_compute; reflexivity|]. split; [reflexivity|].
  intros now m. unfold Markets.analyze_market_no.
  destruct (negb _); [reflexivity|].
  destruct (Markets._derive_no_bid m) as [p|]; [|reflexivity].
  destruct (p <=? 0)%float; [reflexivity|].
  replace (p <=? PrimFloat.nan)%float with false; [reflexivity|].
  symmetry. rewrite FloatAxioms.leb_spec. 
  change (Prim2SF PrimFloat.nan) with S754_nan.
  unfold SFleb, SFcompare. destruct (Prim2SF p) as [[]|[]| |[] ? ?]; reflexivity.
Qed.

(** The conversions between ints and floats. *)
Example to_int_truncates :
  to_int (rt := sample_runtime) (JFloat 2.5) = Ok 2
  /\ to_int (rt := sample_runtime) (JFloat (-2.5)) = Ok (-2)
  /\ to_int (rt := sample_runtime) (JFloat nan) = Raise
  /\ to_int (rt := sample_runtime) (JFloat infinity) = Raise.
Proof. repeat split; vm_compute; reflexivity. Qed.

Example float_of_Z_rounds :
  float_of_Z 9007199254740993 = Ok 9007199254740992%float
  /\ float_of_Z (2 ^ 1024) = Raise
  /\ float_of_Z (- 3) = Ok (-3)%float.
Proof. repeat split; vm_compute; reflexivity. Qed.

(** ** _derive_no_bid *)

(** YES listed first with an ask above 1. *)
Definition overpriced_market : dict :=
  [ ("outcomes", JList [JStr "Yes"; JStr "No"]);
    ("bestBid", JFloat 0.5); ("bestAsk", JFloat 1.5) ].

(** NO listed first with a negative bid. *)
Definition negative_bid_market : dict :=
  [ ("outcomes", JList [JStr "No"; JStr "Yes"]);
    ("bestBid", JFloat (-0.25)); ("bestAsk", JFloat 0.5) ].

(** C2.  On the [1 - bestAsk] path and on the direct [bestBid] path
    [_derive_no_bid] returns a negative price: -0.5 for an ask of 1.5,
    -0.25 for a bid of -0.25.  Only the [outcomePrices] path tests
    [p >= 0]. *)
Theorem derive_no_bid_negative :
  Markets._derive_no_bid (rt := sample_runtime) overpriced_market
  = Some (-0.5)%float
  /\ Markets._derive_no_bid (rt := sample_runtime) negative_bid_market
     = Some (-0.25)%float
  /\ (-0.5 <? 0)%float = true /\ (-0.25 <? 0)%float = true.
Proof. repeat split; vm_compute; reflexivity. Qed.

(** The [outcomePrices] path does refuse a negative price. *)
Example derive_no_bid_fallback_guard :
  Markets._derive_no_bid (rt := sample_runtime)
    [ ("outcomes", JList [JStr "Yes"; JStr "No"]);
      ("outcomePrices", JList [JFloat 1.5; JFloat (-0.5)]) ] = None
  /\ Markets._derive_no_bid (rt := sample_runtime)
       [ ("outcomes", JList [JStr "Yes"; JStr "No"]);
         ("outcomePrices", JList [JFloat 0.75; JFloat 0.25]) ]
     = Some 0.25%float.
Proof. split; vm_compute; reflexivity. Qed.

(** ** resolve_no_token_id *)

(** A record that embeds its NO token, with an id, and has an event slug. *)
Definition embedded_tokens : list json :=
  [ JDict [("outcome", JStr "YES"); ("token_id", JStr "122")];
    JDict [("outcome", JStr "NO"); ("token_id", JStr "123")] ].

Definition embedded_market : dict :=
  [ ("eventSlug", JStr "e"); ("tokens", JList embedded_tokens) ].

(** The events endpoint answers with another id for the NO token. *)
Definition other_id_env : Env :=
  {| http_answer := fun _ r =>
       match r with
       | EventBySlug _ =>
           Some (JDict [ ("markets",
                          JList [ JDict [ ("tokens",
                            JList [ JDict [ ("outcome", JStr "NO");
                                            ("token_id", JStr "999") ] ]) ] ])
                       ])
       | _ => None
       end;
     get_market_answer := fun _ _ => None;
     post_order_answer := fun _ _ _ _ => inr rejection;
     clock_answer := fun _ => 0 |}.

(** C5 as stated fails: the record embeds the NO token with id 123, yet
    the resolver makes a network call for it, returns nothing when the
    network answers nothing, and returns the id of the network's answer
    when there is one. *)
Lemma resolve_no_token_id_ignores_embedded_tokens :
  Markets.scan_tokens (rt := sample_runtime) embedded_tokens = Ok (Some "123")
  /\ Markets.resolve_no_token_id (rt := sample_runtime) silent_env gamma
       embedded_market []
     = (Ok None, [Http (EventBySlug (JStr "e"))])
  /\ Markets.resolve_no_token_id (rt := sample_runtime) other_id_env gamma
       embedded_market []
     = (Ok (Some "999"), [Http (EventBySlug (JStr "e"))]).
Proof. repeat split; vm_compute; reflexivity. Qed.

(** The record names an event slug and a market slug, and only the second
    lookup yields an id: both lookups are made, in that order, and the
    resolver stops there. *)
Definition two_slug_market : dict :=
  [ ("eventSlug", JStr "e"); ("slug", JStr "s");
    ("conditionId", JStr "c") ].

Definition second_lookup_env : Env :=
  {| http_answer := fun _ r =>
       match r with
       | MarketBySlug _ =>
           Some (JDict [ ("tokens",
                          JList [ JDict [ ("outcome", JStr "NO");
                                          ("token_id", JStr "999") ] ]) ])
       | _ => None
       end;
     get_market_answer := fun _ _ => None;
     post_order_answer := fun _ _ _ _ => inr rejection;
     clock_answer := fun _ => 0 |}.

Lemma resolve_no_token_id_strategy_order_witness :
  gamma <> ""
  /\ Markets.resolve_no_token_id (rt := sample_runtime) second_lookup_env
       gamma two_slug_market []
     = (Ok (Some "999"),
        [Http (MarketBySlug (JStr "s")); Http (EventBySlug (JStr "e"))])
  /\ exists done rest,
       Markets.strategies two_slug_market = (done ++ rest)%list
       /\ snd (Markets.resolve_no_token_id (rt := sample_runtime)
                 second_lookup_env gamma two_slug_market [])
          = (rev (map Http done) ++ [])%list
       /\ match fst (Markets.resolve_no_token_id (rt := sample_runtime)
                       second_lookup_env gamma two_slug_market []) with
          | Ok (Some tid) =>
              exists before r,
                done = (before ++ [r])%list
                /\ Markets.none_found (rt := sample_runtime)
                     second_lookup_env before []
                /\ Markets.answer_of (rt := sample_runtime)
                     second_lookup_env
                     (rev (map Http before) ++ [])%list r = Some tid
          | Ok None =>
              rest = []
              /\ Markets.none_found (rt := sample_runtime)
                   second_lookup_env done []
          | Raise => False
          end.
Proof.
  split; [discriminate|]. split; [vm_compute; reflexivity|].
  apply (proj1 (Markets.resolve_no_token_id_strategy_order
                  (rt := sample_runtime) second_lookup_env gamma
                  two_slug_market [])).
  discriminate.
Defined.

(** ** _is_active_market *)

(** An expiry at 1970-01-01T00:00:01Z, evaluated at that very instant. *)
Definition expiring_market : dict :=
  [ ("question", JStr "X"); ("endDate", JStr "1970-01-01T00:00:01Z") ].

(** Two guards of the filter: the empty record, which no flag excludes,
    is refused by [if not m]; an expiry equal to the instant of
    evaluation is accepted, the test being [end < now]. *)
Lemma is_active_market_differs_from_description :
  (Markets.tradable_as_claimed (rt := sample_runtime) 0 [] = true
   /\ Markets._is_active_market (rt := sample_runtime) 0 [] = false)
  /\ (Markets.tradable_as_claimed (rt := sample_runtime) 1000000
        expiring_market = false
      /\ Markets._is_active_market (rt := sample_runtime) 1000000
           expiring_market = true).
Proof. repeat split; vm_compute; reflexivity. Qed.

(** How the filter prepares the text of a timestamp for the parser. *)
Example normalise_end_samples :
  Markets.normalise_end "1970-01-01T00:00:01Z" = "1970-01-01T00:00:01+00:00"
  /\ Markets.normalise_end "1970-01-01T00:00:01" = "1970-01-01T00:00:01+00:00"
  /\ Markets.normalise_end "1970-01-01T00:00:01+02:00"
     = "1970-01-01T00:00:01+02:00"
  /\ Markets.normalise_end "1970-01-01T00:00:01-05:00"
     = "1970-01-01T00:00:01-05:00+00:00".
Proof. repeat split; reflexivity. Qed.

(** A runtime that reads the timestamps of the next scenario as Python's
    [datetime.fromisoformat] does: a UTC offset of either sign is
    accepted, a second offset behind the first is not. *)
Definition offset_runtime : Runtime :=
  {| float_of_str := float_of_str (Runtime := sample_runtime);
     int_of_str := int_of_str (Runtime := sample_runtime);
     repr := repr (Runtime := sample_runtime);
     fromisoformat := fun s =>
       if (s =? "1970-01-01T00:00:01-05:00")%string
       then Some {| wall := 1000000; tzinfo := Some (-18000000000) |}
       else if (s =? "1970-01-01T05:00:01+00:00")%string
       then Some {| wall := 18001000000; tzinfo := Some 0 |}
       else None |}.

(** A market that expired at 1970-01-01T05:00:01 UTC, the expiry written
    with the offset of a zone west of Greenwich, and the same with the
    expiry written in UTC. *)
Definition west_market : dict :=
  [ ("question", JStr "X"); ("endDate", JStr "1970-01-01T00:00:01-05:00") ].

Definition utc_market : dict :=
  [ ("question", JStr "X"); ("endDate", JStr "1970-01-01T05:00:01Z") ].

(** C6.  An expiry with a negative UTC offset never expires.  The branch
    commented [Add UTC timezone if missing] takes the [-] of the date for
    a missing zone and appends [+00:00] behind the offset; the parser
    rejects the result, and the record counts as active at every instant,
    a day after its expiry too.  The same expiry written in UTC is
    refused once it has passed. *)
Theorem is_active_market_negative_offset_never_expires :
  (exists e,
     fromisoformat (Runtime := offset_runtime) "1970-01-01T00:00:01-05:00"
     = Some e
     /\ Markets.instant e = 18001000000)
  /\ Markets.normalise_end "1970-01-01T00:00:01-05:00"
     = "1970-01-01T00:00:01-05:00+00:00"
  /\ (forall now,
        Markets._is_active_market (rt := offset_runtime) now west_market
        = true)
  /\ Markets._is_active_market (rt := offset_runtime) 86400000000
       west_market = true
  /\ Markets._is_active_market (rt := offset_runtime) 86400000000
       utc_market = false.
Proof.
  split; [eexists; split; reflexivity|]. split; [reflexivity|].
  split; [intros now; reflexivity|]. split; reflexivity.
Qed.

Lemma is_active_market_tradable_witness :
  truthy (Markets.expiry expiring_market) = true
  /\ Markets.parse_end (rt := sample_runtime)
       (Markets.expiry expiring_market)
     = Some {| wall := 1000000; tzinfo := Some 0 |}
  /\ Markets.instant {| wall := 1000000; tzinfo := Some 0 |}
     = 2000000 - 1000000
  /\ Markets._is_active_market (rt := sample_runtime) 2000000
       expiring_market = false.
Proof.
  split; [reflexivity|]. split; [reflexivity|]. split; [reflexivity|].
  apply (proj2 (Markets.is_active_market_tradable (rt := sample_runtime)
                  2000000 expiring_market)
           {| wall := 1000000; tzinfo := Some 0 |});
    reflexivity.
Defined.

(** ** place_buy_orders *)

(** An opportunity that brings its token id and its price. *)
Definition priced_op : dict :=
  [ ("token_id", JStr "tok"); ("price", JFloat 0.00390625);
    ("market_question", JStr "X") ].

(** An opportunity without a token id, for which no lookup answers. *)
Definition unresolved_op : dict :=
  [ ("token_id", JNull); ("price", JFloat 0.00390625);
    ("marketId", JStr "m2") ].


(** A minimum that does not exceed the requested size: no retry. *)
Example place_buy_orders_no_retry :
  Orders.place_buy_orders (rt := sample_runtime) sample_env gamma
    [priced_op] 25 0.0078125 []
  = (Ok [ Orders.failed priced_op "Size (5) lower than the minimum: 25" ],
     [ PostOrder (JStr "tok") 0.00390625 25 ]).
Proof. vm_compute. reflexivity. Qed.



Lemma place_buy_orders_best_effort_witness :
  Forall (fun op => exists p,
            Orders.price_of (rt := sample_runtime) 0.0078125 op = Ok p)
         [unresolved_op; priced_op]
  /\ exists results,
       fst (Orders.place_buy_orders (rt := sample_runtime) sample_env gamma
              [unresolved_op; priced_op] 5 0.0078125 []) = Ok results
       /\ List.length results = List.length [unresolved_op; priced_op]
       /\ Forall2 Orders.result_for [unresolved_op; priced_op] results.
Proof.
  assert (H : Forall (fun op => exists p,
                        Orders.price_of (rt := sample_runtime) 0.0078125 op
                        = Ok p)
                     [unresolved_op; priced_op]).
  { repeat constructor; eexists; reflexivity. }
  split; [exact H|].
  exact (proj1 (Orders.place_buy_orders_best_effort (rt := sample_runtime)
                  sample_env gamma [unresolved_op; priced_op] 5 0.0078125 [])
           H).
Defined.

(** The failure of the first opportunity does not keep the second from
    being submitted. *)
Example place_buy_orders_continues :
  fst (Orders.place_buy_orders (rt := sample_runtime) sample_env gamma
         [unresolved_op; priced_op] 25 0.0078125 [])
  = Ok [ Orders.failed unresolved_op "Missing token_id";
         Orders.failed priced_op "Size (5) lower than the minimum: 25" ].
Proof. vm_compute. reflexivity. Qed.

(** ** The scanner registry *)

(** C8.  Two /scan updates of one chat leave two live scanner tasks.
    [scan_cmd] awaits the reply "Started scanning." between the test
    [chat_id in scanning_tasks] and [scanning_tasks[chat_id] = task], and
    the second update is dispatched during that await: both handlers pass
    the test, both answer "Started scanning.", both create a task.  The
    second registration replaces the first, so that /stop cancels one of
    the two tasks and the other is still running. *)
Theorem scan_cmd_twice_concurrently :
  let s := Registry.run
             [ Registry.Scan 7; Registry.Scan 7;
               Registry.Resumed 7; Registry.Resumed 7 ]
             Registry.initial in
  Registry.live_tasks s 7 = [(1%nat, 7); (0%nat, 7)]
  /\ Registry.replies s
     = [(7, "Started scanning."); (7, "Started scanning.")]
  /\ Registry.scanning_tasks s !! 7 = Some 1%nat
  /\ Registry.live_tasks (Registry.stop_cmd 7 s) 7 = [(0%nat, 7)].
Proof. repeat split; vm_compute; reflexivity. Qed.

(** One /scan handled to its end, then a second one. *)
Lemma scan_registry_idempotent_one_at_a_time_witness :
  In (0%nat, 7)
     (Registry.running
        (Registry.run (Registry.one_at_a_time [Registry.ScanCommand 7])
           Registry.initial))
  /\ Registry.scan_cmd_alone 7
       (Registry.run (Registry.one_at_a_time [Registry.ScanCommand 7])
          Registry.initial)
     = Registry.reply 7 "Already scanning."
         (Registry.run (Registry.one_at_a_time [Registry.ScanCommand 7])
            Registry.initial)
  /\ List.length
       (Registry.live_tasks
          (Registry.scan_cmd_alone 7
             (Registry.run (Registry.one_at_a_time [Registry.ScanCommand 7])
                Registry.initial)) 7)
     = 1%nat.
Proof.
  assert (H : In (0%nat, 7)
                (Registry.running
                   (Registry.run
                      (Registry.one_at_a_time [Registry.ScanCommand 7])
                      Registry.initial))).
  { left. reflexivity. }
  split; [exact H|].
  exact (proj1 (proj2 (Registry.scan_registry_idempotent_one_at_a_time
                         [Registry.ScanCommand 7] 7)) 0%nat H).
Defined.

(** ** The trade monitor *)

(** A client whose every call raises. *)
Definition failing_client : Monitor.Client :=
  {| Monitor.get_trades := fun _ => None;
     Monitor.get_orders := fun _ => None;
     Monitor.get_last_trade_price := fun _ => None;
     Monitor.get_midpoint := fun _ => None;
     Monitor.get_price := fun _ => None |}.

(** C9 as stated fails: with a duration of 30 s and an interval of 10 s the
    three ticks fall at 0 s, 10 s and 20 s, not at 10 s, 20 s and 30 s. *)
Lemma monitor_ticks_before_sleeping :
  option_map Monitor.tick_times
    (Monitor.monitor_trades_and_orders (rt := sample_runtime) failing_client
       (JStr "tok") 10 30
       {| Monitor.clock := 0; Monitor.calls := 0; Monitor.outbox := [] |})
  = Some [0; 10; 20]
  /\ [0; 10; 20] <> [10; 20; 30].
Proof. split; [vm_compute; reflexivity|discriminate]. Qed.

(** ** The settings store *)

Definition sample_config : Settings.Config :=
  {| Settings.max_price_no_tokens := 0.0078125;
     Settings.max_order_size := 100;
     Settings.sell_target_price := 0.0625;
     Settings.auto_order := false |}.

(** Chat 7 has an order size of 3. *)
Definition sample_store : Settings.store :=
  JDict [ ("7", JDict [("maxOrderSize", JInt 3)]) ].

(** A decrement of 10 from a size of 3 stores 1. *)
Lemma increment_size_floor_witness :
  Settings.increment_size_for_chat (rt := sample_runtime) sample_config
    sample_store 7 (-10)
  = Ok ([("maxOrderSize", JInt 1)],
        JDict [ ("7", JDict [("maxOrderSize", JInt 1)]) ])
  /\ (exists size,
        lookup [("maxOrderSize", JInt 1)] "maxOrderSize" = Some (JInt size)
        /\ 1 <= size)
  /\ Settings.get_settings_for_chat sample_config
       (JDict [ ("7", JDict [("maxOrderSize", JInt 1)]) ]) 7
     = Ok (JDict [("maxOrderSize", JInt 1)],
           JDict [ ("7", JDict [("maxOrderSize", JInt 1)]) ]).
Proof.
  split; [reflexivity|].
  exact (proj1 (Settings.increment_size_floor (rt := sample_runtime)
                  sample_config sample_store 7 (-10))
           _ _ eq_refl).
Defined.

(** ** The filter over time *)

(** The market that expired at 1 s is refused at 2 s, and so at 3 s. *)
Lemma is_active_market_over_time_witness :
  2000000 <= 3000000
  /\ Markets._is_active_market (rt := sample_runtime) 2000000
       expiring_market = false
  /\ Markets._is_active_market (rt := sample_runtime) 3000000
       expiring_market = false.
Proof.
  split; [lia|]. split; [reflexivity|].
  apply (proj1 (Markets.is_active_market_over_time (rt := sample_runtime)
                  2000000 3000000 expiring_market));
    [lia|reflexivity].
Defined.

(** ** A bid read from outcomePrices *)

(** A market without quotes: the bid comes from [outcomePrices]. *)
Definition quoteless_market : dict :=
  [ ("outcomes", JList [JStr "Yes"; JStr "No"]);
    ("outcomePrices", JList [JFloat 0.75; JFloat 0.25]) ].

Lemma derive_no_bid_without_quotes_nonneg_witness :
  (is_None (get quoteless_market "bestBid")
   || is_None (get quoteless_market "bestAsk")) = true
  /\ Markets._derive_no_bid (rt := sample_runtime) quoteless_market
     = Some 0.25%float
  /\ (0 <=? 0.25)%float = true.
Proof.
  split; [reflexivity|]. split; [reflexivity|].
  apply (Markets.derive_no_bid_without_quotes_nonneg (rt := sample_runtime)
           quoteless_market 0.25);
    reflexivity.
Defined.

(** ** A search page *)

(** The one market of [sample_page] comes back tagged with the slug of its
    event. *)
Lemma parse_search_page_tags_markets_witness :
  Markets.parse_search_page sample_page
  = Ok ([set sample_market "eventSlug" (JStr "will-x")], false)
  /\ exists d events,
       sample_page = JDict d
       /\ iter (por (get d "events") (JList [])) = Ok events
       /\ Forall (fun m => exists ev mk,
                    Markets.listed events ev mk
                    /\ lookup m "eventSlug" = Some (get ev "slug")
                    /\ forall k, k <> "eventSlug" ->
                                 lookup m k = lookup mk k)
            [set sample_market "eventSlug" (JStr "will-x")].
Proof.
  split; [reflexivity|].
  exact (Markets.parse_search_page_tags_markets sample_page _ _ eq_refl).
Defined.

(** ** The token scanner *)

(** A catalog of one market whose NO token trades at 0.00390625. *)
Definition scan_catalog : json :=
  JList [ JDict [ ("question", JStr "X"); ("condition_id", JStr "c1");
                  ("tokens",
                   JList [ JDict [ ("outcome", JStr "Yes");
                                   ("price", JFloat 0.5);
                                   ("token_id", JStr "yes-tok") ];
                           JDict [ ("outcome", JStr "No");
                                   ("price", JFloat 0.00390625);
                                   ("token_id", JStr "no-tok") ] ]) ] ].

Lemma extract_no_opportunities_price_bound_witness :
  Markets._extract_no_opportunities (rt := sample_runtime) scan_catalog
    0.0078125
  = Ok [ [ ("market_question", JStr "X"); ("condition_id", JStr "c1");
           ("token_id", JStr "no-tok"); ("price", JFloat 0.00390625) ] ]
  /\ Forall (Markets.scanned 0.0078125)
       [ [ ("market_question", JStr "X"); ("condition_id", JStr "c1");
           ("token_id", JStr "no-tok"); ("price", JFloat 0.00390625) ] ].
Proof.
  split; [reflexivity|].
  exact (Markets.extract_no_opportunities_price_bound (rt := sample_runtime)
           scan_catalog 0.0078125 _ eq_refl).
Defined.

(** ** The minimum in a rejection message *)

Lemma parse_minimum_first_match_witness :
  Orders.search_minimum
    (list_ascii_of_string "Size (5) lower than the minimum: 25")
  = Some (list_ascii_of_string "25")
  /\ Orders.parse_minimum (rt := sample_runtime)
       "Size (5) lower than the minimum: 25"
     = Ok (Some 25).
Proof.
  refine (Orders.parse_minimum_first_match (rt := sample_runtime)
            (list_ascii_of_string "Size (5) lower than the ")
            (list_ascii_of_string " ") (list_ascii_of_string "25") []
            _ _ _ _ I).
  - repeat constructor; discriminate.
  - repeat constructor.
  - repeat constructor.
  - discriminate.
Defined.

(** ** Reading, patching and incrementing the settings *)

(** The first read of a chat stores the defaults; the second returns them
    and leaves the document alone. *)
Lemma get_settings_for_chat_lazy_defaults_witness :
  Settings.get_settings_for_chat sample_config (JDict []) 7
  = Ok (JDict (Settings._default_settings sample_config),
        JDict [("7", JDict (Settings._default_settings sample_config))])
  /\ Settings.get_settings_for_chat sample_config
       (JDict [("7", JDict (Settings._default_settings sample_config))]) 7
     = Ok (JDict (Settings._default_settings sample_config),
           JDict [("7", JDict (Settings._default_settings sample_config))]).
Proof.
  split; [reflexivity|].
  exact (proj1 (proj2 (proj2 (proj2
           (Settings.get_settings_for_chat_lazy_defaults sample_config
              (JDict []) 7 _ _ eq_refl))))).
Defined.

(** A new threshold for chat 7, whose stored size of 3 stays. *)
Lemma update_settings_for_chat_patch_witness :
  exists next_settings st',
    Settings.update_settings_for_chat sample_config sample_store 7
      [("maxPriceNoTokens", JFloat 0.5)] = Ok (next_settings, st')
    /\ lookup next_settings "maxPriceNoTokens" = Some (JFloat 0.5)
    /\ lookup next_settings "maxOrderSize" = Some (JInt 3)
    /\ Settings.get_settings_for_chat sample_config st' 7
       = Ok (JDict next_settings, st').
Proof.
  eexists _, _. split; [reflexivity|].
  assert (D : List.NoDup (map fst [("maxPriceNoTokens", JFloat 0.5)]))
    by (repeat constructor; simpl; tauto).
  pose proof (Settings.update_settings_for_chat_patch sample_config
                sample_store 7 [("maxPriceNoTokens", JFloat 0.5)] _ _
                eq_refl D) as (H1 & _ & H3 & H4 & _).
  split; [apply H1; reflexivity|].
  split; [|exact H4].
  apply (H3 [("maxOrderSize", JInt 3)]);
    [reflexivity|repeat constructor; simpl; tauto|reflexivity|reflexivity].
Defined.

(** An increment of 5 from a size of 3 stores 8. *)
Lemma increment_size_for_chat_frame_witness :
  exists next_settings st',
    Settings.increment_size_for_chat (rt := sample_runtime) sample_config
      sample_store 7 5 = Ok (next_settings, st')
    /\ exists all_settings current stored,
         sample_store = JDict all_settings
         /\ as_dict (por (get all_settings (Settings.key_of 7))
                         (JDict (Settings._default_settings sample_config)))
            = Ok current
         /\ to_int (rt := sample_runtime)
              (get_or current "maxOrderSize" (JInt 1)) = Ok stored
         /\ lookup next_settings "maxOrderSize"
            = Some (JInt (Z.max 1 (stored + 5)))
         /\ (forall k, k <> "maxOrderSize" ->
               lookup next_settings k = lookup current k)
         /\ (forall other, other <> 7 ->
               Settings.stored_for st' other
               = Settings.stored_for sample_store other).
Proof.
  eexists _, _. split; [reflexivity|].
  exact (Settings.increment_size_for_chat_frame (rt := sample_runtime)
           sample_config sample_store 7 5 _ _ eq_refl).
Defined.

(** From a size of 3: plus 5, then minus 2, is plus 3. *)
Lemma increment_size_for_chat_adds_witness :
  1 <= 3 + 5
  /\ exists next_settings st1,
       Settings.increment_size_for_chat (rt := sample_runtime) sample_config
         sample_store 7 5 = Ok (next_settings, st1)
       /\ Settings.increment_size_for_chat (rt := sample_runtime)
            sample_config st1 7 (-2)
          = Settings.increment_size_for_chat (rt := sample_runtime)
              sample_config sample_store 7 (5 + -2).
Proof.
  split; [lia|].
  apply (Settings.increment_size_for_chat_adds (rt := sample_runtime)
           sample_config sample_store 7 5 (-2)
           [("7", JDict [("maxOrderSize", JInt 3)])]
           [("maxOrderSize", JInt 3)] 3);
    [reflexivity|reflexivity|reflexivity|lia].
Defined.

(** ** The settings commands *)

Lemma sample_config_sane : Commands.sane_config sample_config.
Proof. split; [reflexivity|]. split; [simpl; lia|reflexivity]. Qed.

Lemma empty_store_sane : Commands.sane_store (JDict []).
Proof. exists []. split; [reflexivity|constructor]. Qed.

(** Chat 7 sets a threshold and is refused a size of 0; chat 8 lowers its
    size by 500.  A scan of chat 8 then runs with the default threshold
    and a size of 1. *)
Lemma commands_keep_scan_parameters_sane_witness :
  Commands.sane_config sample_config
  /\ Commands.sane_store (JDict [])
  /\ exists p auto size st',
       Commands.scan_parameters (rt := sample_runtime) sample_config
         (Commands.run (rt := sample_runtime) sample_config
            [ (7, Commands.SetPrice ["0.5"]);
              (7, Commands.SetSize ["0"]);
              (8, Commands.IncSize ["-500"]) ]
            (JDict [])) 8
       = Ok ((p, auto, size), st')
       /\ (0 <? p)%float = true /\ 1 <= size
       /\ Commands.sane_store st'.
Proof.
  split; [exact sample_config_sane|]. split; [exact empty_store_sane|].
  exact (Commands.commands_keep_scan_parameters_sane (rt := sample_runtime)
           sample_config _ (JDict []) 8 sample_config_sane empty_store_sane).
Defined.

(** /setprice 0.5 stores 0.5 for the chat and confirms it. *)
Lemma handle_validates_witness :
  exists st',
    Commands.handle (rt := sample_runtime) sample_config (JDict []) 7
      (Commands.SetPrice ["0.5"])
    = Ok (Commands.Confirmed (JFloat 0.5), st')
    /\ (exists s,
          Settings.stored_for st' 7 = Some (JDict s)
          /\ lookup s "maxPriceNoTokens" = Some (JFloat 0.5))
    /\ exists v,
         float_of_str (Runtime := sample_runtime) "0.5" = Some v
         /\ (0 <? v)%float = true /\ JFloat 0.5 = JFloat v.
Proof.
  eexists. split; [reflexivity|].
  exact (Commands.handle_validates (rt := sample_runtime) sample_config
           (JDict []) 7 (Commands.SetPrice ["0.5"]) _ _ eq_refl).
Defined.

(** A size of 0 is refused and nothing is written. *)
Example set_size_cmd_refuses_zero :
  Commands.handle (rt := sample_runtime) sample_config sample_store 7
    (Commands.SetSize ["0"])
  = Ok (Commands.Invalid, sample_store).
Proof. reflexivity. Qed.

End Scenarios.
